(** * A phase-routed conversational workflow: model and verified properties

    Shallow embedding of [src/workflow/workflow.py], [src/app.py],
    [src/models/schemas.py] and [src/services/session_store.py].

    The language model, the two tool nodes and the JSON decoder are external
    collaborators: they are fields of the [Workflow] record (the Python
    object [self]) and every theorem quantifies over them.  Collaborators may
    fail and may keep state of their own, so node functions live in a small
    state-and-exception monad over an abstract world. *)

From stdpp Require Import gmap strings list fin_maps.
From Stdlib Require Import ZArith Lia.

Set Warnings "-register-all".

Open Scope string_scope.
Open Scope list_scope.

(** ** Python values used by the program *)

(** Exceptions that the modelled code can raise. *)
Inductive exn : Type :=
| CollaboratorError (what : string)
| IndexError
| KeyError (key : string)
| GraphRecursionError
| HTTPException (status_code : Z) (detail : string).

Inductive result (A : Type) : Type :=
| Ok (a : A)
| Raise (e : exn).
Arguments Ok {A} a.
Arguments Raise {A} e.

(** State-and-exception monad over the collaborators' world [W]. *)
Definition M (W A : Type) : Type := W -> result A * W.

Definition ret {W A} (a : A) : M W A := fun w => (Ok a, w).
Definition raise {W A} (e : exn) : M W A := fun w => (Raise e, w).
Definition bind {W A B} (m : M W A) (k : A -> M W B) : M W B :=
  fun w => match m w with
           | (Ok a, w') => k a w'
           | (Raise e, w') => (Raise e, w')
           end.

Declare Scope py_scope.
Delimit Scope py_scope with py.
Notation "'let*' x ':=' m 'in' k" := (bind m (fun x => k))
  (at level 10, x name, m at level 100, k at level 200) : py_scope.

(** A dictionary slot read with [d.get(k)]: [None] when the key is absent,
    otherwise the stored value, which may itself be Python's [None]. *)
Definition dict_get {A} (slot : option (option A)) : option A :=
  match slot with
  | Some v => v
  | None => None
  end.

(** [x is None] and [x is not None]. *)
Definition is_None {A} (x : option A) : bool :=
  match x with None => true | Some _ => false end.

Definition is_not_None {A} (x : option A) : bool := negb (is_None x).

(** Decoded JSON, as returned by [json.loads]. *)
Inductive json : Type :=
| JNull
| JBool (b : bool)
| JNumber (n : Z)
| JString (s : string)
| JArray (items : list json)
| JObject (members : list (string * json)).

(** ** models/schemas.py *)

Record UserProfile : Type := {
  first_name : string;
  last_name : string;
  national_id : string;
  gender : string;
  date_of_birth : string;
  hmo : string;
  insurance_tier : string
}.

Record ChatMessage : Type := {
  cm_role : string;
  cm_content : string;
  cm_timestamp : Z
}.

Record ChatRequest : Type := {
  req_message : string;
  req_user_profile : option UserProfile;
  req_conversation_history : list ChatMessage;
  req_phase : string;
  req_debug : bool
}.

Record ChatResponse : Type := {
  resp_message : string;
  resp_user_profile : option UserProfile;
  resp_phase : string;
  resp_requires_confirmation : bool
}.

Record ChatSession : Type := {
  session_id : string;
  conversation_history : list ChatMessage;
  cs_user_profile : option UserProfile;
  current_phase : string;
  created_at : Z;
  last_activity : Z
}.

(** ** Conversation messages (langchain's message classes) *)

Record ToolCall : Type := {
  tc_name : string;
  tc_args : string;
  tc_id : string
}.

(** Message content is a string or a list of content blocks. *)
Inductive Content : Type :=
| Text (s : string)
| Blocks (parts : list string).

(** What a chat model returns: the payload of an [AIMessage]. *)
Record AIMessageData : Type := {
  ai_content : Content;
  ai_tool_calls : list ToolCall;
  ai_id : option string
}.

Inductive BaseMessage : Type :=
| HumanMessage (content : Content) (id : option string)
| AIMessage (data : AIMessageData)
| ToolMessage (content : Content) (tool_call_id : string) (id : option string)
| SystemMessage (content : Content) (id : option string).

Definition msg_id (m : BaseMessage) : option string :=
  match m with
  | HumanMessage _ i => i
  | AIMessage d => ai_id d
  | ToolMessage _ _ i => i
  | SystemMessage _ i => i
  end.

Definition msg_content (m : BaseMessage) : Content :=
  match m with
  | HumanMessage c _ => c
  | AIMessage d => ai_content d
  | ToolMessage c _ _ => c
  | SystemMessage c _ => c
  end.

(** [isinstance(m, AIMessage)] and [isinstance(m, HumanMessage)]. *)
Definition is_AIMessage (m : BaseMessage) : bool :=
  match m with AIMessage _ => true | _ => false end.

Definition is_HumanMessage (m : BaseMessage) : bool :=
  match m with HumanMessage _ _ => true | _ => false end.

(** [hasattr(m, 'tool_calls') and m.tool_calls]: the attribute exists on
    assistant messages only, and a list is truthy when it is not empty. *)
Definition has_tool_calls (m : BaseMessage) : bool :=
  match m with
  | AIMessage d => match ai_tool_calls d with [] => false | _ :: _ => true end
  | _ => false
  end.

(** ** workflow/workflow.py: the state threaded through the graph *)

(** [WorkflowState] is a [TypedDict]; [user_profile] and [phase] are read
    with [state.get], so a slot may be absent or hold [None]. *)
Record WorkflowState : Type := {
  ws_messages : list BaseMessage;
  ws_user_profile : option (option UserProfile);
  ws_phase : option (option string)
}.

(** The dictionary a node returns: keys it does not mention are [None]. *)
Record Update : Type := {
  u_messages : list BaseMessage;
  u_user_profile : option (option UserProfile);
  u_phase : option (option string)
}.

(** Modelled from the spec: the [add_messages] reducer attached to the
    [messages] channel is imported from the graph library and is not part of
    the sources.  The spec describes it as an append-only merge keyed by
    message identity, so that merging the same messages again changes
    nothing, while a node that answers with the same content once more adds
    a message once more (51 tool-call-only responses in a row are 51
    messages).  Identity is therefore more than content.  A message that
    brings an id is filed under it; a message without id receives an
    identity of its own when it enters the state, here its serial number
    there, and keeps it from then on. *)
Inductive Identity : Type :=
| Given (id : string)
| Generated (serial : nat).

#[global] Instance Identity_eq_dec : EqDecision Identity.
Proof. solve_decision. Defined.

(** Modelled from the spec: a message as the reducer handles it, with the
    serial number it has received if it entered the state before. *)
Record Tracked : Type := {
  tracked_message : BaseMessage;
  tracked_serial : option nat
}.

(** Modelled from the spec: the identity of a message, if it has one. *)
Definition identity_of (t : Tracked) : option Identity :=
  match msg_id (tracked_message t) with
  | Some i => Some (Given i)
  | None => Generated <$> tracked_serial t
  end.

(** Modelled from the spec: some message of the list has the identity. *)
Definition identity_present (i : Identity) (l : list Tracked) : bool :=
  existsb (fun t => bool_decide (identity_of t = Some i)) l.

(** Modelled from the spec: one message of the merge.  A message whose
    identity is already present is not added again; any other message is
    appended at the end, after receiving its serial number if it had no
    identity.  The second component is the message as the merge leaves
    it. *)
Definition merge_message (acc : list Tracked) (t : Tracked) : list Tracked * Tracked :=
  match identity_of t with
  | Some i => (if identity_present i acc then acc else acc ++ [t], t)
  | None =>
      let t' := {| tracked_message := tracked_message t;
                   tracked_serial := Some (length acc) |} in
      (acc ++ [t'], t')
  end.

(** Modelled from the spec: the merge of a list of messages, in order. *)
Fixpoint merge_messages (acc : list Tracked) (right : list Tracked)
  : list Tracked * list Tracked :=
  match right with
  | [] => (acc, [])
  | t :: rest =>
      let '(acc', t') := merge_message acc t in
      let '(acc'', rest') := merge_messages acc' rest in
      (acc'', t' :: rest')
  end.

(** Modelled from the spec: the messages of a state with their serial
    numbers. *)
Definition entries_of (l : list BaseMessage) : list Tracked :=
  imap (fun k m => {| tracked_message := m; tracked_serial := Some k |}) l.

(** Modelled from the spec: a message that has not entered a state. *)
Definition new_message (m : BaseMessage) : Tracked :=
  {| tracked_message := m; tracked_serial := None |}.

(** Modelled from the spec: the reducer as the engine applies it, merging
    the messages a node has just returned into the messages of the state. *)
Definition add_messages (left right : list BaseMessage) : list BaseMessage :=
  tracked_message <$> (merge_messages (entries_of left) (new_message <$> right)).1.

(** Some message of the list brought the id [i]. *)
Definition id_present (i : string) (l : list BaseMessage) : bool :=
  existsb (fun m => bool_decide (msg_id m = Some i)) l.

(** Modelled from the spec: a channel without reducer (the graph library's
    default) is overwritten by the value a node returns for it and keeps its
    value when the node returns none. *)
Definition last_value {A} (old new : option A) : option A :=
  match new with
  | Some v => Some v
  | None => old
  end.

(** Modelled from the spec: how the graph library writes a node's return
    value into the state; [messages] goes through its reducer,
    [user_profile] and [phase] are overwritten when present. *)
Definition apply_update (st : WorkflowState) (u : Update) : WorkflowState :=
  {| ws_messages := add_messages (ws_messages st) (u_messages u);
     ws_user_profile := last_value (ws_user_profile st) (u_user_profile u);
     ws_phase := last_value (ws_phase st) (u_phase u) |}.

Definition empty_state : WorkflowState :=
  {| ws_messages := []; ws_user_profile := None; ws_phase := None |}.

(** ** Node names and routing targets *)

Inductive NodeName : Type :=
| EntryPoint
| CollectorAgent
| QaAgent
| HandleExtractionTool
| HandleSearchTool.

(** The name under which each node is registered in the graph. *)
Definition node_name (n : NodeName) : string :=
  match n with
  | EntryPoint => "entry_point"
  | CollectorAgent => "collector_agent"
  | QaAgent => "qa_agent"
  | HandleExtractionTool => "handle_extraction_tool"
  | HandleSearchTool => "handle_search_tool"
  end.

Inductive Dest : Type :=
| Node (n : NodeName)
| END.

Global Instance NodeName_eq_dec : EqDecision NodeName.
Proof. solve_decision. Defined.

Global Instance Dest_eq_dec : EqDecision Dest.
Proof. solve_decision. Defined.

(** [state["messages"][-1]]: raises [IndexError] on an empty list. *)
Definition last_message (st : WorkflowState) : result BaseMessage :=
  match last (ws_messages st) with
  | Some m => Ok m
  | None => Raise IndexError
  end.

Definition route_after_collector (st : WorkflowState) : result Dest :=
  match last_message st with
  | Raise e => Raise e
  | Ok last_msg =>
      if is_AIMessage last_msg && has_tool_calls last_msg
      then Ok (Node HandleExtractionTool)
      else if negb (is_HumanMessage last_msg)
      then Ok END
      else Ok (Node CollectorAgent)
  end.

Definition route_after_qa (st : WorkflowState) : result Dest :=
  match last_message st with
  | Raise e => Raise e
  | Ok last_msg =>
      if is_AIMessage last_msg && has_tool_calls last_msg
      then Ok (Node HandleSearchTool)
      else if negb (is_HumanMessage last_msg)
      then Ok END
      else Ok (Node QaAgent)
  end.

(** Python truthiness of an optional string: [None] and [""] are falsy. *)
Definition str_truthy (s : option string) : bool :=
  match s with
  | Some s => negb (bool_decide (s = ""))
  | None => false
  end.

(** [x or d] on an optional string. *)
Definition str_or (x : option string) (d : string) : string :=
  match x with
  | Some s => if bool_decide (s = "") then d else s
  | None => d
  end.

Definition route_from_entry (st : WorkflowState) : result Dest :=
  let phase := str_or (dict_get (ws_phase st)) "collection" in
  if bool_decide (phase = "qa") then Ok (Node QaAgent) else Ok (Node CollectorAgent).

(** ** Parsing the extraction tool's result into a [UserProfile] *)

(** The dictionary built by [json.loads] from an object: a repeated key
    keeps its last value. *)
Definition py_dict (members : list (string * json)) : gmap string json :=
  fold_left (fun d kv => <[kv.1 := kv.2]> d) members ∅.

(** A required [str] field of a pydantic model: the key has to be there
    and its value has to be a string (no coercion from other JSON types). *)
Definition str_field (d : gmap string json) (k : string) : option string :=
  match d !! k with
  | Some (JString s) => Some s
  | _ => None
  end.

(** Building a [UserProfile] from keyword arguments: every one of the
    seven fields is required; keys that are not fields of the model are
    ignored. *)
Definition UserProfile_of_kwargs (d : gmap string json) : option UserProfile :=
  fn ← str_field d "first_name";
  ln ← str_field d "last_name";
  ni ← str_field d "national_id";
  g ← str_field d "gender";
  dob ← str_field d "date_of_birth";
  h ← str_field d "hmo";
  tier ← str_field d "insurance_tier";
  Some {| first_name := fn; last_name := ln; national_id := ni; gender := g;
          date_of_birth := dob; hmo := h; insurance_tier := tier |}.

(** ** The [Workflow] object and its collaborators *)

Record Workflow (W : Type) : Type := {
  info_collection_prompt_content : string;
  qa_prompt_content : string;
  (** [self.llm.bind_tools([extract_user_info])] and
      [self.llm.bind_tools([search_info])] *)
  collector_llm : list BaseMessage -> M W AIMessageData;
  qa_llm : list BaseMessage -> M W AIMessageData;
  (** [ToolNode.invoke(state)["messages"]] for each of the two tool nodes *)
  extraction_tool_node : WorkflowState -> M W (list BaseMessage);
  search_tool_node : WorkflowState -> M W (list BaseMessage);
  (** [json.loads]; [None] stands for a decoding error *)
  json_loads : string -> option json;
  (** how the graph engine treats a routing result that is not listed in
      the path map of [add_conditional_edges]: reject it with [KeyError]
      ([true]) or go to the node of that name ([false]) *)
  strict_path_map : bool
}.
Arguments info_collection_prompt_content {W} _.
Arguments qa_prompt_content {W} _.
Arguments collector_llm {W} _ _ _.
Arguments qa_llm {W} _ _ _.
Arguments extraction_tool_node {W} _ _ _.
Arguments search_tool_node {W} _ _ _.
Arguments json_loads {W} _ _.
Arguments strict_path_map {W} _.

Section Nodes.
Context {W : Type} (self : Workflow W).
Local Open Scope py_scope.

Definition get_messages_info (messages : list BaseMessage) : list BaseMessage :=
  SystemMessage (Text (info_collection_prompt_content self)) None :: messages.

Definition collector_agent (state : WorkflowState) : M W Update :=
  let messages := get_messages_info (ws_messages state) in
  let* response := collector_llm self messages in
  ret {| u_messages := [AIMessage response];
         u_user_profile := Some (dict_get (ws_user_profile state));
         u_phase := Some (dict_get (ws_phase state)) |}.

Definition get_messages_qa (messages : list BaseMessage) : list BaseMessage :=
  SystemMessage (Text (qa_prompt_content self)) None :: messages.

Definition qa_agent (state : WorkflowState) : M W Update :=
  let messages := get_messages_qa (ws_messages state) in
  let* response := qa_llm self messages in
  ret {| u_messages := [AIMessage response];
         u_user_profile := Some (dict_get (ws_user_profile state));
         u_phase := Some (dict_get (ws_phase state)) |}.

Definition entry_point (state : WorkflowState) : M W Update :=
  ret {| u_messages := []; u_user_profile := None; u_phase := None |}.

(** The body of the [try] block of [handle_extraction_tool]; [None] is
    the value assigned in the [except] branch. *)
Definition parse_tool_result (tool_messages : list BaseMessage) : option UserProfile :=
  match tool_messages with
  | [] => None
  | m :: _ =>
      match msg_content m with
      | Text content =>
          match json_loads self content with
          | Some (JObject user_profile_data) =>
              UserProfile_of_kwargs (py_dict user_profile_data)
          | _ => None
          end
      | Blocks _ => None
      end
  end.

Definition handle_extraction_tool (state : WorkflowState) : M W Update :=
  let* tool_messages := extraction_tool_node self state in
  let user_profile := parse_tool_result tool_messages in
  ret {| u_messages := tool_messages;
         u_user_profile := Some user_profile;
         u_phase := Some (Some "qa") |}.

Definition handle_search_tool (state : WorkflowState) : M W Update :=
  let* tool_messages := search_tool_node self state in
  ret {| u_messages := tool_messages; u_user_profile := None; u_phase := None |}.

(** ** The graph assembled by [build_workflow] *)

Definition node_fn (n : NodeName) : WorkflowState -> M W Update :=
  match n with
  | EntryPoint => entry_point
  | CollectorAgent => collector_agent
  | QaAgent => qa_agent
  | HandleExtractionTool => handle_extraction_tool
  | HandleSearchTool => handle_search_tool
  end.

Inductive Edge : Type :=
| add_edge (target : Dest)
| add_conditional_edges (path : WorkflowState -> result Dest) (path_map : list Dest).

Definition edge_from (n : NodeName) : Edge :=
  match n with
  | EntryPoint =>
      add_conditional_edges route_from_entry [Node CollectorAgent; Node QaAgent]
  | CollectorAgent =>
      add_conditional_edges route_after_collector [Node HandleExtractionTool; END]
  | HandleExtractionTool => add_edge (Node QaAgent)
  | QaAgent =>
      add_conditional_edges route_after_qa [Node HandleSearchTool; END]
  | HandleSearchTool => add_edge (Node QaAgent)
  end.

Definition dest_name (d : Dest) : string :=
  match d with
  | Node n => node_name n
  | END => "__end__"
  end.

(** Modelled from the spec: the execution loop belongs to the graph
    library and is not part of the sources.  The spec's transition table
    sends the engine to whatever node the routing function names; the
    sources additionally pass a path map, whose treatment of an unlisted
    result is left to [strict_path_map]. *)
Definition follow_edge (n : NodeName) (state : WorkflowState) : result Dest :=
  match edge_from n with
  | add_edge target => Ok target
  | add_conditional_edges path path_map =>
      match path state with
      | Raise e => Raise e
      | Ok d =>
          if bool_decide (d ∈ path_map) || negb (strict_path_map self)
          then Ok d
          else Raise (KeyError (dest_name d))
      end
  end.

(** One executed node, as the engine sees it: the state the node read
    and the update it returned. *)
Record Step : Type := {
  step_node : NodeName;
  step_state : WorkflowState;
  step_update : Update
}.

Definition step_post (s : Step) : WorkflowState :=
  apply_update (step_state s) (step_update s).

(** Modelled from the spec: the engine applies the transition table until
    a node routes to the terminal state or the step budget is used up, in
    which case it raises the recursion-limit error.  The result lists the
    executed steps and the exception that ended the run, if any. *)
Fixpoint pregel_loop (budget : nat) (n : NodeName) (state : WorkflowState) (w : W)
  : (list Step * option exn) * W :=
  match budget with
  | O => (([], Some GraphRecursionError), w)
  | S budget' =>
      match node_fn n state w with
      | (Raise e, w') => (([], Some e), w')
      | (Ok upd, w') =>
          let step := {| step_node := n; step_state := state; step_update := upd |} in
          match follow_edge n (apply_update state upd) with
          | Raise e => (([step], Some e), w')
          | Ok END => (([step], None), w')
          | Ok (Node n') =>
              let '((steps, outcome), w'') :=
                pregel_loop budget' n' (apply_update state upd) w' in
              ((step :: steps, outcome), w'')
          end
      end
  end.

(** Modelled from the spec: the library call
    [compiled_workflow.stream(input, config)] with the recursion limit of
    [config]; the input dictionary is written to the channels of a fresh
    state and the loop starts at the entry point. *)
Definition stream (input : Update) (recursion_limit : nat) (w : W)
  : (list Step * option exn) * W :=
  pregel_loop recursion_limit EntryPoint (apply_update empty_state input) w.

(** The chunk yielded for a step: [{node_name: node_update}]. *)
Definition chunk_of (s : Step) : NodeName * Update :=
  (step_node s, step_update s).
End Nodes.

(** ** app.py: the stateless chat endpoint *)

(** The white space that [str.strip()] removes is what [str.isspace]
    accepts: U+0009 to U+000D, U+001C to U+0020, U+0085, U+00A0, U+1680,
    U+2000 to U+200A, U+2028, U+2029, U+202F, U+205F and U+3000.  A string
    holds the UTF-8 encoding of a text, so a white-space character takes
    one, two or three bytes. *)
Definition byte_is (c : Ascii.ascii) (n : nat) : bool :=
  Nat.eqb (Ascii.nat_of_ascii c) n.

(** The white-space characters of one byte. *)
Definition py_isspace (c : Ascii.ascii) : bool :=
  let n := Ascii.nat_of_ascii c in
  (Nat.leb 9 n && Nat.leb n 13) || (Nat.leb 28 n && Nat.leb n 32).

(** U+0085 and U+00A0. *)
Definition py_isspace2 (c1 c2 : Ascii.ascii) : bool :=
  byte_is c1 194 && (byte_is c2 133 || byte_is c2 160).

(** U+1680; U+2000 to U+200A, U+2028, U+2029 and U+202F; U+205F; U+3000. *)
Definition py_isspace3 (c1 c2 c3 : Ascii.ascii) : bool :=
  let n3 := Ascii.nat_of_ascii c3 in
  (byte_is c1 225 && byte_is c2 154 && byte_is c3 128)
  || (byte_is c1 226 && byte_is c2 128
      && ((Nat.leb 128 n3 && Nat.leb n3 138)
          || byte_is c3 168 || byte_is c3 169 || byte_is c3 175))
  || (byte_is c1 226 && byte_is c2 129 && byte_is c3 159)
  || (byte_is c1 227 && byte_is c2 128 && byte_is c3 128).

(** [not s.strip()]: the string is empty once surrounding whitespace is
    removed, that is, it consists of whitespace only. *)
Fixpoint strip_is_empty (s : string) : bool :=
  match s with
  | EmptyString => true
  | String c1 rest1 =>
      if py_isspace c1 then strip_is_empty rest1
      else
        match rest1 with
        | String c2 rest2 =>
            if py_isspace2 c1 c2 then strip_is_empty rest2
            else
              match rest2 with
              | String c3 rest3 => py_isspace3 c1 c2 c3 && strip_is_empty rest3
              | EmptyString => false
              end
        | EmptyString => false
        end
  end.

Definition convert_chat_history_to_langchain_messages
    (chat_history : list ChatMessage) : list BaseMessage :=
  fold_left
    (fun messages msg =>
       if bool_decide (cm_role msg = "user")
       then messages ++ [HumanMessage (Text (cm_content msg)) None]
       else if bool_decide (cm_role msg = "assistant")
       then messages ++ [AIMessage {| ai_content := Text (cm_content msg);
                                      ai_tool_calls := []; ai_id := None |}]
       else messages)
    chat_history [].

(** The last assistant message with string content, searching from the
    end; [None] when the loop finishes without a [break]. *)
Fixpoint last_ai_text (reversed_messages : list BaseMessage) : option string :=
  match reversed_messages with
  | [] => None
  | AIMessage d :: rest =>
      match ai_content d with
      | Text s => Some s
      | Blocks _ => last_ai_text rest
      end
  | _ :: rest => last_ai_text rest
  end.

(** [final_state] is the last chunk of the stream: a dictionary with the
    update of the single node that ran in the last step. *)
Definition extract_response_from_workflow_result (final_state : NodeName * Update)
  : string * option UserProfile * string :=
  let node_update := final_state.2 in
  let response_message :=
    match u_messages node_update with
    | [] => ""
    | messages => default "" (last_ai_text (rev messages))
    end in
  let user_profile := dict_get (u_user_profile node_update) in
  let phase := str_or (dict_get (u_phase node_update)) "collection" in
  (response_message, user_profile, phase).

(** The fallback reply used when the workflow produced no text. *)
Definition apology : string :=
  "מצטער, אני לא הצלחתי לעבד את הבקשה שלך. אנא נסה שוב.".

(** The recursion limit passed to every [stream] call of the program. *)
Definition recursion_limit : nat := 50.

Section App.
Context {W : Type} (self : Workflow W).

(** The body of the outer [try] block of [chat]. *)
Definition chat_body (request : ChatRequest) : M W ChatResponse :=
  fun w =>
    if strip_is_empty (req_message request)
    then (Raise (HTTPException 400 "Message cannot be empty"), w)
    else
      let langchain_messages :=
        convert_chat_history_to_langchain_messages (req_conversation_history request)
        ++ [HumanMessage (Text (req_message request)) None] in
      let initial_state :=
        {| u_messages := langchain_messages;
           u_user_profile := Some (req_user_profile request);
           u_phase := Some (Some (req_phase request)) |} in
      match stream self initial_state recursion_limit w with
      | ((_, Some workflow_error), w') =>
          (Raise (HTTPException 500 "Workflow execution failed"), w')
      | ((steps, None), w') =>
          match last steps with
          | None => (Raise (HTTPException 500 "No response from workflow"), w')
          | Some final_step =>
              let '(response_message, updated_user_profile, workflow_phase) :=
                extract_response_from_workflow_result (chunk_of final_step) in
              let response_message :=
                if bool_decide (response_message = "") then apology else response_message in
              let requires_confirmation :=
                is_not_None updated_user_profile
                && bool_decide (workflow_phase = "qa")
                && is_None (req_user_profile request) in
              (Ok {| resp_message := response_message;
                     resp_user_profile := updated_user_profile;
                     resp_phase := workflow_phase;
                     resp_requires_confirmation := requires_confirmation |}, w')
          end
      end.

(** The handlers of the outer [try]: [HTTPException] is not a
    [ValueError], so whatever the body raises is caught by the last
    handler and replaced by a generic server error. *)
Definition chat (request : ChatRequest) : M W ChatResponse :=
  fun w =>
    match chat_body request w with
    | (Ok response, w') => (Ok response, w')
    | (Raise _, w') => (Raise (HTTPException 500 "Internal server error"), w')
    end.
End App.

(** ** services/session_store.py *)

(** Points in time and durations are counted in microseconds, the
    resolution of [datetime] and [timedelta]. *)
Definition timedelta_minutes (minutes : Z) : Z := (minutes * 60 * 1000000)%Z.

Record SessionStore : Type := {
  sessions : gmap string ChatSession;
  session_timeout : Z
}.

Definition set_sessions (self : SessionStore) (m : gmap string ChatSession) : SessionStore :=
  {| sessions := m; session_timeout := session_timeout self |}.

(** [SessionStore.__init__]; the parameter defaults to 60 minutes. *)
Definition default_session_timeout_minutes : Z := 60.

Definition SessionStore_init (session_timeout_minutes : Z) : SessionStore :=
  {| sessions := ∅; session_timeout := timedelta_minutes session_timeout_minutes |}.

(** The global instance at the end of the module. *)
Definition session_store : SessionStore := SessionStore_init 60.

(** [ChatSession()]: the default factories draw a fresh identifier and
    read the clock once for each of the two time stamps. *)
Definition new_ChatSession (uuid : string) (t_created t_activity : Z) : ChatSession :=
  {| session_id := uuid;
     conversation_history := [];
     cs_user_profile := None;
     current_phase := "collection";
     created_at := t_created;
     last_activity := t_activity |}.

Definition create_session (session : ChatSession) (self : SessionStore)
  : ChatSession * SessionStore :=
  (session, set_sessions self (<[session_id session := session]> (sessions self))).

(** [now] is the value of [datetime.now()] read inside the method. *)
Definition get_session (now : Z) (sid : string) (self : SessionStore)
  : option ChatSession * SessionStore :=
  match sessions self !! sid with
  | None => (None, self)
  | Some session =>
      if bool_decide (now - last_activity session > session_timeout self)%Z
      then (None, set_sessions self (delete sid (sessions self)))
      else (Some session, self)
  end.

Definition touch (now : Z) (s : ChatSession) : ChatSession :=
  {| session_id := session_id s;
     conversation_history := conversation_history s;
     cs_user_profile := cs_user_profile s;
     current_phase := current_phase s;
     created_at := created_at s;
     last_activity := now |}.

Definition update_session_activity (now : Z) (sid : string) (self : SessionStore)
  : bool * SessionStore :=
  match sessions self !! sid with
  | Some session => (true, set_sessions self (<[sid := touch now session]> (sessions self)))
  | None => (false, self)
  end.

Definition add_message_to_session (now : Z) (sid : string) (message : ChatMessage)
    (self : SessionStore) : bool * SessionStore :=
  match sessions self !! sid with
  | None => (false, self)
  | Some session =>
      let session' :=
        {| session_id := session_id session;
           conversation_history := conversation_history session ++ [message];
           cs_user_profile := cs_user_profile session;
           current_phase := current_phase session;
           created_at := created_at session;
           last_activity := now |} in
      (true, set_sessions self (<[sid := session']> (sessions self)))
  end.

Definition update_session_profile (now : Z) (sid : string) (user_profile : UserProfile)
    (self : SessionStore) : bool * SessionStore :=
  match sessions self !! sid with
  | None => (false, self)
  | Some session =>
      let session' :=
        {| session_id := session_id session;
           conversation_history := conversation_history session;
           cs_user_profile := Some user_profile;
           current_phase := current_phase session;
           created_at := created_at session;
           last_activity := now |} in
      (true, set_sessions self (<[sid := session']> (sessions self)))
  end.

Definition update_session_phase (now : Z) (sid : string) (phase : string)
    (self : SessionStore) : bool * SessionStore :=
  match sessions self !! sid with
  | None => (false, self)
  | Some session =>
      let session' :=
        {| session_id := session_id session;
           conversation_history := conversation_history session;
           cs_user_profile := cs_user_profile session;
           current_phase := phase;
           created_at := created_at session;
           last_activity := now |} in
      (true, set_sessions self (<[sid := session']> (sessions self)))
  end.

Definition get_langchain_messages (now : Z) (sid : string) (self : SessionStore)
  : list BaseMessage * SessionStore :=
  match get_session now sid self with
  | (None, self') => ([], self')
  | (Some session, self') =>
      (convert_chat_history_to_langchain_messages (conversation_history session), self')
  end.

Definition delete_session (sid : string) (self : SessionStore) : bool * SessionStore :=
  match sessions self !! sid with
  | Some _ => (true, set_sessions self (delete sid (sessions self)))
  | None => (false, self)
  end.

Definition expired (now timeout : Z) (session : ChatSession) : bool :=
  bool_decide (now - last_activity session > timeout)%Z.

Definition cleanup_expired_sessions (now : Z) (self : SessionStore) : nat * SessionStore :=
  let expired_sessions :=
    filter (fun kv => expired now (session_timeout self) kv.2 = true) (sessions self) in
  (size expired_sessions,
   set_sessions self
     (filter (fun kv => expired now (session_timeout self) kv.2 = false) (sessions self))).

Definition get_session_count (self : SessionStore) : nat := size (sessions self).

(** ** app.py: the stateful chat endpoint *)

Global Instance UserProfile_eq_dec : EqDecision UserProfile.
Proof. solve_decision. Defined.

Record StatefulChatRequest : Type := {
  sreq_message : string;
  sreq_session_id : option string;
  sreq_debug : bool
}.

Record StatefulChatResponse : Type := {
  sresp_message : string;
  sresp_session_id : string;
  sresp_user_profile : option UserProfile;
  sresp_phase : string;
  sresp_requires_confirmation : bool
}.

(** The clock and the identifier generator of the process. *)
Record System (W : Type) : Type := {
  datetime_now : W -> Z * W;
  uuid4 : W -> string * W
}.
Arguments datetime_now {W} _ _.
Arguments uuid4 {W} _ _.

Definition welcome_message : string :=
  "שלום! אני הצ'אטבוט של קופות החולים. אשמח לעזור לך עם שאלות בנוגע לשירותי הקופה שלך. תוכל בבקשה לתת לי את שמך הפרטי ואת שם המשפחה שלך?".

(** The object a local variable [session] refers to is the one stored under
    its identifier for as long as that entry exists; once the entry has been
    removed the variable still refers to the object as it was last seen. *)
Definition deref (store : SessionStore) (session : ChatSession) : ChatSession :=
  default session (sessions store !! session_id session).

Section StatefulApp.
Context {W : Type} (self : Workflow W) (sys : System W).
Local Open Scope py_scope.

(** The endpoint runs on the collaborators' world and the global store. *)
Definition now_ : M (W * SessionStore) Z :=
  fun '(w, store) => let '(t, w') := datetime_now sys w in (Ok t, (w', store)).

Definition fresh_uuid : M (W * SessionStore) string :=
  fun '(w, store) => let '(u, w') := uuid4 sys w in (Ok u, (w', store)).

Definition on_store {T} (method : SessionStore -> T * SessionStore)
  : M (W * SessionStore) T :=
  fun '(w, store) => let '(r, store') := method store in (Ok r, (w, store')).

(** Re-reads the object behind a local variable after a store method
    may have mutated it. *)
Definition sync (session : ChatSession) : M (W * SessionStore) ChatSession :=
  fun '(w, store) => (Ok (deref store session), (w, store)).

Definition run_workflow (input : Update)
  : M (W * SessionStore) (list (Step) * option exn) :=
  fun '(w, store) =>
    let '(r, w') := stream self input recursion_limit w in (Ok r, (w', store)).

(** [ChatMessage(role=..., content=...)]: the time stamp is read from
    the clock. *)
Definition mk_ChatMessage (role content : string) : M (W * SessionStore) ChatMessage :=
  let* t := now_ in
  ret {| cm_role := role; cm_content := content; cm_timestamp := t |}.

Definition store_get_session (sid : string) : M (W * SessionStore) (option ChatSession) :=
  let* t := now_ in on_store (get_session t sid).

Definition store_add_message (sid : string) (message : ChatMessage)
  : M (W * SessionStore) bool :=
  let* t := now_ in on_store (add_message_to_session t sid message).

Definition store_create_session : M (W * SessionStore) ChatSession :=
  let* u := fresh_uuid in
  let* t_created := now_ in
  let* t_activity := now_ in
  on_store (create_session (new_ChatSession u t_created t_activity)).

(** "Get or create session". *)
Definition get_or_create (request : StatefulChatRequest)
  : M (W * SessionStore) ChatSession :=
  if str_truthy (sreq_session_id request)
  then
    let* found := store_get_session (default "" (sreq_session_id request)) in
    match found with
    | None => raise (HTTPException 404 "Session not found or expired")
    | Some session => ret session
    end
  else
    let* session := store_create_session in
    let* welcome_chat_message := mk_ChatMessage "assistant" welcome_message in
    let* _ := store_add_message (session_id session) welcome_chat_message in
    sync session.

(** The body of the outer [try] block of [stateful_chat]. *)
Definition stateful_chat_body (request : StatefulChatRequest)
  : M (W * SessionStore) StatefulChatResponse :=
  if strip_is_empty (sreq_message request)
  then raise (HTTPException 400 "Message cannot be empty")
  else
    let* session := get_or_create request in
    let sid := session_id session in
    let* user_message := mk_ChatMessage "user" (sreq_message request) in
    let* _ := store_add_message sid user_message in
    let* session := sync session in
    let* langchain_messages :=
      (let* t := now_ in on_store (get_langchain_messages t sid)) in
    let initial_phase := str_or (Some (current_phase session)) "collection" in
    let initial_state :=
      {| u_messages := langchain_messages;
         u_user_profile := Some (cs_user_profile session);
         u_phase := Some (Some initial_phase) |} in
    let* run := run_workflow initial_state in
    match run with
    | (_, Some workflow_error) =>
        raise (HTTPException 500 "Workflow execution failed")
    | (steps, None) =>
        match last steps with
        | None => raise (HTTPException 500 "No response from workflow")
        | Some final_step =>
            let '(response_message, updated_user_profile, workflow_phase) :=
              extract_response_from_workflow_result (chunk_of final_step) in
            let response_message :=
              if bool_decide (response_message = "") then apology else response_message in
            let* _ :=
              match updated_user_profile with
              | Some profile =>
                  if bool_decide (Some profile <> cs_user_profile session)
                  then (let* t := now_ in on_store (update_session_profile t sid profile))
                  else ret false
              | None => ret false
              end in
            let* session := sync session in
            let* _ :=
              if str_truthy (Some workflow_phase)
                 && bool_decide (workflow_phase <> current_phase session)
              then (let* t := now_ in on_store (update_session_phase t sid workflow_phase))
              else ret false in
            let* session := sync session in
            let* assistant_message := mk_ChatMessage "assistant" response_message in
            let* _ := store_add_message sid assistant_message in
            let* session := sync session in
            let* updated_session := store_get_session sid in
            let requires_confirmation :=
              is_not_None updated_user_profile
              && bool_decide (workflow_phase = "qa")
              && is_None (cs_user_profile session) in
            ret {| sresp_message := response_message;
                   sresp_session_id := sid;
                   sresp_user_profile :=
                     match updated_session with
                     | Some s => cs_user_profile s
                     | None => updated_user_profile
                     end;
                   sresp_phase :=
                     match updated_session with
                     | Some s => current_phase s
                     | None => workflow_phase
                     end;
                   sresp_requires_confirmation := requires_confirmation |}
        end
    end.

(** The handlers of the outer [try], as in [chat]. *)
Definition stateful_chat (request : StatefulChatRequest)
  : M (W * SessionStore) StatefulChatResponse :=
  fun ws =>
    match stateful_chat_body request ws with
    | (Ok response, ws') => (Ok response, ws')
    | (Raise _, ws') => (Raise (HTTPException 500 "Internal server error"), ws')
    end.
End StatefulApp.

(** ** app.py: the session endpoints *)

Module Endpoints.
Section Endpoints.
Context {W : Type} (sys : System W).
Local Open Scope py_scope.

(** [POST /sessions]: a new session whose history holds the welcome
    message; returns the identifier and the welcome text.  Any exception
    would be turned into a server error; none of the steps raises. *)
Definition create_session : M (W * SessionStore) (string * string) :=
  let* session := store_create_session sys in
  let* welcome_chat_message := mk_ChatMessage sys "assistant" welcome_message in
  let* _ := store_add_message sys (session_id session) welcome_chat_message in
  ret (session_id session, welcome_message).

(** [GET /sessions/{session_id}]. *)
Definition get_session (sid : string) : M (W * SessionStore) ChatSession :=
  let* session := store_get_session sys sid in
  match session with
  | None => raise (HTTPException 404 "Session not found or expired")
  | Some s => ret s
  end.

(** [DELETE /sessions/{session_id}]. *)
Definition delete_session (sid : string) : M (W * SessionStore) string :=
  let* success := on_store (delete_session sid) in
  if success : bool then ret "Session deleted successfully"
  else raise (HTTPException 404 "Session not found").
End Endpoints.
End Endpoints.

(** ** services/vector_service.py *)

(** [l[i]] on a Python list: a negative index counts from the end, an
    index outside the list raises [IndexError] ([None]). *)
Definition py_getitem {A} (l : list A) (i : Z) : option A :=
  if (0 <=? i)%Z then l !! Z.to_nat i
  else if (- Z.of_nat (length l) <=? i)%Z then l !! Z.to_nat (Z.of_nat (length l) + i)
  else None.

Section VectorService.
(** Scores are floating point numbers and metadata are dictionaries; both
    are only passed through. *)
Context {W Score Meta Vector : Type}.

Record RetrievalResult : Type := {
  rr_content : string;
  rr_metadata : Meta;
  rr_score : Score
}.

(** The service object: [index] is [None] when no index was loaded,
    otherwise it is known by its size [ntotal].  The embedding model and the
    similarity search of the index are collaborators; the search returns the
    first rows of its two result arrays. *)
Record VectorService : Type := {
  vs_index : option Z;
  vs_documents : list string;
  vs_metadata : list Meta;
  embed_query : string -> M W Vector;
  index_search : Vector -> Z -> M W (list Score * list Z)
}.

(** The loop over [zip(scores[0], indexes[0])]; [None] when an index
    lookup raises. *)
Fixpoint collect_results (self : VectorService) (k : Z) (hits : list (Score * Z))
    (results : list RetrievalResult) : option (list RetrievalResult) :=
  match hits with
  | [] => Some results
  | (score, idx) :: rest =>
      match py_getitem (vs_documents self) idx, py_getitem (vs_metadata self) idx with
      | Some doc, Some metadata =>
          let results' :=
            results ++ [{| rr_content := doc; rr_metadata := metadata;
                           rr_score := score |}] in
          if (k <=? Z.of_nat (length results'))%Z then Some results'
          else collect_results self k rest results'
      | _, _ => None
      end
  end.

(** [zip] stops at the shorter of its arguments. *)
Fixpoint py_zip {A B} (l1 : list A) (l2 : list B) : list (A * B) :=
  match l1, l2 with
  | a :: l1', b :: l2' => (a, b) :: py_zip l1' l2'
  | _, _ => []
  end.

Definition search (self : VectorService) (query : string) (k : Z)
  : M W (list RetrievalResult) :=
  fun w =>
    match vs_index self with
    | None => (Ok [], w)
    | Some ntotal =>
        match embed_query self query w with
        | (Raise _, w1) => (Ok [], w1)
        | (Ok query_vector, w1) =>
            match index_search self query_vector (Z.min k ntotal) w1 with
            | (Raise _, w2) => (Ok [], w2)
            | (Ok (scores, indexes), w2) =>
                (Ok (default [] (collect_results self k (py_zip scores indexes) [])), w2)
            end
        end
    end.
End VectorService.
Arguments RetrievalResult : clear implicits.
Arguments VectorService : clear implicits.

(** ** scripts/build_index.py *)

Record ChunkMetadata : Type := {
  chunk_id : nat;
  total_chunks : nat;
  source_file : string;
  title : string
}.

(** [text.split("\n")[0]]: the text up to its first line feed. *)
Fixpoint first_line (text : string) : string :=
  match text with
  | EmptyString => EmptyString
  | String c rest =>
      if Ascii.eqb c (Ascii.ascii_of_nat 10) then EmptyString
      else String c (first_line rest)
  end.

(** The loop over [enumerate(chunks)] for one file; [i] is the position of
    the first chunk of [chunks] within the file's full list.  [is_blank s]
    stands for [not s.strip()]. *)
Fixpoint add_chunks (is_blank : string -> bool) (name text : string) (total : nat)
    (i : nat) (chunks : list string)
    (acc : list string * list ChunkMetadata) : list string * list ChunkMetadata :=
  match chunks with
  | [] => acc
  | chunk :: rest =>
      add_chunks is_blank name text total (S i) rest
        (if is_blank chunk then acc
         else (acc.1 ++ [chunk],
               acc.2 ++ [{| chunk_id := i + 1; total_chunks := total;
                            source_file := name; title := first_line text |}]))
  end.

(** [IndexBuilder.load_documents]: [data_folder_exists] and
    [markdown_files] (name and content of each file) stand for the file
    system, [split_text] for the text splitter. *)
Definition load_documents (is_blank : string -> bool)
    (split_text : string -> list string)
    (data_folder_exists : bool) (markdown_files : list (string * string))
  : list string * list ChunkMetadata :=
  if negb data_folder_exists then ([], [])
  else
    fold_left
      (fun acc file =>
         let '(name, text) := file in
         if is_blank text then acc
         else
           let chunks := split_text text in
           add_chunks is_blank name text (length chunks) 0 chunks acc)
      markdown_files ([], []).

(** ** Test doubles used by the concrete scenarios *)

Definition dquote : string := String (Ascii.ascii_of_nat 34) EmptyString.

(** JSON text of a flat object whose values are strings. *)
Definition json_member (kv : string * string) : string :=
  dquote +:+ kv.1 +:+ dquote +:+ ": " +:+ dquote +:+ kv.2 +:+ dquote.

Fixpoint json_members (kvs : list (string * string)) : string :=
  match kvs with
  | [] => ""
  | [kv] => json_member kv
  | kv :: rest => json_member kv +:+ ", " +:+ json_members rest
  end.

Definition json_text (kvs : list (string * string)) : string :=
  "{" +:+ json_members kvs +:+ "}".

Definition json_object (kvs : list (string * string)) : json :=
  JObject (map (fun kv => (kv.1, JString kv.2)) kvs).

Definition dana_fields : list (string * string) :=
  [("first_name", "Dana"); ("last_name", "Cohen"); ("national_id", "123456789");
   ("gender", "female"); ("date_of_birth", "01/01/1990"); ("hmo", "Maccabi");
   ("insurance_tier", "gold")].

(** Only five of the seven fields. *)
Definition partial_fields : list (string * string) := take 5 dana_fields.

Definition dana : UserProfile :=
  {| first_name := "Dana"; last_name := "Cohen"; national_id := "123456789";
     gender := "female"; date_of_birth := "01/01/1990"; hmo := "Maccabi";
     insurance_tier := "gold" |}.

(** A decoder that knows the two texts above and rejects everything else. *)
Definition stub_json_loads (s : string) : option json :=
  if bool_decide (s = json_text dana_fields) then Some (json_object dana_fields)
  else if bool_decide (s = json_text partial_fields) then Some (json_object partial_fields)
  else None.

(** A scripted model: each call answers with the next canned response. *)
Definition stub_llm (messages : list BaseMessage) : M (list AIMessageData) AIMessageData :=
  fun script =>
    match script with
    | [] => (Raise (CollaboratorError "no more canned responses"), [])
    | response :: rest => (Ok response, rest)
    end.

Definition stub_tool_node {W} (content : string) (state : WorkflowState)
  : M W (list BaseMessage) :=
  ret [ToolMessage (Text content) "call_1" None].

Definition tool_call_only (name : string) : AIMessageData :=
  {| ai_content := Text "";
     ai_tool_calls := [{| tc_name := name; tc_args := "{}"; tc_id := "call_1" |}];
     ai_id := None |}.

Definition final_text (s : string) : AIMessageData :=
  {| ai_content := Text s; ai_tool_calls := []; ai_id := None |}.

Definition stub_workflow (extraction_result : string) (strict : bool)
  : Workflow (list AIMessageData) :=
  {| info_collection_prompt_content := "collect";
     qa_prompt_content := "answer";
     collector_llm := stub_llm;
     qa_llm := stub_llm;
     extraction_tool_node := stub_tool_node extraction_result;
     search_tool_node := stub_tool_node "No relevant information found.";
     json_loads := stub_json_loads;
     strict_path_map := strict |}.

(** A model that asks for a tool on every call, for ever. *)
Definition looping_workflow : Workflow unit :=
  {| info_collection_prompt_content := "collect";
     qa_prompt_content := "answer";
     collector_llm := fun _ => ret (tool_call_only "extract_user_info");
     qa_llm := fun _ => ret (tool_call_only "search_info");
     extraction_tool_node := stub_tool_node (json_text dana_fields);
     search_tool_node := stub_tool_node "No relevant information found.";
     json_loads := stub_json_loads;
     strict_path_map := true |}.

Definition user_says (s : string) : BaseMessage := HumanMessage (Text s) None.

Definition dana_request : ChatRequest :=
  {| req_message := "Hi, I'm Dana Cohen";
     req_user_profile := None;
     req_conversation_history := [];
     req_phase := "collection";
     req_debug := false |}.

Definition stub_system : System (list AIMessageData) :=
  {| datetime_now := fun w => (0%Z, w); uuid4 := fun w => ("session-1", w) |}.

(** * Properties *)

(** Scenario A of the design: a full extraction on the first turn. *)
Example scenario_A :
  (chat (stub_workflow (json_text dana_fields) true) dana_request
     [tool_call_only "extract_user_info"; final_text "Welcome, Dana"]).1
  = Ok {| resp_message := "Welcome, Dana"; resp_user_profile := Some dana;
          resp_phase := "qa"; resp_requires_confirmation := true |}.
Proof. vm_compute. reflexivity. Qed.

(** ** White space

    A no-break space (U+00A0), an ideographic space (U+3000) and a tab make
    a blank message; a Hebrew greeting does not. *)
Definition unicode_blank : string :=
  String (Ascii.ascii_of_nat 194) (String (Ascii.ascii_of_nat 160)
    (String (Ascii.ascii_of_nat 227) (String (Ascii.ascii_of_nat 128)
      (String (Ascii.ascii_of_nat 128) (String (Ascii.ascii_of_nat 9) EmptyString))))).

Example unicode_blank_is_blank : strip_is_empty unicode_blank = true.
Proof. reflexivity. Qed.

Example hebrew_is_not_blank : strip_is_empty "שלום אני דנה כהן" = false.
Proof. reflexivity. Qed.

Example unicode_blank_message_is_rejected :
  chat (stub_workflow (json_text dana_fields) true)
    {| req_message := unicode_blank; req_user_profile := None;
       req_conversation_history := []; req_phase := "collection";
       req_debug := false |} [final_text "hello"]
  = (Raise (HTTPException 500 "Internal server error"), [final_text "hello"]).
Proof. reflexivity. Qed.

(** ** The message reducer *)

Lemma entries_of_messages l : tracked_message <$> entries_of l = l.
Proof.
  unfold entries_of. rewrite fmap_imap.
  rewrite (imap_ext _ (fun _ m => m)) by done.
  induction l as [|m l IH]; [done|]. simpl. f_equal. exact IH.
Qed.

Lemma identity_present_given i l :
  identity_present (Given i) l = id_present i (tracked_message <$> l).
Proof.
  unfold identity_present, id_present.
  induction l as [|t l IH]; [done|]. simpl. rewrite IH. f_equal.
  unfold identity_of. destruct (msg_id (tracked_message t)) as [j|].
  - destruct (bool_decide_reflect (j = i)) as [->|Hne].
    + by rewrite !bool_decide_eq_true_2.
    + rewrite !bool_decide_eq_false_2; [done|congruence..].
  - rewrite !bool_decide_eq_false_2; [done|done|].
    by destruct (tracked_serial t).
Qed.

(** What the merge of one message that a node has just built comes to, on
    the messages alone; [merge_new_message] below derives it from the
    reducer. *)
Definition add_new_message (acc : list BaseMessage) (m : BaseMessage) : list BaseMessage :=
  match msg_id m with
  | Some i => if id_present i acc then acc else acc ++ [m]
  | None => acc ++ [m]
  end.

Lemma merge_new_message acc m :
  tracked_message <$> (merge_message acc (new_message m)).1
  = add_new_message (tracked_message <$> acc) m.
Proof.
  unfold merge_message, add_new_message, identity_of. simpl.
  destruct (msg_id m) as [i|]; simpl.
  - rewrite identity_present_given.
    destruct (id_present i (tracked_message <$> acc)); [done|].
    by rewrite fmap_app.
  - by rewrite fmap_app.
Qed.

Lemma merge_new_messages acc right :
  tracked_message <$> (merge_messages acc (new_message <$> right)).1
  = fold_left add_new_message right (tracked_message <$> acc).
Proof.
  revert acc. induction right as [|m right IH]; intros acc; [done|].
  cbn [fmap list_fmap merge_messages fold_left].
  change (list_fmap _ _ new_message right) with (new_message <$> right).
  pose proof (merge_new_message acc m) as H1.
  destruct (merge_message acc (new_message m)) as [acc' t'].
  specialize (IH acc').
  destruct (merge_messages acc' (new_message <$> right)) as [acc'' rest'].
  simpl in *. by rewrite IH, H1.
Qed.

(** The reducer, message by message. *)
Lemma add_messages_fold left right :
  add_messages left right = fold_left add_new_message right left.
Proof.
  unfold add_messages. by rewrite merge_new_messages, entries_of_messages.
Qed.


Lemma add_messages_nil left : add_messages left [] = left.
Proof. by rewrite add_messages_fold. Qed.

Lemma add_messages_cons left m right :
  add_messages left (m :: right) = add_messages (add_new_message left m) right.
Proof. by rewrite !add_messages_fold. Qed.








(** Messages that a node returns without an id are always appended. *)
Lemma add_messages_no_id left right :
  Forall (fun m => msg_id m = None) right -> add_messages left right = left ++ right.
Proof.
  intros H. revert left. induction H as [|m right Hid _ IH]; intros left.
  - by rewrite add_messages_nil, app_nil_r.
  - rewrite add_messages_cons, IH. unfold add_new_message. rewrite Hid.
    by rewrite <- app_assoc.
Qed.




(** ** The reducer and message identity *)










(** ** Routing *)

Lemma last_message_Some st m :
  last (ws_messages st) = Some m -> last_message st = Ok m.
Proof. unfold last_message. by intros ->. Qed.

Lemma route_from_entry_spec st :
  route_from_entry st =
  Ok (Node (if bool_decide (dict_get (ws_phase st) = Some "qa")
            then QaAgent else CollectorAgent)).
Proof.
  unfold route_from_entry, str_or.
  destruct (dict_get (ws_phase st)) as [s|] eqn:E.
  - destruct (bool_decide_reflect (s = "")) as [->|Hne].
    + by rewrite bool_decide_eq_false_2 by (intros [=]).
    + destruct (bool_decide_reflect (s = "qa")) as [->|Hq].
      * by rewrite bool_decide_eq_true_2.
      * rewrite (bool_decide_eq_false_2 (Some s = Some "qa")); [done|congruence].
  - by rewrite bool_decide_eq_false_2 by (intros [=]).
Qed.

(** C4. The entry node is a pure router: it returns an update without
    messages, profile or phase and leaves the collaborators untouched, so
    the state after it equals the state before it; the edge out of it leads
    to the responder exactly when [phase] reads as [qa], and to the
    collector in every other case, an absent or [None] phase included. *)
Theorem entry_point_pure_router {W} (self : Workflow W) (st : WorkflowState) (w : W) :
  entry_point st w = (Ok {| u_messages := []; u_user_profile := None;
                            u_phase := None |}, w)
  /\ apply_update st {| u_messages := []; u_user_profile := None; u_phase := None |} = st
  /\ (follow_edge self EntryPoint st = Ok (Node QaAgent)
      <-> dict_get (ws_phase st) = Some "qa")
  /\ (dict_get (ws_phase st) <> Some "qa" ->
      follow_edge self EntryPoint st = Ok (Node CollectorAgent))
  /\ (ws_phase st = None \/ ws_phase st = Some None ->
      follow_edge self EntryPoint st = Ok (Node CollectorAgent)).
Proof.
  assert (Hfe : follow_edge self EntryPoint st = route_from_entry st).
  { unfold follow_edge; simpl. rewrite route_from_entry_spec.
    destruct (bool_decide (dict_get (ws_phase st) = Some "qa")); reflexivity. }
  split; [reflexivity|].
  split; [destruct st; unfold apply_update; simpl; by rewrite add_messages_nil|].
  rewrite Hfe, route_from_entry_spec.
  split; [|split].
  - destruct (bool_decide_reflect (dict_get (ws_phase st) = Some "qa")); split;
      congruence.
  - intros Hne. by rewrite bool_decide_eq_false_2.
  - intros [H|H]; rewrite H; reflexivity.
Qed.

Lemma entry_point_witness :
  follow_edge looping_workflow EntryPoint
    {| ws_messages := [user_says "hi"]; ws_user_profile := None; ws_phase := None |}
  = Ok (Node CollectorAgent).
Proof.
  apply (entry_point_pure_router looping_workflow _ tt). by left.
Defined.

Lemma follow_edge_collector_tool_call {W} (self : Workflow W) st d :
  last (ws_messages st) = Some (AIMessage d) -> ai_tool_calls d <> [] ->
  follow_edge self CollectorAgent st = Ok (Node HandleExtractionTool).
Proof.
  intros Hlast Hcalls. unfold follow_edge; simpl.
  unfold route_after_collector. rewrite (last_message_Some _ _ Hlast). simpl.
  by destruct (ai_tool_calls d).
Qed.

Lemma follow_edge_qa_tool_call {W} (self : Workflow W) st d :
  last (ws_messages st) = Some (AIMessage d) -> ai_tool_calls d <> [] ->
  follow_edge self QaAgent st = Ok (Node HandleSearchTool).
Proof.
  intros Hlast Hcalls. unfold follow_edge; simpl.
  unfold route_after_qa. rewrite (last_message_Some _ _ Hlast). simpl.
  by destruct (ai_tool_calls d).
Qed.

(** C3. When the most recent message is an assistant message with at
    least one tool call, with or without content text, the routing function
    after the collector names the extraction handler and the one after the
    responder names the search handler, and the engine follows that edge:
    the next transition is never the terminal state. *)
Theorem tool_call_routes_to_handler {W} (self : Workflow W) (st : WorkflowState)
    (d : AIMessageData)
    (Hlast : last (ws_messages st) = Some (AIMessage d))
    (Hcalls : ai_tool_calls d <> []) :
  route_after_collector st = Ok (Node HandleExtractionTool)
  /\ route_after_qa st = Ok (Node HandleSearchTool)
  /\ follow_edge self CollectorAgent st = Ok (Node HandleExtractionTool)
  /\ follow_edge self QaAgent st = Ok (Node HandleSearchTool)
  /\ follow_edge self CollectorAgent st <> Ok END
  /\ follow_edge self QaAgent st <> Ok END.
Proof.
  assert (Hc : route_after_collector st = Ok (Node HandleExtractionTool)).
  { unfold route_after_collector. rewrite (last_message_Some _ _ Hlast). simpl.
    by destruct (ai_tool_calls d). }
  assert (Hq : route_after_qa st = Ok (Node HandleSearchTool)).
  { unfold route_after_qa. rewrite (last_message_Some _ _ Hlast). simpl.
    by destruct (ai_tool_calls d). }
  assert (Hfc : follow_edge self CollectorAgent st = Ok (Node HandleExtractionTool)).
  { unfold follow_edge; simpl. by rewrite Hc. }
  assert (Hfq : follow_edge self QaAgent st = Ok (Node HandleSearchTool)).
  { unfold follow_edge; simpl. by rewrite Hq. }
  rewrite Hfc, Hfq. by repeat split.
Qed.

Definition text_and_tool_call : AIMessageData :=
  {| ai_content := Text "Let me look that up";
     ai_tool_calls := [{| tc_name := "search_info"; tc_args := "{}"; tc_id := "call_1" |}];
     ai_id := None |}.

Lemma tool_call_routes_to_handler_witness :
  route_after_qa {| ws_messages := [user_says "dental?"; AIMessage text_and_tool_call];
                    ws_user_profile := Some (Some dana);
                    ws_phase := Some (Some "qa") |}
  = Ok (Node HandleSearchTool).
Proof.
  refine (proj1 (proj2 (tool_call_routes_to_handler looping_workflow _
                          text_and_tool_call _ _))).
  - reflexivity.
  - discriminate.
Defined.

(** C10. When the most recent message is neither a human message nor an
    assistant message with tool calls (a tool-role message, for example),
    both routing functions return the terminal state; each of them names its
    own agent node again exactly when the most recent message is a human
    message. *)
Theorem routing_terminal_unless_tool_call_or_human (st : WorkflowState) (m : BaseMessage)
    (Hlast : last (ws_messages st) = Some m) :
  (is_HumanMessage m = false -> is_AIMessage m && has_tool_calls m = false ->
   route_after_collector st = Ok END /\ route_after_qa st = Ok END)
  /\ (forall c tcid i, m = ToolMessage c tcid i ->
      route_after_collector st = Ok END /\ route_after_qa st = Ok END)
  /\ (route_after_collector st = Ok (Node CollectorAgent) <-> is_HumanMessage m = true)
  /\ (route_after_qa st = Ok (Node QaAgent) <-> is_HumanMessage m = true).
Proof.
  unfold route_after_collector, route_after_qa.
  rewrite (last_message_Some _ _ Hlast).
  split; [|split; [|split]].
  - by intros -> ->.
  - by intros c tcid i ->.
  - destruct m as [c i|d|c t i|c i]; simpl; try (split; congruence).
    destruct (ai_tool_calls d); split; congruence.
  - destruct m as [c i|d|c t i|c i]; simpl; try (split; congruence).
    destruct (ai_tool_calls d); split; congruence.
Qed.

Lemma routing_terminal_witness :
  route_after_collector
    {| ws_messages := [user_says "hi"; ToolMessage (Text "{}") "call_1" None];
       ws_user_profile := None; ws_phase := Some (Some "collection") |} = Ok END
  /\ route_after_qa
    {| ws_messages := [user_says "hi"; ToolMessage (Text "{}") "call_1" None];
       ws_user_profile := None; ws_phase := Some (Some "collection") |} = Ok END.
Proof.
  refine (proj1 (proj2 (routing_terminal_unless_tool_call_or_human _
                          (ToolMessage (Text "{}") "call_1" None) _)) _ _ _ _).
  - reflexivity.
  - reflexivity.
Defined.

(** ** Extraction *)

Definition required_fields : list string :=
  ["first_name"; "last_name"; "national_id"; "gender"; "date_of_birth"; "hmo";
   "insurance_tier"].

Lemma str_field_missing d k : d !! k = None -> str_field d k = None.
Proof. unfold str_field. by intros ->. Qed.

(** A profile cannot be built when one of the seven fields is missing. *)
Lemma UserProfile_of_kwargs_missing d k :
  k ∈ required_fields -> d !! k = None -> UserProfile_of_kwargs d = None.
Proof.
  intros Hk Hd. unfold UserProfile_of_kwargs, required_fields in *.
  repeat (apply elem_of_cons in Hk as [->|Hk];
          [rewrite (str_field_missing _ _ Hd);
           repeat (match goal with |- context [str_field d ?f] =>
                     destruct (str_field d f); simpl end);
           reflexivity|]).
  by apply elem_of_nil in Hk.
Qed.

Lemma handle_extraction_tool_ok {W} (self : Workflow W) st w tool_messages w' :
  extraction_tool_node self st w = (Ok tool_messages, w') ->
  handle_extraction_tool self st w =
  (Ok {| u_messages := tool_messages;
         u_user_profile := Some (parse_tool_result self tool_messages);
         u_phase := Some (Some "qa") |}, w').
Proof. intros H. unfold handle_extraction_tool, bind, ret. by rewrite H. Qed.

Lemma parse_tool_result_missing_field {W} (self : Workflow W) m rest content members k :
  msg_content m = Text content ->
  json_loads self content = Some (JObject members) ->
  k ∈ required_fields -> py_dict members !! k = None ->
  parse_tool_result self (m :: rest) = None.
Proof.
  intros Hc Hj Hk Hd. unfold parse_tool_result. rewrite Hc, Hj.
  by eapply UserProfile_of_kwargs_missing.
Qed.

(** C2. Whenever the extraction tool node has produced its tool messages
    and they do not parse into a profile, the handler returns normally: its
    update carries those tool messages, a [None] profile and the phase [qa],
    so that in the state after it the tool messages have gone through the
    message reducer, the profile reads as absent and the phase reads as
    [qa].  A tool result that decodes to an object lacking one of the seven
    required fields is such a case. *)
Theorem extraction_parse_failure_still_advances {W} (self : Workflow W)
    (st : WorkflowState) (w w' : W) (tool_messages : list BaseMessage)
    (Htool : extraction_tool_node self st w = (Ok tool_messages, w')) :
  let u := {| u_messages := tool_messages; u_user_profile := Some None;
              u_phase := Some (Some "qa") |} in
  (parse_tool_result self tool_messages = None ->
   handle_extraction_tool self st w = (Ok u, w')
   /\ ws_messages (apply_update st u) = add_messages (ws_messages st) tool_messages
   /\ (Forall (fun m => msg_id m = None) tool_messages ->
       ws_messages (apply_update st u) = ws_messages st ++ tool_messages)
   /\ dict_get (ws_user_profile (apply_update st u)) = None
   /\ dict_get (ws_phase (apply_update st u)) = Some "qa")
  /\ (forall m rest content members k,
        tool_messages = m :: rest ->
        msg_content m = Text content ->
        json_loads self content = Some (JObject members) ->
        k ∈ required_fields -> py_dict members !! k = None ->
        parse_tool_result self tool_messages = None).
Proof.
  intros u. split.
  - intros Hfail. split.
    + rewrite (handle_extraction_tool_ok _ _ _ _ _ Htool), Hfail. reflexivity.
    + repeat split. intros Hids. simpl. by apply add_messages_no_id.
  - intros m rest content members k -> Hc Hj Hk Hd.
    by eapply parse_tool_result_missing_field.
Qed.

Lemma parse_partial_fields :
  parse_tool_result (stub_workflow (json_text partial_fields) true)
    [ToolMessage (Text (json_text partial_fields)) "call_1" None] = None.
Proof.
  apply (parse_tool_result_missing_field _ _ _ (json_text partial_fields)
           (map (fun kv => (kv.1, JString kv.2)) partial_fields) "hmo").
  - reflexivity.
  - change (stub_json_loads (json_text partial_fields)
            = Some (json_object partial_fields)).
    unfold stub_json_loads.
    rewrite bool_decide_eq_false_2 by (vm_compute; discriminate).
    by rewrite bool_decide_eq_true_2.
  - unfold required_fields. set_solver.
  - vm_compute. reflexivity.
Qed.

Lemma extraction_parse_failure_witness :
  (handle_extraction_tool (stub_workflow (json_text partial_fields) true)
     {| ws_messages := [user_says "Hi, I'm Dana Cohen";
                        AIMessage (tool_call_only "extract_user_info")];
        ws_user_profile := Some None;
        ws_phase := Some (Some "collection") |} [])
  = (Ok {| u_messages := [ToolMessage (Text (json_text partial_fields)) "call_1" None];
           u_user_profile := Some None;
           u_phase := Some (Some "qa") |}, []).
Proof.
  exact (proj1 (proj1 (extraction_parse_failure_still_advances
                         (stub_workflow (json_text partial_fields) true)
                         _ [] []
                         [ToolMessage (Text (json_text partial_fields)) "call_1" None]
                         eq_refl)
                  parse_partial_fields)).
Defined.

(** ** The session store *)

Lemma get_session_unknown now sid store :
  sessions store !! sid = None -> get_session now sid store = (None, store).
Proof. unfold get_session. by intros ->. Qed.

Lemma get_session_expired now sid store s :
  sessions store !! sid = Some s ->
  (now - last_activity s > session_timeout store)%Z ->
  get_session now sid store = (None, set_sessions store (delete sid (sessions store))).
Proof.
  intros Hs Hexp. unfold get_session. rewrite Hs.
  by rewrite bool_decide_eq_true_2.
Qed.

Lemma get_session_live now sid store s :
  sessions store !! sid = Some s ->
  ~ (now - last_activity s > session_timeout store)%Z ->
  get_session now sid store = (Some s, store).
Proof.
  intros Hs Hexp. unfold get_session. rewrite Hs.
  by rewrite bool_decide_eq_false_2.
Qed.

(** C8. [get_session] returns [None] for an identifier that is not in the
    store, and also for a stored session whose last activity lies more than
    the timeout before the time of the call; in that second case the entry
    is removed from the store by the call itself, so every later
    [get_session] for the identifier returns [None] too.  The global store
    is built with a timeout of 60 minutes, which is also the default. *)
Theorem get_session_not_found_and_lazy_eviction (now : Z) (sid : string)
    (store : SessionStore) :
  (sessions store !! sid = None -> get_session now sid store = (None, store))
  /\ (forall s, sessions store !! sid = Some s ->
        (now - last_activity s > session_timeout store)%Z ->
        (get_session now sid store).1 = None
        /\ sessions (get_session now sid store).2 = delete sid (sessions store)
        /\ sessions (get_session now sid store).2 !! sid = None
        /\ forall later, (get_session later sid (get_session now sid store).2).1 = None)
  /\ session_timeout session_store = timedelta_minutes 60
  /\ session_timeout (SessionStore_init default_session_timeout_minutes)
     = (60 * 60 * 1000000)%Z.
Proof.
  split; [apply get_session_unknown|].
  split; [|split; reflexivity].
  intros s Hs Hexp. rewrite (get_session_expired _ _ _ _ Hs Hexp). simpl.
  repeat split.
  - apply lookup_delete_eq.
  - intros later. rewrite get_session_unknown; [reflexivity|].
    simpl. apply lookup_delete_eq.
Qed.

Definition stale_session : ChatSession :=
  {| session_id := "s1"; conversation_history := []; cs_user_profile := None;
     current_phase := "collection"; created_at := 0; last_activity := 0 |}.

Lemma get_session_lazy_eviction_witness :
  let store := (create_session stale_session session_store).2 in
  let now := (timedelta_minutes 60 + 1)%Z in
  (get_session now "s1" store).1 = None
  /\ sessions (get_session now "s1" store).2 !! "s1" = None.
Proof.
  intros store now.
  destruct (proj1 (proj2 (get_session_not_found_and_lazy_eviction now "s1" store))
              stale_session) as (H1 & _ & H3 & _).
  - apply lookup_insert_eq.
  - vm_compute. reflexivity.
  - split; [exact H1 | exact H3].
Defined.

(** ** What each node returns *)

Section NodeFacts.
Context {W : Type} (self : Workflow W).

(** The possible shapes of a node's update, read off the node functions. *)
Definition update_shape (n : NodeName) (st : WorkflowState) (u : Update) : Prop :=
  match n with
  | EntryPoint => u = {| u_messages := []; u_user_profile := None; u_phase := None |}
  | CollectorAgent | QaAgent =>
      exists response,
        u = {| u_messages := [AIMessage response];
               u_user_profile := Some (dict_get (ws_user_profile st));
               u_phase := Some (dict_get (ws_phase st)) |}
  | HandleExtractionTool =>
      exists tool_messages,
        u = {| u_messages := tool_messages;
               u_user_profile := Some (parse_tool_result self tool_messages);
               u_phase := Some (Some "qa") |}
  | HandleSearchTool =>
      exists tool_messages,
        u = {| u_messages := tool_messages; u_user_profile := None; u_phase := None |}
  end.

Lemma node_fn_shape n st w u w' :
  node_fn self n st w = (Ok u, w') -> update_shape n st u.
Proof.
  destruct n; simpl;
    unfold entry_point, collector_agent, qa_agent, handle_extraction_tool,
      handle_search_tool, bind, ret.
  - by intros [= <- _].
  - destruct (collector_llm self _ w) as [[r|e] w1]; [|discriminate].
    intros [= <- _]. by exists r.
  - destruct (qa_llm self _ w) as [[r|e] w1]; [|discriminate].
    intros [= <- _]. by exists r.
  - destruct (extraction_tool_node self st w) as [[r|e] w1]; [|discriminate].
    intros [= <- _]. by exists r.
  - destruct (search_tool_node self st w) as [[r|e] w1]; [|discriminate].
    intros [= <- _]. by exists r.
Qed.

(** Reading a slot after an update that wrote [Some (dict_get old)]. *)
Lemma dict_get_pass_through {A} (old : option (option A)) :
  dict_get (last_value old (Some (dict_get old))) = dict_get old.
Proof. reflexivity. Qed.

Lemma shape_phase n st u :
  update_shape n st u ->
  dict_get (ws_phase (apply_update st u)) = dict_get (ws_phase st)
  \/ (n = HandleExtractionTool /\ dict_get (ws_phase (apply_update st u)) = Some "qa").
Proof.
  destruct n; simpl.
  - intros ->. by left.
  - intros [r ->]. by left.
  - intros [r ->]. by left.
  - intros [r ->]. by right.
  - intros [r ->]. by left.
Qed.

Lemma shape_phase_qa_stays n st u :
  update_shape n st u ->
  dict_get (ws_phase st) = Some "qa" ->
  dict_get (ws_phase (apply_update st u)) = Some "qa".
Proof.
  intros Hs Hq. destruct (shape_phase _ _ _ Hs) as [->|[_ ->]]; done.
Qed.

Lemma shape_profile n st u :
  update_shape n st u ->
  n <> HandleExtractionTool ->
  dict_get (ws_user_profile (apply_update st u)) = dict_get (ws_user_profile st).
Proof.
  destruct n; simpl; try done.
  - by intros ->.
  - by intros [r ->].
  - by intros [r ->].
  - by intros [r ->].
Qed.

(** ** Where an edge can lead *)

Definition may_follow (n : NodeName) (d : Dest) : Prop :=
  match n with
  | EntryPoint => d = Node CollectorAgent \/ d = Node QaAgent
  | CollectorAgent =>
      d = Node HandleExtractionTool \/ d = END
      \/ (d = Node CollectorAgent /\ strict_path_map self = false)
  | HandleExtractionTool => d = Node QaAgent
  | QaAgent =>
      d = Node HandleSearchTool \/ d = END
      \/ (d = Node QaAgent /\ strict_path_map self = false)
  | HandleSearchTool => d = Node QaAgent
  end.

Lemma follow_edge_may_follow n st d :
  follow_edge self n st = Ok d -> may_follow n d.
Proof.
  unfold follow_edge. destruct n; simpl.
  - rewrite route_from_entry_spec.
    destruct (bool_decide (dict_get (ws_phase st) = Some "qa")); simpl;
      intros [= <-]; auto.
  - unfold route_after_collector.
    destruct (last_message st) as [m|e]; [|discriminate].
    destruct (is_AIMessage m && has_tool_calls m); simpl; [intros [= <-]; auto|].
    destruct (negb (is_HumanMessage m)); simpl; [intros [= <-]; auto|].
    destruct (strict_path_map self); simpl; [discriminate|].
    intros [= <-]; auto.
  - unfold route_after_qa.
    destruct (last_message st) as [m|e]; [|discriminate].
    destruct (is_AIMessage m && has_tool_calls m); simpl; [intros [= <-]; auto|].
    destruct (negb (is_HumanMessage m)); simpl; [intros [= <-]; auto|].
    destruct (strict_path_map self); simpl; [discriminate|].
    intros [= <-]; auto.
  - intros [= <-]; reflexivity.
  - intros [= <-]; reflexivity.
Qed.

Lemma follow_edge_entry st :
  follow_edge self EntryPoint st =
  Ok (Node (if bool_decide (dict_get (ws_phase st) = Some "qa")
            then QaAgent else CollectorAgent)).
Proof.
  unfold follow_edge; simpl. rewrite route_from_entry_spec.
  destruct (bool_decide (dict_get (ws_phase st) = Some "qa")); reflexivity.
Qed.

(** ** Runs of the engine *)

Lemma pregel_loop_S budget n st w :
  pregel_loop self (S budget) n st w =
  match node_fn self n st w with
  | (Raise e, w') => (([], Some e), w')
  | (Ok upd, w') =>
      let step := {| step_node := n; step_state := st; step_update := upd |} in
      match follow_edge self n (apply_update st upd) with
      | Raise e => (([step], Some e), w')
      | Ok END => (([step], None), w')
      | Ok (Node n') =>
          let '((steps, outcome), w'') :=
            pregel_loop self budget n' (apply_update st upd) w' in
          ((step :: steps, outcome), w'')
      end
  end.
Proof. reflexivity. Qed.

Lemma pregel_loop_continue budget n st w u w1 n' :
  node_fn self n st w = (Ok u, w1) ->
  follow_edge self n (apply_update st u) = Ok (Node n') ->
  pregel_loop self (S budget) n st w =
  (({| step_node := n; step_state := st; step_update := u |}
      :: (pregel_loop self budget n' (apply_update st u) w1).1.1,
    (pregel_loop self budget n' (apply_update st u) w1).1.2),
   (pregel_loop self budget n' (apply_update st u) w1).2).
Proof.
  intros En Ef. rewrite pregel_loop_S, En, Ef.
  by destruct (pregel_loop self budget n' (apply_update st u) w1) as [[steps o] w2].
Qed.

(** A run never executes more nodes than its budget. *)
Lemma pregel_loop_length budget n st w :
  length (pregel_loop self budget n st w).1.1 <= budget.
Proof.
  revert n st w. induction budget as [|budget IH]; intros n st w; [simpl; lia|].
  rewrite pregel_loop_S.
  destruct (node_fn self n st w) as [[u|e] w1]; [|simpl; lia].
  destruct (follow_edge self n (apply_update st u)) as [[n'|]|e]; simpl; try lia.
  specialize (IH n' (apply_update st u) w1).
  destruct (pregel_loop self budget n' (apply_update st u) w1) as [[steps o] w2].
  simpl in *. lia.
Qed.

(** A run that ends without exception ends with a step whose edge leads to
    the terminal state. *)
Lemma pregel_loop_finished budget n st w steps w' :
  pregel_loop self budget n st w = ((steps, None), w') ->
  exists s, last steps = Some s
            /\ follow_edge self (step_node s) (step_post s) = Ok END.
Proof.
  revert n st w steps w'. induction budget as [|budget IH]; intros n st w steps w';
    [discriminate|].
  rewrite pregel_loop_S.
  destruct (node_fn self n st w) as [[u|e] w1]; [|discriminate].
  destruct (follow_edge self n (apply_update st u)) as [[n'|]|e] eqn:Ef; simpl;
    [| |discriminate].
  - destruct (pregel_loop self budget n' (apply_update st u) w1) as [[steps' o] w2] eqn:El.
    intros [= <- -> <-].
    destruct (IH _ _ _ _ _ El) as (s & Hl & He).
    exists s. split; [|exact He].
    destruct steps'; [discriminate|]. exact Hl.
  - intros [= <- <-]. eexists. split; [reflexivity|exact Ef].
Qed.

(** ** Traces

    The steps of a run form a trace: every step carries an update of the
    shape its node produces, reads the state left by the step before it, and
    is followed by the node its edge leads to. *)
Inductive trace : NodeName -> WorkflowState -> list Step -> Prop :=
| trace_nil n st : trace n st []
| trace_last n st u :
    update_shape n st u ->
    trace n st [{| step_node := n; step_state := st; step_update := u |}]
| trace_step n st u n' rest :
    update_shape n st u ->
    follow_edge self n (apply_update st u) = Ok (Node n') ->
    trace n' (apply_update st u) rest ->
    trace n st ({| step_node := n; step_state := st; step_update := u |} :: rest).

Lemma pregel_loop_trace budget n st w :
  trace n st (pregel_loop self budget n st w).1.1.
Proof.
  revert n st w. induction budget as [|budget IH]; intros n st w; [constructor|].
  rewrite pregel_loop_S.
  destruct (node_fn self n st w) as [[u|e] w1] eqn:En; [|constructor].
  pose proof (node_fn_shape _ _ _ _ _ En) as Hs.
  destruct (follow_edge self n (apply_update st u)) as [[n'|]|e] eqn:Ef; simpl;
    try (by apply trace_last).
  specialize (IH n' (apply_update st u) w1).
  destruct (pregel_loop self budget n' (apply_update st u) w1) as [[steps o] w2].
  simpl in *. by eapply trace_step.
Qed.

Lemma trace_head n st s rest :
  trace n st (s :: rest) ->
  step_node s = n /\ step_state s = st
  /\ update_shape n st (step_update s).
Proof. inversion 1; subst; simpl; auto. Qed.

(** What follows the first step of a trace is a trace from the node its
    edge leads to. *)
Lemma trace_tail n st s s' rest :
  trace n st (s :: s' :: rest) ->
  follow_edge self n (step_post s) = Ok (Node (step_node s'))
  /\ trace (step_node s') (step_post s) (s' :: rest).
Proof.
  inversion 1 as [| |n0 st0 u n' rest0 Hs Hf Ht]; subst.
  destruct (trace_head _ _ _ _ Ht) as (<- & _ & _). by split.
Qed.

(** Every suffix of a trace is a trace. *)
Lemma trace_suffix n st l1 s l2 :
  trace n st (l1 ++ s :: l2) -> trace (step_node s) (step_state s) (s :: l2).
Proof.
  revert n st. induction l1 as [|a l1 IH]; intros n st H; simpl in H.
  - destruct (trace_head _ _ _ _ H) as (-> & -> & _). exact H.
  - destruct l1 as [|b l1]; simpl in *.
    + destruct (trace_tail _ _ _ _ _ H) as [_ Ht]. by eapply (IH _ _ Ht).
    + destruct (trace_tail _ _ _ _ _ H) as [_ Ht]. by eapply IH.
Qed.

(** Invariant rule: a property of (node, state) pairs that holds at the
    start of a trace and is carried along every edge holds at every step. *)
Lemma trace_invariant (P : NodeName -> WorkflowState -> Prop) :
  (forall n st u n',
      P n st -> update_shape n st u ->
      follow_edge self n (apply_update st u) = Ok (Node n') ->
      P n' (apply_update st u)) ->
  forall n st steps,
    trace n st steps -> P n st ->
    Forall (fun s => P (step_node s) (step_state s)) steps.
Proof.
  intros Hpres n st steps Ht.
  induction Ht as [| |n st u n' rest Hs Hf Ht IH]; intros HP.
  - constructor.
  - by repeat constructor.
  - constructor; [exact HP|]. apply IH. by eapply Hpres.
Qed.

Lemma trace_shapes n st steps :
  trace n st steps ->
  Forall (fun s => update_shape (step_node s) (step_state s) (step_update s)) steps.
Proof. induction 1; repeat constructor; auto. Qed.

End NodeFacts.

(** ** The message sequence of a run *)

Section MessageGrowth.
Context {W : Type} (self : Workflow W).



End MessageGrowth.




(** ** Termination and the step budget *)

Section RunShape.
Context {W : Type} (self : Workflow W).

(** Modelled from the spec: the transition table applied step by step.
    [path n st w steps n' st' w']: the engine, about to run node [n] on
    the state [st], executes [steps], each of them a node that returns an
    update and whose edge out of the updated state leads to a further node,
    and is then about to run [n'] on [st']. *)
Inductive path : NodeName -> WorkflowState -> W -> list Step ->
                 NodeName -> WorkflowState -> W -> Prop :=
| path_nil n st w : path n st w [] n st w
| path_cons n st w u w1 n1 rest n' st' w' :
    node_fn self n st w = (Ok u, w1) ->
    follow_edge self n (apply_update st u) = Ok (Node n1) ->
    path n1 (apply_update st u) w1 rest n' st' w' ->
    path n st w ({| step_node := n; step_state := st; step_update := u |} :: rest)
      n' st' w'.

(** Modelled from the spec: the engine applies the transition table until
    a node yields the terminal state or the step budget is exhausted.  These
    are the four ways in which a run with a step budget ends: a node's edge
    leads to the terminal state; the budget is used up, which is the
    recursion-limit error; a node raises; a routing function raises.  In
    each case the steps before the end form a path. *)
Inductive run_end (budget : nat) (n : NodeName) (st : WorkflowState) (w : W)
  : list Step -> option exn -> W -> Prop :=
| run_terminal pre n' st' w' u w'' :
    path n st w pre n' st' w' -> length pre < budget ->
    node_fn self n' st' w' = (Ok u, w'') ->
    follow_edge self n' (apply_update st' u) = Ok END ->
    run_end budget n st w
      (pre ++ [{| step_node := n'; step_state := st'; step_update := u |}]) None w''
| run_exhausted steps n' st' w' :
    path n st w steps n' st' w' -> length steps = budget ->
    run_end budget n st w steps (Some GraphRecursionError) w'
| run_node_raises steps n' st' w' e w'' :
    path n st w steps n' st' w' -> length steps < budget ->
    node_fn self n' st' w' = (Raise e, w'') ->
    run_end budget n st w steps (Some e) w''
| run_routing_raises pre n' st' w' u w'' e :
    path n st w pre n' st' w' -> length pre < budget ->
    node_fn self n' st' w' = (Ok u, w'') ->
    follow_edge self n' (apply_update st' u) = Raise e ->
    run_end budget n st w
      (pre ++ [{| step_node := n'; step_state := st'; step_update := u |}]) (Some e) w''.

Lemma run_end_cons budget n st w u w1 n1 steps outcome w' :
  node_fn self n st w = (Ok u, w1) ->
  follow_edge self n (apply_update st u) = Ok (Node n1) ->
  run_end budget n1 (apply_update st u) w1 steps outcome w' ->
  run_end (S budget) n st w
    ({| step_node := n; step_state := st; step_update := u |} :: steps) outcome w'.
Proof.
  intros En Ef Hrun.
  destruct Hrun as [pre n' st' w2 u' w3 Hp Hl Hn He|steps n' st' w2 Hp Hl
                   |steps n' st' w2 e w3 Hp Hl Hn|pre n' st' w2 u' w3 e Hp Hl Hn He].
  - rewrite app_comm_cons.
    eapply run_terminal; [by eapply path_cons | simpl; lia | exact Hn | exact He].
  - eapply run_exhausted; [by eapply path_cons | simpl; lia].
  - eapply run_node_raises; [by eapply path_cons | simpl; lia | exact Hn].
  - rewrite app_comm_cons.
    eapply run_routing_raises; [by eapply path_cons | simpl; lia | exact Hn | exact He].
Qed.

(** The loop does what [run_end] describes. *)
Lemma pregel_loop_run_end budget n st w :
  run_end budget n st w (pregel_loop self budget n st w).1.1
    (pregel_loop self budget n st w).1.2 (pregel_loop self budget n st w).2.
Proof.
  revert n st w. induction budget as [|budget IH]; intros n st w.
  - simpl. eapply run_exhausted; [apply path_nil | reflexivity].
  - rewrite pregel_loop_S.
    destruct (node_fn self n st w) as [[u|e] w1] eqn:En.
    + destruct (follow_edge self n (apply_update st u)) as [[n1|]|e] eqn:Ef.
      * specialize (IH n1 (apply_update st u) w1).
        destruct (pregel_loop self budget n1 (apply_update st u) w1)
          as [[steps outcome] w2].
        simpl in *. by eapply run_end_cons.
      * simpl. eapply (run_terminal _ _ _ _ []); [apply path_nil | simpl; lia | eauto..].
      * simpl. eapply (run_routing_raises _ _ _ _ []);
          [apply path_nil | simpl; lia | eauto..].
    + simpl. eapply run_node_raises; [apply path_nil | simpl; lia | exact En].
Qed.

(** Along a path every step is followed by the node its edge names, which
    reads the state the step has left. *)
Lemma path_links n st w steps n' st' w' :
  path n st w steps n' st' w' ->
  forall l1 s s' l2, steps = l1 ++ s :: s' :: l2 ->
    follow_edge self (step_node s) (step_post s) = Ok (Node (step_node s'))
    /\ step_state s' = step_post s.
Proof.
  induction 1 as [|n st w u w1 n1 rest n' st' w' En Ef Hp IH];
    intros l1 s s' l2 E.
  - by destruct l1.
  - destruct l1 as [|a l1]; simpl in E.
    + injection E as <- ->. inversion Hp; subst. by split.
    + injection E as _ E. by eapply IH.
Qed.

(** The edge of the last step of a path leads to the node the engine is
    about to run. *)
Lemma path_last n st w steps n' st' w' s :
  path n st w steps n' st' w' -> last steps = Some s ->
  follow_edge self (step_node s) (step_post s) = Ok (Node n') /\ st' = step_post s.
Proof.
  induction 1 as [|n st w u w1 n1 rest n' st' w' En Ef Hp IH]; [discriminate|].
  destruct rest as [|s1 rest].
  - intros [= <-]. inversion Hp; subst. by split.
  - intros Hl. apply IH. exact Hl.
Qed.

(** Every step of a path carries what its node returned for the state it
    read. *)
Lemma path_steps n st w steps n' st' w' :
  path n st w steps n' st' w' ->
  Forall (fun s => exists w1 w2,
            node_fn self (step_node s) (step_state s) w1 = (Ok (step_update s), w2))
    steps.
Proof.
  induction 1 as [|n st w u w1 n1 rest n' st' w' En Ef Hp IH]; constructor;
    [by exists w, w1 | exact IH].
Qed.
End RunShape.

(** The collaborators of a run that can never end: the model asks for a
    tool on every call, with a reply that does not reuse the id of a message
    it was given, and the tool nodes always answer. *)
Definition always_tool_calls {W} (self : Workflow W) : Prop :=
  (forall msgs w, exists d w',
      collector_llm self msgs w = (Ok d, w') /\ ai_tool_calls d <> []
      /\ forall i, ai_id d = Some i -> id_present i msgs = false)
  /\ (forall msgs w, exists d w',
      qa_llm self msgs w = (Ok d, w') /\ ai_tool_calls d <> []
      /\ forall i, ai_id d = Some i -> id_present i msgs = false)
  /\ (forall st w, exists tms w', extraction_tool_node self st w = (Ok tms, w'))
  /\ (forall st w, exists tms w', search_tool_node self st w = (Ok tms, w')).

(** A reply is the last message of the state once it is merged, unless it
    reuses the id of a message that is there. *)
Lemma add_reply_fresh l d :
  (forall i, ai_id d = Some i -> id_present i l = false) ->
  add_messages l [AIMessage d] = l ++ [AIMessage d].
Proof.
  intros Hid. rewrite add_messages_cons, add_messages_nil. unfold add_new_message. simpl.
  by destruct (ai_id d) as [i|]; [rewrite (Hid i eq_refl)|].
Qed.

Lemma last_after_reply l d :
  (forall i, ai_id d = Some i -> id_present i l = false) ->
  last (add_messages l [AIMessage d]) = Some (AIMessage d).
Proof. intros Hid. rewrite add_reply_fresh by exact Hid. apply last_snoc. Qed.

Lemma id_present_no_ids i l :
  Forall (fun m => msg_id m = None) l -> id_present i l = false.
Proof.
  induction 1 as [|m l Hm _ IH]; [done|].
  unfold id_present in *. cbn [existsb]. rewrite IH, Hm.
  by rewrite bool_decide_eq_false_2.
Qed.

Lemma id_present_after_prompt i prompt l :
  id_present i (SystemMessage prompt None :: l) = false -> id_present i l = false.
Proof. unfold id_present. cbn [existsb msg_id]. by rewrite bool_decide_eq_false_2. Qed.

Lemma pregel_loop_exhausts {W} (self : Workflow W) :
  always_tool_calls self ->
  forall budget n st w,
    (pregel_loop self budget n st w).1.2 = Some GraphRecursionError
    /\ length (pregel_loop self budget n st w).1.1 = budget.
Proof.
  intros (Hc & Hq & He & Hs).
  induction budget as [|budget IH]; intros n st w; [by split|].
  assert (Hgo : forall u w1 n',
             node_fn self n st w = (Ok u, w1) ->
             follow_edge self n (apply_update st u) = Ok (Node n') ->
             (pregel_loop self (S budget) n st w).1.2 = Some GraphRecursionError
             /\ length (pregel_loop self (S budget) n st w).1.1 = S budget).
  { intros u w1 n' En Ef. rewrite (pregel_loop_continue _ _ _ _ _ _ _ _ En Ef).
    destruct (IH n' (apply_update st u) w1) as [Ho Hl].
    simpl. split; [exact Ho | by rewrite Hl]. }
  destruct n.
  - eapply Hgo; [reflexivity | apply follow_edge_entry].
  - destruct (Hc (get_messages_info self (ws_messages st)) w) as (d & w1 & El & Ht & Hi).
    eapply Hgo.
    + simpl. unfold collector_agent, bind, ret. rewrite El. reflexivity.
    + eapply follow_edge_collector_tool_call; eauto.
      simpl. apply last_after_reply. intros i Hid.
      by eapply id_present_after_prompt, Hi.
  - destruct (Hq (get_messages_qa self (ws_messages st)) w) as (d & w1 & El & Ht & Hi).
    eapply Hgo.
    + simpl. unfold qa_agent, bind, ret. rewrite El. reflexivity.
    + eapply follow_edge_qa_tool_call; eauto.
      simpl. apply last_after_reply. intros i Hid.
      by eapply id_present_after_prompt, Hi.
  - destruct (He st w) as (tms & w1 & El).
    eapply Hgo.
    + simpl. unfold handle_extraction_tool, bind, ret. rewrite El. reflexivity.
    + reflexivity.
  - destruct (Hs st w) as (tms & w1 & El).
    eapply Hgo.
    + simpl. unfold handle_search_tool, bind, ret. rewrite El. reflexivity.
    + reflexivity.
Qed.

Definition tool_call_script (count : nat) : list AIMessageData :=
  replicate count (tool_call_only "search_info").

Lemma looping_workflow_always_tool_calls : always_tool_calls looping_workflow.
Proof.
  repeat split; intros; try discriminate; eexists _, _; repeat split;
    try reflexivity; discriminate.
Qed.

Lemma chat_raises_when_stream_raises {W} (self : Workflow W) request w :
  strip_is_empty (req_message request) = false ->
  (forall input, (stream self input recursion_limit w).1.2 <> None) ->
  (chat self request w).1 = Raise (HTTPException 500 "Internal server error").
Proof.
  intros Hne Hraise. unfold chat, chat_body. rewrite Hne.
  match goal with |- context [stream self ?i recursion_limit w] =>
    specialize (Hraise i); destruct (stream self i recursion_limit w) as [[steps [e|]] w1]
  end; [reflexivity|]. by destruct Hraise.
Qed.

Lemma snoc_split {A} (pre : list A) s l1 a b l2 :
  pre ++ [s] = l1 ++ a :: b :: l2 ->
  (exists l2', pre = l1 ++ a :: b :: l2') \/ (pre = l1 ++ [a] /\ s = b /\ l2 = []).
Proof.
  intros E. destruct l2 as [|c l2].
  - right.
    replace (l1 ++ [a; b]) with ((l1 ++ [a]) ++ [b]) in E
      by (by rewrite <- app_assoc).
    apply app_inj_tail in E as [-> ->]. by repeat split.
  - left. destruct (exists_last (l := c :: l2)) as (l2' & x & Hx); [done|].
    rewrite Hx in E.
    replace (l1 ++ a :: b :: l2' ++ [x]) with ((l1 ++ a :: b :: l2') ++ [x]) in E
      by (by rewrite <- app_assoc).
    apply app_inj_tail in E as [-> _]. by exists l2'.
Qed.

(** The first step of a run that has a budget: the entry node, on the state
    made of the input. *)
Definition entry_step (input : Update) : Step :=
  {| step_node := EntryPoint;
     step_state := apply_update empty_state input;
     step_update := {| u_messages := []; u_user_profile := None; u_phase := None |} |}.

(** C5. The execution loop always comes to an end, and it ends as the
    transition table says.  A run starts at the entry node on the state
    made of its input.  Every step is a node that was run on the state the
    step before it left, and it is followed by the node that its edge names;
    no step but the last has an edge to the terminal state.  The run ends in
    one of four ways: the edge of the last step leads to the terminal state
    (the only way to end without an error), the step budget is used up after
    exactly that many steps (the recursion-limit error), a node raises, or
    a routing function raises.  A run therefore never has more steps than
    its budget, which every caller sets to 50.  A run whose model keeps
    asking for tools uses up any budget and ends with the recursion-limit
    error, which fails the turn; a scripted model with 51 tool-call-only
    responses is such a run. *)
Theorem execution_loop_terminates {W} (self : Workflow W) (input : Update) (w : W) :
  recursion_limit = 50
  /\ (forall budget,
        let run := stream self input budget w in
        run_end self budget EntryPoint (apply_update empty_state input) w
          run.1.1 run.1.2 run.2
        /\ length run.1.1 <= budget
        /\ (0 < budget -> exists rest, run.1.1 = entry_step input :: rest)
        /\ Forall (fun s => exists w1 w2,
                     node_fn self (step_node s) (step_state s) w1
                     = (Ok (step_update s), w2)) run.1.1
        /\ (forall l1 s s' l2,
              run.1.1 = l1 ++ s :: s' :: l2 ->
              follow_edge self (step_node s) (step_post s) = Ok (Node (step_node s'))
              /\ step_state s' = step_post s)
        /\ (run.1.2 = None <->
            exists s, last run.1.1 = Some s
                      /\ follow_edge self (step_node s) (step_post s) = Ok END))
  /\ (always_tool_calls self ->
      forall budget,
        (stream self input budget w).1.2 = Some GraphRecursionError
        /\ length (stream self input budget w).1.1 = budget)
  /\ (always_tool_calls self ->
      forall request,
        strip_is_empty (req_message request) = false ->
        (chat self request w).1 = Raise (HTTPException 500 "Internal server error"))
  /\ (forall strict,
        (stream (stub_workflow (json_text dana_fields) strict)
           {| u_messages := [user_says "hi"]; u_user_profile := Some None;
              u_phase := Some (Some "collection") |}
           recursion_limit (tool_call_script 51)).1.2 = Some GraphRecursionError).
Proof.
  split; [reflexivity|].
  split.
  { intros budget run.
    pose proof (pregel_loop_run_end self budget EntryPoint
                  (apply_update empty_state input) w) as Hrun.
    change (pregel_loop self budget EntryPoint (apply_update empty_state input) w)
      with run in Hrun.
    split; [exact Hrun|].
    split; [apply pregel_loop_length|].
    split.
    { intros Hb. destruct budget as [|budget]; [lia|].
      unfold run, stream.
      rewrite (pregel_loop_continue self budget EntryPoint _ w
                 {| u_messages := []; u_user_profile := None; u_phase := None |} w
                 _ eq_refl (follow_edge_entry self _)).
      by eexists. }
    destruct run as [[steps outcome] w']. simpl in *.
    pose proof (@snoc_split Step) as Hsnoc.
    destruct Hrun as [pre n' st' w1 u w2 Hp Hl Hn He|steps n' st' w1 Hp Hl
                     |steps n' st' w1 e w2 Hp Hl Hn|pre n' st' w1 u w2 e Hp Hl Hn He].
    - (* the last edge leads to the terminal state *)
      split.
      { apply Forall_app. split; [by eapply path_steps|].
        repeat constructor. by exists w1, w2. }
      split.
      { intros l1 s s' l2 E.
        destruct (Hsnoc _ _ _ _ _ _ E) as [[l2' ->]|(-> & <- & ->)].
        - by eapply path_links.
        - simpl. eapply path_last; [exact Hp | apply last_snoc]. }
      split; [|done]. intros _. eexists. split; [apply last_snoc | exact He].
    - split; [by eapply path_steps|].
      split; [intros l1 s s' l2 E; by eapply path_links|].
      split; [discriminate|]. intros (s & Hs & Hend).
      destruct (path_last self _ _ _ _ _ _ _ _ Hp Hs) as [Hnode _]. congruence.
    - split; [by eapply path_steps|].
      split; [intros l1 s s' l2 E; by eapply path_links|].
      split; [discriminate|]. intros (s & Hs & Hend).
      destruct (path_last self _ _ _ _ _ _ _ _ Hp Hs) as [Hnode _]. congruence.
    - split.
      { apply Forall_app. split; [by eapply path_steps|].
        repeat constructor. by exists w1, w2. }
      split.
      { intros l1 s s' l2 E.
        destruct (Hsnoc _ _ _ _ _ _ E) as [[l2' ->]|(-> & <- & ->)].
        - by eapply path_links.
        - simpl. eapply path_last; [exact Hp | apply last_snoc]. }
      split; [discriminate|]. intros (s & Hs & Hend).
      rewrite last_snoc in Hs. injection Hs as <-.
      unfold step_post in Hend. simpl in Hend. congruence. }
  split; [intros H budget; by apply pregel_loop_exhausts|].
  split.
  - intros H request Hne. apply chat_raises_when_stream_raises; [exact Hne|].
    intros input'. unfold stream.
    by rewrite (proj1 (pregel_loop_exhausts self H _ _ _ _)).
  - intros []; vm_compute; reflexivity.
Qed.

Definition hi_input : Update :=
  {| u_messages := [user_says "hi"]; u_user_profile := Some None;
     u_phase := Some (Some "collection") |}.

Lemma execution_loop_terminates_witness :
  (stream looping_workflow hi_input recursion_limit tt).1.2 = Some GraphRecursionError
  /\ (chat looping_workflow dana_request tt).1
     = Raise (HTTPException 500 "Internal server error").
Proof.
  pose proof (execution_loop_terminates looping_workflow hi_input tt)
    as (_ & _ & Hstream & Hchat & _).
  split.
  - exact (proj1 (Hstream looping_workflow_always_tool_calls recursion_limit)).
  - exact (Hchat looping_workflow_always_tool_calls dana_request eq_refl).
Defined.

(** ** The responder side of the graph *)

Section Runs.
Context {W : Type} (self : Workflow W).

Definition qa_side (n : NodeName) : Prop :=
  n = EntryPoint \/ n = QaAgent \/ n = HandleSearchTool.

(** In the [qa] phase with profile [p], at a node of the responder side. *)
Definition in_qa (p : option UserProfile) (n : NodeName) (st : WorkflowState) : Prop :=
  qa_side n
  /\ dict_get (ws_phase st) = Some "qa"
  /\ dict_get (ws_user_profile st) = p.

Lemma in_qa_preserved p n st u n' :
  in_qa p n st -> update_shape self n st u ->
  follow_edge self n (apply_update st u) = Ok (Node n') ->
  in_qa p n' (apply_update st u).
Proof.
  intros (Hside & Hph & Hpr) Hs Hf.
  assert (Hph' := shape_phase_qa_stays self _ _ _ Hs Hph).
  split; [|split; [exact Hph'|]].
  - destruct Hside as [-> | [-> | ->]].
    + rewrite follow_edge_entry, bool_decide_eq_true_2 in Hf by exact Hph'.
      injection Hf as <-. right; by left.
    + apply follow_edge_may_follow in Hf. simpl in Hf.
      destruct Hf as [[= ->]|[[=]|[[= ->] _]]]; unfold qa_side; auto.
    + apply follow_edge_may_follow in Hf. simpl in Hf.
      injection Hf as ->. right; by left.
  - rewrite (shape_profile self _ _ _ Hs); [exact Hpr|].
    destruct Hside as [-> | [-> | ->]]; discriminate.
Qed.

Lemma trace_in_qa p n st steps :
  trace self n st steps -> in_qa p n st ->
  Forall (fun s => in_qa p (step_node s) (step_state s)) steps.
Proof. apply (trace_invariant self (in_qa p)), in_qa_preserved. Qed.

(** After the extraction handler the run stays on the responder side, in
    the [qa] phase, with the profile the handler wrote. *)
Lemma trace_after_extraction st s rest :
  trace self HandleExtractionTool st (s :: rest) ->
  Forall (fun s' => in_qa (dict_get (u_user_profile (step_update s)))
                      (step_node s') (step_state s')) rest.
Proof.
  intros Ht. destruct rest as [|s' rest]; [constructor|].
  destruct (trace_head _ _ _ _ _ Ht) as (Hn & Hst & Hs).
  destruct (trace_tail _ _ _ _ _ _ Ht) as [Hf Ht'].
  apply follow_edge_may_follow in Hf. simpl in Hf. injection Hf as Hn'.
  eapply trace_in_qa; [exact Ht'|].
  destruct Hs as [tms Hu]. unfold step_post. rewrite Hst, Hu. simpl.
  split; [|by split]. rewrite Hn'. right; by left.
Qed.

(** The extraction handler runs at most once in a run. *)
Lemma trace_extraction_once n st steps :
  trace self n st steps ->
  length (filter (fun s => step_node s = HandleExtractionTool) steps) <= 1.
Proof.
  induction 1 as [n st|n st u Hs|n st u n' rest Hs Hf Ht IH].
  - simpl. lia.
  - rewrite filter_cons. destruct (decide _); simpl; lia.
  - rewrite filter_cons. destruct (decide _) as [Hn|Hn]; [|exact IH].
    simpl in Hn. subst n.
    pose proof (trace_after_extraction st _ rest
                  (trace_step self _ _ _ _ _ Hs Hf Ht)) as Hq.
    assert (Hnone : filter (fun s => step_node s = HandleExtractionTool) rest = []).
    { clear -Hq. induction Hq as [|s' rest (Hside & _) _ IH]; [reflexivity|].
      rewrite filter_cons. destruct (decide _) as [He|_]; [|exact IH].
      rewrite He in Hside. by destruct Hside as [|[|]]. }
    simpl. rewrite Hnone. simpl. lia.
Qed.

(** The profile seen by the last step of a trace is the one the trace
    started with, unless the extraction handler ran on the way, and then it
    is the one that handler wrote. *)
Lemma trace_final_profile n st steps s_f :
  trace self n st steps -> last steps = Some s_f ->
  dict_get (ws_user_profile (step_state s_f)) = dict_get (ws_user_profile st)
  \/ exists s_e, s_e ∈ steps /\ step_node s_e = HandleExtractionTool
                 /\ dict_get (u_user_profile (step_update s_e))
                    = dict_get (ws_user_profile (step_state s_f)).
Proof.
  induction 1 as [n st|n st u Hs|n st u n' rest Hs Hf Ht IH]; intros Hl.
  - discriminate.
  - injection Hl as <-. by left.
  - destruct rest as [|s' rest]; [injection Hl as <-; by left|].
    change (last (s' :: rest) = Some s_f) in Hl.
    destruct (IH Hl) as [Heq|(s_e & Hin & Hn & Hp)].
    + destruct (decide (n = HandleExtractionTool)) as [->|Hne].
      * right. eexists. split; [apply list_elem_of_here|]. split; [reflexivity|].
        simpl. rewrite Heq. by destruct Hs as [tms ->].
      * left. rewrite Heq. by apply (shape_profile self n).
    + right. exists s_e. split; [by apply list_elem_of_further|by split].
Qed.

(** A run that starts at the entry point in the [qa] phase. *)
Lemma stream_in_qa input budget w :
  dict_get (u_phase input) = Some "qa" ->
  Forall (fun s => in_qa (dict_get (u_user_profile input)) (step_node s) (step_state s))
         (stream self input budget w).1.1.
Proof.
  intros Hq. unfold stream. eapply trace_in_qa; [apply pregel_loop_trace|].
  split; [by left|]. destruct input as [ms [p|] [ph|]]; simpl in *; try done.
Qed.
End Runs.

(** ** The stateless endpoint *)

(** The input of the workflow built by [chat]: the converted history
    followed by the new user message, and the profile and phase of the
    request. *)
Definition chat_initial_state (request : ChatRequest) : Update :=
  {| u_messages :=
       convert_chat_history_to_langchain_messages (req_conversation_history request)
       ++ [HumanMessage (Text (req_message request)) None];
     u_user_profile := Some (req_user_profile request);
     u_phase := Some (Some (req_phase request)) |}.

Section ChatFacts.
Context {W : Type} (self : Workflow W).

Lemma follow_edge_END n st :
  follow_edge self n st = Ok END -> n = CollectorAgent \/ n = QaAgent.
Proof.
  intros Hf. apply follow_edge_may_follow in Hf.
  destruct n; simpl in Hf; auto; try discriminate.
  by destruct Hf.
Qed.

(** What the endpoint reads from the last chunk when that chunk comes
    from one of the two agent nodes. *)
Lemma extract_from_agent n st u :
  n = CollectorAgent \/ n = QaAgent -> update_shape self n st u ->
  (extract_response_from_workflow_result (n, u)).1.2 = dict_get (ws_user_profile st)
  /\ (extract_response_from_workflow_result (n, u)).2
     = str_or (dict_get (ws_phase st)) "collection".
Proof. by intros [-> | ->] [r ->]. Qed.

(** A successful call of [chat] in terms of the run behind it. *)
Lemma chat_ok_inv request w resp w' :
  chat self request w = (Ok resp, w') ->
  exists steps s_f,
    stream self (chat_initial_state request) recursion_limit w = ((steps, None), w')
    /\ last steps = Some s_f
    /\ follow_edge self (step_node s_f) (step_post s_f) = Ok END
    /\ resp_user_profile resp = dict_get (ws_user_profile (step_state s_f))
    /\ resp_phase resp = str_or (dict_get (ws_phase (step_state s_f))) "collection"
    /\ resp_requires_confirmation resp
       = is_not_None (resp_user_profile resp)
         && bool_decide (resp_phase resp = "qa")
         && is_None (req_user_profile request).
Proof.
  unfold chat, chat_body.
  destruct (strip_is_empty (req_message request)); [discriminate|].
  change (stream self _ recursion_limit w)
    with (stream self (chat_initial_state request) recursion_limit w).
  destruct (stream self (chat_initial_state request) recursion_limit w)
    as [[steps [e|]] w1] eqn:Es; [discriminate|].
  destruct (pregel_loop_finished self _ _ _ _ _ _ Es) as (s_f & Hl & Hend).
  rewrite Hl.
  pose proof (pregel_loop_trace self recursion_limit EntryPoint
                (apply_update empty_state (chat_initial_state request)) w) as Ht.
  change (pregel_loop self recursion_limit EntryPoint _ w)
    with (stream self (chat_initial_state request) recursion_limit w) in Ht.
  rewrite Es in Ht. simpl in Ht.
  apply trace_shapes in Ht.
  assert (Hshape : update_shape self (step_node s_f) (step_state s_f) (step_update s_f)).
  { rewrite Forall_forall in Ht. apply Ht. by apply last_Some_elem_of. }
  destruct (extract_from_agent _ _ _ (follow_edge_END _ _ Hend) Hshape) as [Hp Hph].
  unfold chunk_of.
  destruct (extract_response_from_workflow_result (step_node s_f, step_update s_f))
    as [[msg prof] ph] eqn:Ex.
  simpl in Hp, Hph. subst prof ph.
  intros [= <- <-]. exists steps, s_f. simpl. by repeat split.
Qed.
End ChatFacts.

Section ChatTheorems.
Context {W : Type} (self : Workflow W).

Lemma chat_in_qa_phase request w resp w' :
  req_phase request = "qa" ->
  chat self request w = (Ok resp, w') ->
  resp_user_profile resp = req_user_profile request /\ resp_phase resp = "qa".
Proof.
  intros Hq Hok.
  destruct (chat_ok_inv self _ _ _ _ Hok) as (steps & s_f & Es & Hl & _ & Hp & Hph & _).
  pose proof (stream_in_qa self (chat_initial_state request) recursion_limit w) as Hall.
  rewrite Es in Hall. simpl in Hall. rewrite Hq in Hall. specialize (Hall eq_refl).
  rewrite Forall_forall in Hall.
  destruct (Hall s_f (last_Some_elem_of _ _ Hl)) as (_ & Hphase & Hprof).
  rewrite Hp, Hph, Hphase, Hprof. by split.
Qed.

(** C6. The responder and the search handler leave profile and phase as
    they found them: after [qa_agent] both read as before, and
    [handle_search_tool] does not write them at all.  Hence in a run that
    starts in the [qa] phase every executed step leaves the input profile
    and the [qa] phase in place, and a [chat] turn in the [qa] phase returns
    exactly the profile it was given, for instance one that
    [handle_extraction_tool] produced in an earlier turn. *)
Theorem responder_never_changes_profile :
  (forall st w u w',
      qa_agent self st w = (Ok u, w') ->
      dict_get (ws_user_profile (apply_update st u)) = dict_get (ws_user_profile st)
      /\ dict_get (ws_phase (apply_update st u)) = dict_get (ws_phase st))
  /\ (forall st w u w',
      handle_search_tool self st w = (Ok u, w') ->
      ws_user_profile (apply_update st u) = ws_user_profile st
      /\ ws_phase (apply_update st u) = ws_phase st)
  /\ (forall input budget w s,
      dict_get (u_phase input) = Some "qa" ->
      s ∈ (stream self input budget w).1.1 ->
      qa_side (step_node s)
      /\ dict_get (ws_user_profile (step_post s)) = dict_get (u_user_profile input)
      /\ dict_get (ws_phase (step_post s)) = Some "qa")
  /\ (forall request w resp w',
      req_phase request = "qa" ->
      chat self request w = (Ok resp, w') ->
      resp_user_profile resp = req_user_profile request /\ resp_phase resp = "qa").
Proof.
  split; [|split; [|split]].
  - intros st w u w' H.
    destruct (node_fn_shape self QaAgent _ _ _ _ H) as [r ->]. by split.
  - intros st w u w' H.
    destruct (node_fn_shape self HandleSearchTool _ _ _ _ H) as [r ->]. by split.
  - intros input budget w s Hq Hin.
    pose proof (stream_in_qa self input budget w Hq) as Hall.
    pose proof (trace_shapes self _ _ _
                  (pregel_loop_trace self budget EntryPoint
                     (apply_update empty_state input) w)) as Hsh.
    rewrite Forall_forall in Hall, Hsh.
    destruct (Hall s Hin) as (Hside & Hph & Hpr). specialize (Hsh s Hin).
    split; [exact Hside|]. unfold step_post. split.
    + rewrite (shape_profile self _ _ _ Hsh); [exact Hpr|].
      destruct Hside as [-> | [-> | ->]]; discriminate.
    + by apply (shape_phase_qa_stays self (step_node s)).
  - apply chat_in_qa_phase.
Qed.

(** C7. For every [chat] call that returns a response, the confirmation
    flag is true exactly when the returned profile is not [None], the
    returned phase is [qa] and the request carried no profile; and that is
    the case exactly when the request carried no profile and the extraction
    handler produced a profile during the run of this very turn. *)
Theorem requires_confirmation_exactly_when_extracted
    (request : ChatRequest) (w w' : W) (resp : ChatResponse)
    (Hok : chat self request w = (Ok resp, w')) :
  (resp_requires_confirmation resp = true
   <-> resp_user_profile resp <> None /\ resp_phase resp = "qa"
       /\ req_user_profile request = None)
  /\ (resp_requires_confirmation resp = true
      <-> req_user_profile request = None
          /\ exists s_e p,
               s_e ∈ (stream self (chat_initial_state request) recursion_limit w).1.1
               /\ step_node s_e = HandleExtractionTool
               /\ u_user_profile (step_update s_e) = Some (Some p)).
Proof.
  destruct (chat_ok_inv self _ _ _ _ Hok)
    as (steps & s_f & Es & Hl & Hend & Hp & Hph & Hflag).
  assert (Hfirst : resp_requires_confirmation resp = true
                   <-> resp_user_profile resp <> None /\ resp_phase resp = "qa"
                       /\ req_user_profile request = None).
  { rewrite Hflag, !andb_true_iff, bool_decide_eq_true.
    unfold is_not_None, is_None.
    destruct (resp_user_profile resp), (req_user_profile request); simpl;
      split; intros H; try (intuition congruence). }
  split; [exact Hfirst|].
  pose proof (pregel_loop_trace self recursion_limit EntryPoint
                (apply_update empty_state (chat_initial_state request)) w) as Ht.
  change (pregel_loop self recursion_limit EntryPoint _ w)
    with (stream self (chat_initial_state request) recursion_limit w) in Ht.
  rewrite Es in *. simpl in Ht |- *.
  rewrite Hfirst. split.
  - intros (Hsome & _ & Hreq). split; [exact Hreq|].
    destruct (trace_final_profile self _ _ _ _ Ht Hl) as [Heq|(s_e & Hin & Hn & He)].
    + exfalso. apply Hsome. rewrite Hp, Heq. simpl. exact Hreq.
    + destruct (resp_user_profile resp) as [p|] eqn:Er; [|done].
      exists s_e, p. split; [exact Hin|]. split; [exact Hn|].
      rewrite <- Hp in He.
      destruct (u_user_profile (step_update s_e)) as [[q|]|]; simpl in He;
        congruence.
  - intros (Hreq & s_e & p & Hin & Hn & Hu).
    apply list_elem_of_split in Hin as (l1 & l2 & ->).
    pose proof (trace_suffix self _ _ _ _ _ Ht) as Hsuf. rewrite Hn in Hsuf.
    pose proof (trace_after_extraction self _ _ _ Hsuf) as Hq.
    rewrite Hu in Hq. simpl in Hq.
    assert (Hin2 : s_f ∈ l2).
    { rewrite last_app, last_cons in Hl.
      destruct (last l2) as [x|] eqn:El.
      - injection Hl as <-. by apply last_Some_elem_of.
      - injection Hl as <-.
        destruct (follow_edge_END self _ _ Hend); congruence. }
    rewrite Forall_forall in Hq. destruct (Hq _ Hin2) as (_ & Hphase & Hprof).
    rewrite Hp, Hph, Hphase, Hprof. by repeat split.
Qed.
End ChatTheorems.

Definition dana_response : ChatResponse :=
  {| resp_message := "Welcome, Dana"; resp_user_profile := Some dana;
     resp_phase := "qa"; resp_requires_confirmation := true |}.

Definition dana_script : list AIMessageData :=
  [tool_call_only "extract_user_info"; final_text "Welcome, Dana"].

Lemma dana_chat :
  chat (stub_workflow (json_text dana_fields) true) dana_request dana_script
  = (Ok dana_response, []).
Proof. vm_compute. reflexivity. Qed.

Lemma requires_confirmation_witness :
  resp_requires_confirmation dana_response = true
  <-> resp_user_profile dana_response <> None /\ resp_phase dana_response = "qa"
      /\ req_user_profile dana_request = None.
Proof.
  exact (proj1 (requires_confirmation_exactly_when_extracted
                  (stub_workflow (json_text dana_fields) true) dana_request
                  dana_script [] dana_response dana_chat)).
Defined.

(** Scenario B of the design: a question in the [qa] phase answered after
    one search. *)
Definition dental_request : ChatRequest :=
  {| req_message := "What does my plan cover for dental?";
     req_user_profile := Some dana;
     req_conversation_history := [];
     req_phase := "qa";
     req_debug := false |}.

Definition dental_script : list AIMessageData :=
  [tool_call_only "search_info"; final_text "Dental care is covered"].

Definition dental_response : ChatResponse :=
  {| resp_message := "Dental care is covered"; resp_user_profile := Some dana;
     resp_phase := "qa"; resp_requires_confirmation := false |}.

Lemma dental_chat :
  chat (stub_workflow (json_text dana_fields) true) dental_request dental_script
  = (Ok dental_response, []).
Proof. vm_compute. reflexivity. Qed.

Lemma responder_never_changes_profile_witness :
  resp_user_profile dental_response = req_user_profile dental_request
  /\ resp_phase dental_response = "qa".
Proof.
  exact (proj2 (proj2 (proj2 (responder_never_changes_profile
                                (stub_workflow (json_text dana_fields) true))))
           dental_request dental_script dental_response [] eq_refl dental_chat).
Defined.

(** ** Phase monotonicity within a run *)

Section PhaseInRun.
Context {W : Type} (self : Workflow W).

Lemma trace_rest n st s rest :
  trace self n st (s :: rest) ->
  rest = [] \/ exists n', trace self n' (step_post s) rest.
Proof.
  destruct rest as [|s' rest]; [by left|].
  intros H. right. exists (step_node s'). by apply (trace_tail self _ _ _ _ _ H).
Qed.

Lemma trace_phase_qa n st steps :
  trace self n st steps ->
  dict_get (ws_phase st) = Some "qa" ->
  Forall (fun s => dict_get (ws_phase (step_state s)) = Some "qa"
                   /\ dict_get (ws_phase (step_post s)) = Some "qa") steps.
Proof.
  intros Ht Hq.
  pose proof (trace_invariant self (fun _ st => dict_get (ws_phase st) = Some "qa")
                (fun n st u n' H Hs _ => shape_phase_qa_stays self n st u Hs H)
                _ _ _ Ht Hq) as Hinv.
  pose proof (trace_shapes self _ _ _ Ht) as Hsh.
  rewrite Forall_forall in *. intros s Hin. split; [by apply Hinv|].
  apply (shape_phase_qa_stays self (step_node s)); auto.
Qed.

(** Once a step has left the phase at [qa], it stays there for the rest
    of the run. *)
Lemma trace_phase_never_reverts n st l1 s l2 :
  trace self n st (l1 ++ s :: l2) ->
  dict_get (ws_phase (step_post s)) = Some "qa" ->
  Forall (fun s' => dict_get (ws_phase (step_state s')) = Some "qa"
                    /\ dict_get (ws_phase (step_post s')) = Some "qa") l2.
Proof.
  intros Ht Hq. apply trace_suffix in Ht.
  destruct (trace_rest _ _ _ _ Ht) as [->|[n' Ht']]; [constructor|].
  by eapply trace_phase_qa.
Qed.

(** A run in the [qa] phase that ends normally reports the phase [qa]. *)
Lemma stream_qa_reports_qa input w steps w' s_f :
  dict_get (u_phase input) = Some "qa" ->
  stream self input recursion_limit w = ((steps, None), w') ->
  last steps = Some s_f ->
  (extract_response_from_workflow_result (chunk_of s_f)).2 = "qa"
  /\ (extract_response_from_workflow_result (chunk_of s_f)).1.2
     = dict_get (u_user_profile input).
Proof.
  intros Hq Es Hl.
  destruct (pregel_loop_finished self _ _ _ _ _ _ Es) as (s & Hl' & Hend).
  rewrite Hl in Hl'. injection Hl' as <-.
  pose proof (stream_in_qa self input recursion_limit w Hq) as Hall.
  pose proof (trace_shapes self _ _ _
                (pregel_loop_trace self recursion_limit EntryPoint
                   (apply_update empty_state input) w)) as Hsh.
  change (pregel_loop self recursion_limit EntryPoint _ w)
    with (stream self input recursion_limit w) in Hsh.
  rewrite Es in Hall, Hsh. simpl in Hall, Hsh.
  rewrite Forall_forall in Hall, Hsh.
  pose proof (last_Some_elem_of _ _ Hl) as Hin.
  destruct (Hall _ Hin) as (_ & Hph & Hpr).
  destruct (extract_from_agent self _ _ _ (follow_edge_END self _ _ Hend) (Hsh _ Hin))
    as [Hp Hphase].
  unfold chunk_of. rewrite Hp, Hphase, Hph, Hpr. by split.
Qed.
End PhaseInRun.

(** ** Phase monotonicity of stored sessions *)

(** Every session is stored under its own identifier. *)
Definition store_wf (store : SessionStore) : Prop :=
  forall k s, sessions store !! k = Some s -> session_id s = k.

(** The session [sid], if stored, is in the [qa] phase. *)
Definition qa_locked (sid : string) (store : SessionStore) : Prop :=
  store_wf store
  /\ forall s, sessions store !! sid = Some s -> current_phase s = "qa".

(** The same, for a local variable that may refer to that session. *)
Definition qa_local (sid : string) (session : ChatSession) : Prop :=
  session_id session = sid -> current_phase session = "qa".

Section StoreFacts.
Context (sid : string).

Lemma qa_locked_delete k store :
  qa_locked sid store -> qa_locked sid (set_sessions store (delete k (sessions store))).
Proof.
  intros [Hwf Hq]. split.
  - intros k' s. simpl. rewrite lookup_delete_Some. intros [_ H]. by apply Hwf.
  - intros s. simpl. rewrite lookup_delete_Some. intros [_ H]. by apply Hq.
Qed.

Lemma qa_locked_insert k s' store :
  qa_locked sid store ->
  session_id s' = k -> (k = sid -> current_phase s' = "qa") ->
  qa_locked sid (set_sessions store (<[k := s']> (sessions store))).
Proof.
  intros [Hwf Hq] Hid Hph. split.
  - intros k' s. simpl. rewrite lookup_insert_Some.
    intros [[<- <-]|[_ H]]; [exact Hid | by apply Hwf].
  - intros s. simpl. rewrite lookup_insert_Some.
    intros [[-> <-]|[_ H]]; [by apply Hph | by apply Hq].
Qed.

Lemma qa_locked_lookup k s store :
  qa_locked sid store -> sessions store !! k = Some s ->
  session_id s = k /\ qa_local sid s.
Proof.
  intros [Hwf Hq] Hs. split; [by apply Hwf|].
  intros Hid. apply Hq. by rewrite <- Hid, (Hwf _ _ Hs).
Qed.

Lemma get_session_locked now k store :
  qa_locked sid store ->
  qa_locked sid (get_session now k store).2
  /\ forall s, (get_session now k store).1 = Some s ->
               session_id s = k /\ qa_local sid s.
Proof.
  intros Hinv. unfold get_session.
  destruct (sessions store !! k) as [s|] eqn:Es; [|by split].
  destruct (bool_decide _); simpl.
  - split; [by apply qa_locked_delete | done].
  - split; [exact Hinv|]. intros s' [= <-]. by eapply qa_locked_lookup.
Qed.

Lemma add_message_to_session_locked now k message store :
  qa_locked sid store -> qa_locked sid (add_message_to_session now k message store).2.
Proof.
  intros Hinv. unfold add_message_to_session.
  destruct (sessions store !! k) as [s|] eqn:Es; [|exact Hinv].
  destruct (qa_locked_lookup _ _ _ Hinv Es) as [Hid Hl].
  apply qa_locked_insert; simpl; auto. intros ->. by apply Hl.
Qed.

Lemma update_session_profile_locked now k profile store :
  qa_locked sid store -> qa_locked sid (update_session_profile now k profile store).2.
Proof.
  intros Hinv. unfold update_session_profile.
  destruct (sessions store !! k) as [s|] eqn:Es; [|exact Hinv].
  destruct (qa_locked_lookup _ _ _ Hinv Es) as [Hid Hl].
  apply qa_locked_insert; simpl; auto. intros ->. by apply Hl.
Qed.

Lemma update_session_phase_locked now k phase store :
  qa_locked sid store -> (k = sid -> phase = "qa") ->
  qa_locked sid (update_session_phase now k phase store).2.
Proof.
  intros Hinv Hph. unfold update_session_phase.
  destruct (sessions store !! k) as [s|] eqn:Es; [|exact Hinv].
  destruct (qa_locked_lookup _ _ _ Hinv Es) as [Hid Hl].
  apply qa_locked_insert; simpl; auto.
Qed.

Lemma get_langchain_messages_locked now k store :
  qa_locked sid store -> qa_locked sid (get_langchain_messages now k store).2.
Proof.
  intros Hinv. unfold get_langchain_messages.
  pose proof (proj1 (get_session_locked now k store Hinv)) as H.
  by destruct (get_session now k store) as [[s|] store'].
Qed.

Lemma create_session_locked session store :
  qa_locked sid store -> session_id session <> sid ->
  qa_locked sid (create_session session store).2.
Proof.
  intros Hinv Hne. unfold create_session; simpl.
  by apply qa_locked_insert.
Qed.

Lemma deref_local store session :
  qa_locked sid store -> qa_local sid session ->
  qa_local sid (deref store session)
  /\ session_id (deref store session) = session_id session.
Proof.
  intros Hinv Hl. unfold deref.
  destruct (sessions store !! session_id session) as [s|] eqn:Es; simpl; [|by split].
  destruct (qa_locked_lookup _ _ _ Hinv Es) as [Hid Hl']. by split.
Qed.
End StoreFacts.

(** ** A Hoare rule set for the stateful endpoint

    [hoare sid m Q]: started in a store where the session [sid] is locked
    in the [qa] phase, the computation [m] ends (normally or with an
    exception) in such a store again, and a value it returns satisfies [Q]. *)
Definition hoare {W T} (sid : string) (m : M (W * SessionStore) T) (Q : T -> Prop) : Prop :=
  forall w store,
    qa_locked sid store ->
    qa_locked sid (m (w, store)).2.2
    /\ forall a, (m (w, store)).1 = Ok a -> Q a.

Section HoareRules.
Context {W : Type} (self : Workflow W) (sys : System W) (sid : string).

Lemma hoare_ret {T} (a : T) (Q : T -> Prop) : Q a -> hoare (W := W) sid (ret a) Q.
Proof. intros HQ w store Hinv. split; [exact Hinv|]. by intros a' [= <-]. Qed.

Lemma hoare_raise {T} e (Q : T -> Prop) : hoare (W := W) sid (raise e) Q.
Proof. intros w store Hinv. split; [exact Hinv|]. discriminate. Qed.

Lemma hoare_bind {A B} (m : M (W * SessionStore) A) (k : A -> M (W * SessionStore) B)
    (Q1 : A -> Prop) (Q2 : B -> Prop) :
  hoare sid m Q1 -> (forall a, Q1 a -> hoare sid (k a) Q2) -> hoare sid (bind m k) Q2.
Proof.
  intros Hm Hk w store Hinv. unfold bind.
  destruct (Hm w store Hinv) as [Hinv1 HQ1].
  destruct (m (w, store)) as [[a|e] [w1 store1]]; simpl in *.
  - by apply Hk; [apply HQ1|].
  - split; [exact Hinv1|]. discriminate.
Qed.

Lemma hoare_weaken {T} (m : M (W * SessionStore) T) (Q Q' : T -> Prop) :
  hoare sid m Q -> (forall a, Q a -> Q' a) -> hoare sid m Q'.
Proof.
  intros Hm Himp w store Hinv. destruct (Hm w store Hinv) as [H1 H2].
  split; [exact H1|]. intros a Ha. by apply Himp, H2.
Qed.

Lemma hoare_now : hoare sid (now_ sys) (fun _ => True).
Proof.
  intros w store Hinv. unfold now_.
  by destruct (datetime_now sys w) as [t w1].
Qed.

Lemma hoare_on_store {T} (method : SessionStore -> T * SessionStore) (Q : T -> Prop) :
  (forall store, qa_locked sid store ->
                 qa_locked sid (method store).2 /\ Q (method store).1) ->
  hoare (W := W) sid (on_store method) Q.
Proof.
  intros Hm w store Hinv. unfold on_store.
  destruct (Hm store Hinv) as [H1 H2].
  destruct (method store) as [r store1]; simpl in *.
  split; [exact H1|]. by intros a [= <-].
Qed.

Lemma hoare_sync session :
  qa_local sid session ->
  hoare (W := W) sid (sync session)
    (fun s => qa_local sid s /\ session_id s = session_id session).
Proof.
  intros Hl w store Hinv. unfold sync; simpl.
  split; [exact Hinv|]. intros a [= <-]. by apply deref_local.
Qed.

Lemma hoare_run_workflow input :
  hoare sid (run_workflow self input)
    (fun r => exists w w', stream self input recursion_limit w = (r, w')).
Proof.
  intros w store Hinv. unfold run_workflow.
  destruct (stream self input recursion_limit w) as [r w1] eqn:Es; simpl.
  split; [exact Hinv|]. intros a [= <-]. by exists w, w1.
Qed.

Lemma hoare_mk_ChatMessage role content :
  hoare sid (mk_ChatMessage sys role content) (fun _ => True).
Proof.
  unfold mk_ChatMessage. eapply hoare_bind; [apply hoare_now|].
  intros t _. by apply hoare_ret.
Qed.

Lemma hoare_store_get_session k :
  hoare sid (store_get_session sys k)
    (fun found => forall s, found = Some s -> session_id s = k /\ qa_local sid s).
Proof.
  unfold store_get_session. eapply hoare_bind; [apply hoare_now|].
  intros t _. apply hoare_on_store. intros store Hinv.
  by apply get_session_locked.
Qed.

Lemma hoare_store_add_message k message :
  hoare sid (store_add_message sys k message) (fun _ => True).
Proof.
  unfold store_add_message. eapply hoare_bind; [apply hoare_now|].
  intros t _. apply hoare_on_store. intros store Hinv.
  split; [by apply add_message_to_session_locked | done].
Qed.

(** The identifier generator never hands out [sid] again. *)
Definition never_reissued : Prop := forall w, (uuid4 sys w).1 <> sid.

Lemma hoare_store_create_session :
  never_reissued ->
  hoare sid (store_create_session sys) (fun s => qa_local sid s).
Proof.
  intros Hfresh w store Hinv. unfold store_create_session, bind, fresh_uuid, now_, on_store.
  specialize (Hfresh w).
  destruct (uuid4 sys w) as [u w1]; simpl in *.
  destruct (datetime_now sys w1) as [t1 w2].
  destruct (datetime_now sys w2) as [t2 w3]; simpl.
  split.
  - by apply create_session_locked.
  - intros a [= <-]. intros Hid. by destruct Hfresh.
Qed.

Lemma hoare_get_or_create request :
  never_reissued ->
  hoare sid (get_or_create sys request) (fun s => qa_local sid s).
Proof.
  intros Hfresh. unfold get_or_create.
  destruct (str_truthy (sreq_session_id request)).
  - eapply hoare_bind; [apply hoare_store_get_session|].
    intros [s|] Hs; [|apply hoare_raise].
    apply hoare_ret. by apply (Hs s).
  - eapply hoare_bind; [by apply hoare_store_create_session|].
    intros session Hl.
    eapply hoare_bind; [apply hoare_mk_ChatMessage|]. intros m _.
    eapply hoare_bind; [apply hoare_store_add_message|]. intros b _.
    eapply hoare_weaken; [by apply hoare_sync|]. by intros a [H _].
Qed.
End HoareRules.

Section StatefulFacts.
Context {W : Type} (self : Workflow W) (sys : System W) (sid : string).

Lemma hoare_stateful_chat_body request :
  never_reissued sys sid ->
  hoare sid (stateful_chat_body self sys request) (fun _ => True).
Proof.
  intros Hfresh. unfold stateful_chat_body.
  destruct (strip_is_empty (sreq_message request)); [apply hoare_raise|].
  eapply hoare_bind; [by apply hoare_get_or_create|]. intros session0 Hl0.
  eapply hoare_bind; [apply hoare_mk_ChatMessage|]. intros user_message _.
  eapply hoare_bind; [apply hoare_store_add_message|]. intros b0 _.
  eapply hoare_bind; [by apply hoare_sync|]. intros session1 [Hl1 Hid1].
  eapply hoare_bind.
  { eapply hoare_bind; [apply hoare_now|]. intros t _.
    apply (hoare_on_store sid _ (fun _ => True)). intros store Hinv.
    split; [by apply get_langchain_messages_locked | done]. }
  intros langchain_messages _.
  eapply hoare_bind; [apply hoare_run_workflow|].
  intros [steps [e|]] (w0 & w1 & Es); [apply hoare_raise|].
  destruct (last steps) as [s_f|] eqn:Hlast; [|apply hoare_raise].
  assert (Hqa : session_id session0 = sid ->
                (extract_response_from_workflow_result (chunk_of s_f)).2 = "qa").
  { intros Hid. rewrite <- Hid1 in Hid. specialize (Hl1 Hid).
    refine (proj1 (stream_qa_reports_qa self _ _ _ _ _ _ Es Hlast)).
    simpl. by rewrite Hl1. }
  destruct (extract_response_from_workflow_result (chunk_of s_f))
    as [[response_message updated_user_profile] workflow_phase].
  simpl in Hqa.
  eapply hoare_bind with (Q1 := fun _ => True).
  { destruct updated_user_profile as [profile|]; [|by apply hoare_ret].
    destruct (bool_decide _); [|by apply hoare_ret].
    eapply hoare_bind; [apply hoare_now|]. intros t _.
    apply hoare_on_store. intros store Hinv.
    split; [by apply update_session_profile_locked | done]. }
  intros b1 _.
  eapply hoare_bind; [by apply hoare_sync|]. intros session2 [Hl2 Hid2].
  eapply hoare_bind with (Q1 := fun _ => True).
  { destruct (_ && _); [|by apply hoare_ret].
    eapply hoare_bind; [apply hoare_now|]. intros t _.
    apply hoare_on_store. intros store Hinv.
    split; [by apply update_session_phase_locked | done]. }
  intros b2 _.
  eapply hoare_bind; [by apply hoare_sync|]. intros session3 [Hl3 Hid3].
  eapply hoare_bind; [apply hoare_mk_ChatMessage|]. intros assistant_message _.
  eapply hoare_bind; [apply hoare_store_add_message|]. intros b3 _.
  eapply hoare_bind; [by apply hoare_sync|]. intros session4 [Hl4 Hid4].
  eapply hoare_bind; [apply hoare_store_get_session|]. intros updated_session _.
  by apply hoare_ret.
Qed.

(** A turn of the stateful endpoint, whatever its outcome, leaves a
    session that is in the [qa] phase in the [qa] phase. *)
Lemma stateful_chat_keeps_qa request w store :
  never_reissued sys sid ->
  qa_locked sid store ->
  qa_locked sid (stateful_chat self sys request (w, store)).2.2.
Proof.
  intros Hfresh Hinv. unfold stateful_chat.
  pose proof (proj1 (hoare_stateful_chat_body request Hfresh w store Hinv)) as H.
  by destruct (stateful_chat_body self sys request (w, store)) as [[r|e] [w1 store1]].
Qed.
End StatefulFacts.

(** ** Phase monotonicity *)

(** The reading under which the phase advances only through a
    successful extraction: whenever a node moves the phase to [qa], that
    node is the extraction handler and the state after it holds a profile. *)
Definition phase_advances_only_on_successful_extraction : Prop :=
  forall (W : Type) (self : Workflow W) n st w u w',
    node_fn self n st w = (Ok u, w') ->
    dict_get (ws_phase st) <> Some "qa" ->
    dict_get (ws_phase (apply_update st u)) = Some "qa" ->
    n = HandleExtractionTool
    /\ dict_get (ws_user_profile (apply_update st u)) <> None.

Definition collecting_state : WorkflowState :=
  {| ws_messages := [user_says "Hi, I'm Dana Cohen";
                     AIMessage (tool_call_only "extract_user_info")];
     ws_user_profile := Some None;
     ws_phase := Some (Some "collection") |}.

Definition partial_update : Update :=
  {| u_messages := [ToolMessage (Text (json_text partial_fields)) "call_1" None];
     u_user_profile := Some None;
     u_phase := Some (Some "qa") |}.

Lemma partial_extraction_run :
  node_fn (stub_workflow (json_text partial_fields) true) HandleExtractionTool
    collecting_state [] = (Ok partial_update, []).
Proof.
  change (handle_extraction_tool (stub_workflow (json_text partial_fields) true)
            collecting_state [] = (Ok partial_update, [])).
  rewrite (handle_extraction_tool_ok (stub_workflow (json_text partial_fields) true)
             collecting_state []
             [ToolMessage (Text (json_text partial_fields)) "call_1" None] []
             eq_refl).
  by rewrite parse_partial_fields.
Qed.

(** With five of the seven fields in the tool result the handler moves
    the phase from [collection] to [qa] and leaves the profile at [None]. *)
Lemma phase_advances_without_profile :
  ~ phase_advances_only_on_successful_extraction.
Proof.
  intros H.
  destruct (H _ _ _ _ _ _ _ partial_extraction_run) as [_ Hprofile].
  - discriminate.
  - reflexivity.
  - by apply Hprofile.
Qed.

(** C1, amended. The phase is monotonic.  A node leaves the phase as it
    found it, except the extraction handler, which sets it to [qa] whether
    or not a profile could be parsed; the extraction handler runs at most
    once in a run; once a step has left the phase at [qa], every later step
    of the run reads and leaves [qa]; a [chat] turn entered in [qa] returns
    [qa]; a new session starts in [collection]; and a turn of the stateful
    endpoint leaves every stored session that is in [qa] in [qa]. *)
Theorem phase_monotonic {W} (self : Workflow W) (sys : System W) :
  (forall n st w u w',
      node_fn self n st w = (Ok u, w') ->
      dict_get (ws_phase (apply_update st u)) = dict_get (ws_phase st)
      \/ (n = HandleExtractionTool
          /\ dict_get (ws_phase (apply_update st u)) = Some "qa"))
  /\ (forall st w u w',
      handle_extraction_tool self st w = (Ok u, w') -> u_phase u = Some (Some "qa"))
  /\ (forall input budget w,
      length (filter (fun s => step_node s = HandleExtractionTool)
                (stream self input budget w).1.1) <= 1)
  /\ (forall input budget w l1 s l2,
      (stream self input budget w).1.1 = l1 ++ s :: l2 ->
      dict_get (ws_phase (step_post s)) = Some "qa" ->
      Forall (fun s' => dict_get (ws_phase (step_state s')) = Some "qa"
                        /\ dict_get (ws_phase (step_post s')) = Some "qa") l2)
  /\ (forall request w resp w',
      req_phase request = "qa" ->
      chat self request w = (Ok resp, w') -> resp_phase resp = "qa")
  /\ (forall uuid t_created t_activity,
      current_phase (new_ChatSession uuid t_created t_activity) = "collection")
  /\ (forall sid request w store,
      never_reissued sys sid ->
      qa_locked sid store ->
      qa_locked sid (stateful_chat self sys request (w, store)).2.2).
Proof.
  split; [|split; [|split; [|split; [|split; [|split]]]]].
  - intros n st w u w' H. by eapply shape_phase, node_fn_shape.
  - intros st w u w' H.
    by destruct (node_fn_shape self HandleExtractionTool _ _ _ _ H) as [tms ->].
  - intros input budget w. eapply trace_extraction_once, pregel_loop_trace.
  - intros input budget w l1 s l2 Hsplit Hq.
    eapply trace_phase_never_reverts; [|exact Hq].
    rewrite <- Hsplit. apply pregel_loop_trace.
  - intros request w resp w' Hq Hok.
    by destruct (chat_in_qa_phase self _ _ _ _ Hq Hok).
  - reflexivity.
  - intros sid request w store. apply stateful_chat_keeps_qa.
Qed.

Definition qa_session : ChatSession :=
  {| session_id := "s1"; conversation_history := []; cs_user_profile := Some dana;
     current_phase := "qa"; created_at := 0; last_activity := 0 |}.

Definition dental_stateful_request : StatefulChatRequest :=
  {| sreq_message := "What does my plan cover for dental?";
     sreq_session_id := Some "s1";
     sreq_debug := false |}.

Lemma qa_session_locked : qa_locked "s1" (create_session qa_session session_store).2.
Proof.
  apply qa_locked_insert; [|done..].
  split.
  - intros k s. unfold session_store, SessionStore_init; simpl.
    by rewrite lookup_empty.
  - intros s. unfold session_store, SessionStore_init; simpl.
    by rewrite lookup_empty.
Qed.

Lemma phase_monotonic_witness :
  resp_phase dental_response = "qa"
  /\ qa_locked "s1"
       (stateful_chat (stub_workflow (json_text dana_fields) true) stub_system
          dental_stateful_request
          (dental_script, (create_session qa_session session_store).2)).2.2.
Proof.
  pose proof (phase_monotonic (stub_workflow (json_text dana_fields) true) stub_system)
    as (_ & _ & _ & _ & Hchat & _ & Hstateful).
  split.
  - exact (Hchat dental_request dental_script dental_response [] eq_refl dental_chat).
  - apply Hstateful; [|exact qa_session_locked].
    intros w. discriminate.
Defined.

(** The stored session of the scenario above after its turn. *)
Example stateful_turn_in_qa :
  current_phase <$>
    (sessions
       (stateful_chat (stub_workflow (json_text dana_fields) true) stub_system
          dental_stateful_request
          (dental_script, (create_session qa_session session_store).2)).2.2
     !! "s1")
  = Some "qa".
Proof. vm_compute. reflexivity. Qed.

(** * Further properties of the surrounding code *)

(** ** The session store as a whole *)

Lemma store_wf_insert k s store :
  store_wf store -> session_id s = k ->
  store_wf (set_sessions store (<[k := s]> (sessions store))).
Proof.
  intros Hwf Hid k' s'. simpl. rewrite lookup_insert_Some.
  intros [[<- <-]|[_ H]]; [exact Hid | by apply Hwf].
Qed.

Lemma store_wf_delete k store :
  store_wf store -> store_wf (set_sessions store (delete k (sessions store))).
Proof.
  intros Hwf k' s'. simpl. rewrite lookup_delete_Some. intros [_ H]. by apply Hwf.
Qed.

Lemma store_wf_get_session now sid store :
  store_wf store -> store_wf (get_session now sid store).2.
Proof.
  intros Hwf. unfold get_session.
  destruct (sessions store !! sid); [|exact Hwf].
  destruct (bool_decide _); [by apply store_wf_delete | exact Hwf].
Qed.

(** X1. Every method of the store keeps each session filed under its own
    identifier. *)
Theorem store_methods_keep_sessions_under_their_id (store : SessionStore)
    (Hwf : store_wf store) :
  (forall session, store_wf (create_session session store).2)
  /\ (forall now sid, store_wf (get_session now sid store).2)
  /\ (forall now sid, store_wf (update_session_activity now sid store).2)
  /\ (forall now sid message, store_wf (add_message_to_session now sid message store).2)
  /\ (forall now sid profile, store_wf (update_session_profile now sid profile store).2)
  /\ (forall now sid phase, store_wf (update_session_phase now sid phase store).2)
  /\ (forall now sid, store_wf (get_langchain_messages now sid store).2)
  /\ (forall sid, store_wf (delete_session sid store).2)
  /\ (forall now, store_wf (cleanup_expired_sessions now store).2).
Proof.
  repeat split.
  - intros session. by apply store_wf_insert.
  - intros now sid. by apply store_wf_get_session.
  - intros now sid. unfold update_session_activity.
    destruct (sessions store !! sid) as [s|] eqn:Es; [|exact Hwf].
    apply store_wf_insert; [exact Hwf | simpl; by apply Hwf].
  - intros now sid message. unfold add_message_to_session.
    destruct (sessions store !! sid) as [s|] eqn:Es; [|exact Hwf].
    apply store_wf_insert; [exact Hwf | simpl; by apply Hwf].
  - intros now sid profile. unfold update_session_profile.
    destruct (sessions store !! sid) as [s|] eqn:Es; [|exact Hwf].
    apply store_wf_insert; [exact Hwf | simpl; by apply Hwf].
  - intros now sid phase. unfold update_session_phase.
    destruct (sessions store !! sid) as [s|] eqn:Es; [|exact Hwf].
    apply store_wf_insert; [exact Hwf | simpl; by apply Hwf].
  - intros now sid. unfold get_langchain_messages.
    pose proof (store_wf_get_session now sid store Hwf) as H.
    by destruct (get_session now sid store) as [[s|] store'].
  - intros sid. unfold delete_session.
    destruct (sessions store !! sid); [by apply store_wf_delete | exact Hwf].
  - intros now k s. simpl. rewrite map_lookup_filter_Some. intros [H _]. by apply Hwf.
Qed.

Lemma session_store_wf : store_wf session_store.
Proof. intros k s. unfold session_store, SessionStore_init; simpl. by rewrite lookup_empty. Qed.

Lemma store_methods_keep_wf_witness :
  store_wf (create_session stale_session session_store).2.
Proof.
  exact (proj1 (store_methods_keep_sessions_under_their_id session_store session_store_wf)
           stale_session).
Defined.

(** X2. A session that has just been created is returned by [get_session]
    as long as its last activity is not older than the timeout: with an
    empty history, no profile and the phase [collection]; the call leaves
    the store as it is, and creation does not touch any other session. *)
Theorem create_session_then_get (store : SessionStore) (uuid : string)
    (t_created t_activity now : Z)
    (Hlive : (now - t_activity <= session_timeout store)%Z) :
  let session := new_ChatSession uuid t_created t_activity in
  let store' := (create_session session store).2 in
  (create_session session store).1 = session
  /\ get_session now uuid store' = (Some session, store')
  /\ conversation_history session = []
  /\ cs_user_profile session = None
  /\ current_phase session = "collection"
  /\ (forall sid, sid <> uuid -> sessions store' !! sid = sessions store !! sid).
Proof.
  intros session store'. split; [reflexivity|]. split.
  - apply get_session_live.
    + simpl. apply lookup_insert_eq.
    + simpl. lia.
  - repeat split. intros sid Hne. simpl. by rewrite lookup_insert_ne.
Qed.

Lemma create_session_then_get_witness :
  (get_session 1000 "s1" (create_session (new_ChatSession "s1" 0 0) session_store).2).1
  = Some (new_ChatSession "s1" 0 0).
Proof.
  assert (Hlive : (1000 - 0 <= session_timeout session_store)%Z)
    by (vm_compute; discriminate).
  exact (f_equal fst
           (proj1 (proj2 (create_session_then_get session_store "s1" 0 0 1000 Hlive)))).
Defined.

(** X3. [delete_session] reports whether the identifier was stored;
    afterwards the session cannot be found at any time, a second deletion
    reports [False] and changes nothing, and the other sessions are as they
    were. *)
Theorem delete_session_removes_exactly_one (sid : string) (store : SessionStore) :
  ((delete_session sid store).1 = true <-> is_Some (sessions store !! sid))
  /\ (forall now, get_session now sid (delete_session sid store).2
                  = (None, (delete_session sid store).2))
  /\ delete_session sid (delete_session sid store).2 = (false, (delete_session sid store).2)
  /\ (forall k, k <> sid ->
        sessions (delete_session sid store).2 !! k = sessions store !! k).
Proof.
  unfold delete_session.
  destruct (sessions store !! sid) as [s|] eqn:Es; simpl.
  - split; [split; [by eexists | done]|].
    assert (Hgone : sessions (set_sessions store (delete sid (sessions store))) !! sid = None)
      by (simpl; apply lookup_delete_eq).
    split; [intros now; by apply get_session_unknown|].
    split; [simpl; by rewrite lookup_delete_eq|].
    intros k Hne. by apply lookup_delete_ne.
  - split; [split; [discriminate | by intros [? [=]]]|].
    split; [intros now; by apply get_session_unknown|].
    split; [by rewrite Es | done].
Qed.

Lemma filter_live_lookup now timeout (m : gmap string ChatSession) sid :
  filter (fun kv => expired now timeout kv.2 = false) m !! sid =
  match m !! sid with
  | Some s => if expired now timeout s then None else Some s
  | None => None
  end.
Proof.
  apply option_eq. intros x. rewrite map_lookup_filter_Some. simpl.
  destruct (m !! sid) as [s|]; [|split; [by intros [? _] | done]].
  destruct (expired now timeout s) eqn:E.
  - split; [intros [[= <-] H]; congruence | discriminate].
  - split; [by intros [H _] | intros [= <-]; by split].
Qed.

(** X4. [cleanup_expired_sessions] removes exactly the sessions whose last
    activity is older than the timeout and returns how many there were: the
    sizes add up, a second sweep at the same time finds nothing, and at that
    time [get_session] answers the same for every identifier whether or not
    the sweep has run. *)
Theorem cleanup_removes_exactly_the_expired (now : Z) (store : SessionStore) :
  let swept := (cleanup_expired_sessions now store).2 in
  (forall sid,
      sessions swept !! sid =
      match sessions store !! sid with
      | Some s => if expired now (session_timeout store) s then None else Some s
      | None => None
      end)
  /\ (cleanup_expired_sessions now store).1 + size (sessions swept)
     = size (sessions store)
  /\ session_timeout swept = session_timeout store
  /\ (cleanup_expired_sessions now swept).1 = 0
  /\ sessions (cleanup_expired_sessions now swept).2 = sessions swept
  /\ (forall sid, (get_session now sid swept).1 = (get_session now sid store).1).
Proof.
  intros swept.
  assert (Hlook : forall sid,
             sessions swept !! sid =
             match sessions store !! sid with
             | Some s => if expired now (session_timeout store) s then None else Some s
             | None => None
             end).
  { intros sid. apply filter_live_lookup. }
  split; [exact Hlook|]. split.
  { simpl.
    rewrite <- (map_filter_union_complement
                  (fun kv => expired now (session_timeout store) kv.2 = true)
                  (sessions store)) at 3.
    rewrite map_size_disj_union by apply map_disjoint_filter_complement.
    f_equal. f_equal. apply map_filter_ext. intros i x _. simpl.
    by destruct (expired now (session_timeout store) x). }
  split; [reflexivity|].
  assert (Hnone : filter (fun kv => expired now (session_timeout swept) kv.2 = true)
                    (sessions swept) = ∅).
  { apply map_eq. intros sid. rewrite lookup_empty.
    apply map_lookup_filter_None. right. intros x. rewrite Hlook. simpl.
    destruct (sessions store !! sid) as [s|]; [|done].
    destruct (expired now (session_timeout store) s) eqn:E; [done|].
    intros [= <-]. congruence. }
  split; [simpl in *; by rewrite Hnone|].
  split.
  { apply map_eq. intros sid.
    change (sessions (cleanup_expired_sessions now swept).2)
      with (filter (fun kv => expired now (session_timeout swept) kv.2 = false)
              (sessions swept)).
    rewrite filter_live_lookup, Hlook.
    change (session_timeout swept) with (session_timeout store).
    destruct (sessions store !! sid) as [s|]; [|done].
    by destruct (expired now (session_timeout store) s) eqn:E; [|rewrite E]. }
  intros sid. unfold get_session. rewrite Hlook.
  destruct (sessions store !! sid) as [s|]; [|done].
  unfold expired.
  destruct (bool_decide (now - last_activity s > session_timeout store)%Z) eqn:E;
    [done|].
  change (session_timeout swept) with (session_timeout store). by rewrite E.
Qed.

(** The record a mutator stores for a session: the given fields replaced,
    the last activity set to the time of the call. *)
Definition mutated (s : ChatSession) (history : list ChatMessage)
    (profile : option UserProfile) (phase : string) (now : Z) : ChatSession :=
  {| session_id := session_id s; conversation_history := history;
     cs_user_profile := profile; current_phase := phase;
     created_at := created_at s; last_activity := now |}.

(** X5. The four mutators of the store act on the named session only.  For
    a stored identifier each returns [True] and replaces the session by a
    copy in which exactly its own field has changed (the message appended at
    the end of the history, the profile, the phase, or nothing) and the
    last activity is the time of the call; for an identifier that is not
    stored each returns [False] and leaves the store as it is.  None of them
    looks at the session's age. *)
Theorem mutators_change_one_session (now : Z) (sid : string) (store : SessionStore) :
  (forall s, sessions store !! sid = Some s ->
     let stored s' := set_sessions store (<[sid := s']> (sessions store)) in
     (forall message,
         add_message_to_session now sid message store
         = (true, stored (mutated s (conversation_history s ++ [message])
                            (cs_user_profile s) (current_phase s) now)))
     /\ (forall profile,
         update_session_profile now sid profile store
         = (true, stored (mutated s (conversation_history s) (Some profile)
                            (current_phase s) now)))
     /\ (forall phase,
         update_session_phase now sid phase store
         = (true, stored (mutated s (conversation_history s) (cs_user_profile s)
                            phase now)))
     /\ update_session_activity now sid store
        = (true, stored (mutated s (conversation_history s) (cs_user_profile s)
                           (current_phase s) now))
     /\ (forall s' k, k <> sid -> sessions (stored s') !! k = sessions store !! k)
     /\ (forall s', sessions (stored s') !! sid = Some s'))
  /\ (sessions store !! sid = None ->
      (forall message, add_message_to_session now sid message store = (false, store))
      /\ (forall profile, update_session_profile now sid profile store = (false, store))
      /\ (forall phase, update_session_phase now sid phase store = (false, store))
      /\ update_session_activity now sid store = (false, store)).
Proof.
  split.
  - intros s Hs stored.
    unfold add_message_to_session, update_session_profile, update_session_phase,
      update_session_activity. rewrite Hs.
    repeat split.
    + intros s' k Hne. simpl. by rewrite lookup_insert_ne.
    + intros s'. simpl. apply lookup_insert_eq.
  - intros Hs.
    unfold add_message_to_session, update_session_profile, update_session_phase,
      update_session_activity. by rewrite Hs.
Qed.

Definition hello_message : ChatMessage :=
  {| cm_role := "user"; cm_content := "hello"; cm_timestamp := 5 |}.

Definition stale_store : SessionStore := (create_session stale_session session_store).2.

Lemma stale_store_lookup : sessions stale_store !! "s1" = Some stale_session.
Proof. apply lookup_insert_eq. Qed.

Lemma mutators_change_one_session_witness :
  (add_message_to_session 7 "s1" hello_message stale_store).1 = true
  /\ (add_message_to_session 7 "nobody" hello_message stale_store) = (false, stale_store).
Proof.
  pose proof (mutators_change_one_session 7 "s1" stale_store) as [Hknown _].
  pose proof (mutators_change_one_session 7 "nobody" stale_store) as [_ Hunknown].
  split.
  - exact (f_equal fst (proj1 (Hknown stale_session stale_store_lookup) hello_message)).
  - refine (proj1 (Hunknown _) hello_message).
    apply lookup_insert_None. split; [apply lookup_empty | discriminate].
Defined.

(** X6. Reading does not extend a session's life: a successful
    [get_session] returns the stored session and leaves the store, and with
    it the session's last activity, unchanged, so any later [get_session]
    made more than the timeout after that last activity finds nothing, no
    matter how recently the session was read. *)
Theorem get_session_does_not_extend_life (now : Z) (sid : string)
    (store store' : SessionStore) (s : ChatSession)
    (Hget : get_session now sid store = (Some s, store')) :
  store' = store
  /\ sessions store !! sid = Some s
  /\ (now - last_activity s <= session_timeout store)%Z
  /\ (forall later,
        (later - last_activity s > session_timeout store)%Z ->
        (get_session later sid store').1 = None).
Proof.
  unfold get_session in Hget.
  destruct (sessions store !! sid) as [s0|] eqn:Es; [|discriminate].
  destruct (bool_decide_reflect (now - last_activity s0 > session_timeout store)%Z)
    as [Hexp|Hlive]; [discriminate|].
  injection Hget as <- <-.
  split; [reflexivity|]. split; [reflexivity|]. split; [lia|].
  intros later Hlater. by rewrite (get_session_expired _ _ _ _ Es Hlater).
Qed.

Definition fresh_store : SessionStore :=
  (create_session (new_ChatSession "s1" 0 0) session_store).2.

Lemma get_session_does_not_extend_life_witness :
  (get_session (timedelta_minutes 60 + 1) "s1"
     (get_session (timedelta_minutes 60) "s1" fresh_store).2).1 = None.
Proof.
  assert (Hget : get_session (timedelta_minutes 60) "s1" fresh_store
                 = (Some (new_ChatSession "s1" 0 0), fresh_store)).
  { apply get_session_live; [apply lookup_insert_eq|]. vm_compute. by intros [=]. }
  rewrite Hget.
  refine (proj2 (proj2 (proj2 (get_session_does_not_extend_life _ _ _ _ _ Hget))) _ _).
  vm_compute. reflexivity.
Defined.

(** X7. A mutator revives a session that has expired but has not been
    evicted yet: after [update_session_activity] (or any other mutator) at
    time [now], the session is found again by every [get_session] made
    within the timeout of [now], however old it was before. *)
Theorem mutation_revives_expired_session (now later : Z) (sid : string)
    (store : SessionStore) (s : ChatSession) (message : ChatMessage)
    (Hs : sessions store !! sid = Some s)
    (Hexpired : (now - last_activity s > session_timeout store)%Z)
    (Hlater : (later - now <= session_timeout store)%Z) :
  (get_session now sid store).1 = None
  /\ (get_session later sid (update_session_activity now sid store).2).1
     = Some (mutated s (conversation_history s) (cs_user_profile s) (current_phase s) now)
  /\ (get_session later sid (add_message_to_session now sid message store).2).1
     = Some (mutated s (conversation_history s ++ [message]) (cs_user_profile s)
               (current_phase s) now).
Proof.
  split; [by rewrite (get_session_expired _ _ _ _ Hs Hexpired)|].
  unfold update_session_activity, add_message_to_session. rewrite Hs. simpl.
  split; (erewrite get_session_live; [reflexivity | apply lookup_insert_eq | simpl; lia]).
Qed.

Lemma mutation_revives_witness :
  (get_session (timedelta_minutes 61) "s1"
     (update_session_activity (timedelta_minutes 61) "s1" stale_store).2).1
  = Some (mutated stale_session [] None "collection" (timedelta_minutes 61)).
Proof.
  refine (proj1 (proj2 (mutation_revives_expired_session (timedelta_minutes 61)
                          (timedelta_minutes 61) "s1" stale_store stale_session
                          hello_message stale_store_lookup _ _)));
    vm_compute; congruence.
Defined.

(** X8. [get_langchain_messages] converts the history of a live session
    and leaves the store alone; for an identifier that is not stored it
    returns the empty list; for an expired session it returns the empty
    list and evicts the session. *)
Theorem get_langchain_messages_of_session (now : Z) (sid : string) (store : SessionStore) :
  (sessions store !! sid = None -> get_langchain_messages now sid store = ([], store))
  /\ (forall s, sessions store !! sid = Some s ->
        (now - last_activity s > session_timeout store)%Z ->
        get_langchain_messages now sid store
        = ([], set_sessions store (delete sid (sessions store))))
  /\ (forall s, sessions store !! sid = Some s ->
        ~ (now - last_activity s > session_timeout store)%Z ->
        get_langchain_messages now sid store
        = (convert_chat_history_to_langchain_messages (conversation_history s), store)).
Proof.
  unfold get_langchain_messages. repeat split.
  - intros Hs. by rewrite (get_session_unknown _ _ _ Hs).
  - intros s Hs Hexp. by rewrite (get_session_expired _ _ _ _ Hs Hexp).
  - intros s Hs Hlive. by rewrite (get_session_live _ _ _ _ Hs Hlive).
Qed.

Lemma get_langchain_messages_witness :
  get_langchain_messages (timedelta_minutes 61) "s1" stale_store
  = ([], set_sessions stale_store (delete "s1" (sessions stale_store))).
Proof.
  refine (proj1 (proj2 (get_langchain_messages_of_session (timedelta_minutes 61) "s1"
                          stale_store)) stale_session stale_store_lookup _).
  vm_compute. reflexivity.
Defined.

(** ** Converting and reading messages *)

(** What the conversion makes of one stored message. *)
Definition to_langchain (msg : ChatMessage) : option BaseMessage :=
  if bool_decide (cm_role msg = "user")
  then Some (HumanMessage (Text (cm_content msg)) None)
  else if bool_decide (cm_role msg = "assistant")
  then Some (AIMessage {| ai_content := Text (cm_content msg);
                          ai_tool_calls := []; ai_id := None |})
  else None.

Lemma convert_fold_omap acc chat_history :
  fold_left
    (fun messages msg =>
       if bool_decide (cm_role msg = "user")
       then messages ++ [HumanMessage (Text (cm_content msg)) None]
       else if bool_decide (cm_role msg = "assistant")
       then messages ++ [AIMessage {| ai_content := Text (cm_content msg);
                                      ai_tool_calls := []; ai_id := None |}]
       else messages)
    chat_history acc
  = acc ++ omap to_langchain chat_history.
Proof.
  revert acc. induction chat_history as [|msg rest IH]; intros acc; simpl.
  - by rewrite app_nil_r.
  - rewrite IH. unfold to_langchain.
    destruct (bool_decide (cm_role msg = "user")); [by rewrite <- app_assoc|].
    destruct (bool_decide (cm_role msg = "assistant")); [by rewrite <- app_assoc|done].
Qed.

Lemma convert_omap chat_history :
  convert_chat_history_to_langchain_messages chat_history
  = omap to_langchain chat_history.
Proof. unfold convert_chat_history_to_langchain_messages. apply convert_fold_omap. Qed.

Lemma omap_cons {A B} (f : A -> option B) (a : A) (l : list A) :
  omap f (a :: l) = match f a with Some y => y :: omap f l | None => omap f l end.
Proof. reflexivity. Qed.

Lemma omap_length_le {A B} (f : A -> option B) (l : list A) :
  length (omap f l) <= length l.
Proof.
  induction l as [|a l IH]; [reflexivity|].
  change (omap f (a :: l))
    with (match f a with Some y => y :: omap f l | None => omap f l end).
  destruct (f a); simpl; lia.
Qed.

Lemma converted_messages_plain (h : list ChatMessage) :
  Forall (fun m => (is_HumanMessage m || is_AIMessage m = true)
                   /\ has_tool_calls m = false /\ msg_id m = None)
    (convert_chat_history_to_langchain_messages h).
Proof.
  rewrite convert_omap.
  induction h as [|msg rest IH]; simpl; [constructor|].
  unfold to_langchain at 1.
  destruct (bool_decide (cm_role msg = "user")); [by constructor|].
  destruct (bool_decide (cm_role msg = "assistant")); [by constructor|done].
Qed.

(** X9. The conversion of a stored history keeps the order of the
    messages, turns user messages into human messages and assistant
    messages into assistant messages with the same text, and drops every
    message with another role.  It distributes over concatenation, never
    returns more messages than it was given, returns as many when all roles
    are user or assistant, and what it returns carries neither tool calls
    nor identifiers, so routing on a converted history never leads to a tool
    handler. *)
Theorem convert_chat_history_keeps_user_and_assistant
    (h1 h2 : list ChatMessage) :
  convert_chat_history_to_langchain_messages (h1 ++ h2)
  = convert_chat_history_to_langchain_messages h1
    ++ convert_chat_history_to_langchain_messages h2
  /\ (forall msg,
        convert_chat_history_to_langchain_messages [msg] =
        if bool_decide (cm_role msg = "user")
        then [HumanMessage (Text (cm_content msg)) None]
        else if bool_decide (cm_role msg = "assistant")
        then [AIMessage {| ai_content := Text (cm_content msg);
                           ai_tool_calls := []; ai_id := None |}]
        else [])
  /\ length (convert_chat_history_to_langchain_messages h1) <= length h1
  /\ (Forall (fun msg => cm_role msg = "user" \/ cm_role msg = "assistant") h1 ->
      length (convert_chat_history_to_langchain_messages h1) = length h1)
  /\ Forall (fun m => (is_HumanMessage m || is_AIMessage m = true)
                      /\ has_tool_calls m = false /\ msg_id m = None)
       (convert_chat_history_to_langchain_messages h1)
  /\ (forall p ph,
        route_after_collector {| ws_messages := convert_chat_history_to_langchain_messages h1;
                                 ws_user_profile := p; ws_phase := ph |}
        <> Ok (Node HandleExtractionTool)
        /\ route_after_qa {| ws_messages := convert_chat_history_to_langchain_messages h1;
                             ws_user_profile := p; ws_phase := ph |}
           <> Ok (Node HandleSearchTool)).
Proof.
  rewrite !convert_omap.
  assert (Hall : Forall (fun m => (is_HumanMessage m || is_AIMessage m = true)
                                  /\ has_tool_calls m = false /\ msg_id m = None)
                   (omap to_langchain h1)).
  { induction h1 as [|msg rest IH]; simpl; [constructor|].
    unfold to_langchain at 1.
    destruct (bool_decide (cm_role msg = "user")); [by constructor|].
    destruct (bool_decide (cm_role msg = "assistant")); [by constructor|done]. }
  split; [apply omap_app|]. split.
  { intros msg. rewrite convert_omap. simpl. unfold to_langchain.
    destruct (bool_decide (cm_role msg = "user")); [done|].
    by destruct (bool_decide (cm_role msg = "assistant")). }
  split; [apply omap_length_le|]. split.
  { clear Hall. induction 1 as [|msg rest Hrole _ IH]; [done|].
    assert (Hsome : is_Some (to_langchain msg)).
    { unfold to_langchain. destruct Hrole as [Hr|Hr]; rewrite Hr.
      - by rewrite bool_decide_eq_true_2.
      - rewrite bool_decide_eq_false_2 by discriminate.
        by rewrite bool_decide_eq_true_2. }
    destruct Hsome as [m Hm].
    change (omap to_langchain (msg :: rest))
      with (match to_langchain msg with
            | Some y => y :: omap to_langchain rest
            | None => omap to_langchain rest
            end).
    rewrite Hm. cbn [length]. f_equal. exact IH. }
  split; [exact Hall|].
  intros p ph. unfold route_after_collector, route_after_qa, last_message. simpl.
  destruct (last (omap to_langchain h1)) as [m|] eqn:El; [|by split].
  apply last_Some_elem_of in El. rewrite Forall_forall in Hall.
  destruct (Hall _ El) as (_ & Htc & _). rewrite Htc, andb_false_r.
  split; by destruct (negb (is_HumanMessage m)).
Qed.

Lemma convert_chat_history_witness :
  length (convert_chat_history_to_langchain_messages
            [hello_message;
             {| cm_role := "assistant"; cm_content := "hi"; cm_timestamp := 6 |}]) = 2.
Proof.
  refine (proj1 (proj2 (proj2 (proj2
            (convert_chat_history_keeps_user_and_assistant _ [])))) _).
  constructor; [by left|]. constructor; [by right|]. constructor.
Defined.

(** The text of an assistant message with string content. *)
Definition ai_text (m : BaseMessage) : option string :=
  match m with
  | AIMessage d => match ai_content d with Text s => Some s | Blocks _ => None end
  | _ => None
  end.

Lemma last_ai_text_rev (l : list BaseMessage) :
  last_ai_text (rev l) = last (omap ai_text l).
Proof.
  induction l as [|m l IH] using rev_ind; [reflexivity|].
  rewrite rev_unit, omap_app. simpl.
  destruct m as [c i|d|c t i|c i]; simpl; rewrite ?app_nil_r; try exact IH.
  destruct (ai_content d); simpl; [by rewrite last_snoc | by rewrite app_nil_r].
Qed.

(** X10. From the last chunk of a run the endpoints take: as reply, the
    text of the last assistant message with string content among the chunk's
    messages, whatever follows it, and the empty string when there is none;
    as profile, the chunk's profile, [None] when it has none; as phase, the
    chunk's phase, and [collection] when that is missing, [None] or empty. *)
Theorem extract_response_reads_last_assistant_text (n : NodeName) (u : Update) :
  (extract_response_from_workflow_result (n, u)).1.1
  = default "" (last (omap ai_text (u_messages u)))
  /\ (forall before d s after,
        u_messages u = before ++ AIMessage d :: after ->
        ai_content d = Text s ->
        Forall (fun m => ai_text m = None) after ->
        (extract_response_from_workflow_result (n, u)).1.1 = s)
  /\ (Forall (fun m => ai_text m = None) (u_messages u) ->
      (extract_response_from_workflow_result (n, u)).1.1 = "")
  /\ (extract_response_from_workflow_result (n, u)).1.2 = dict_get (u_user_profile u)
  /\ (extract_response_from_workflow_result (n, u)).2
     = match dict_get (u_phase u) with
       | Some ph => if bool_decide (ph = "") then "collection" else ph
       | None => "collection"
       end.
Proof.
  assert (Hmsg : (extract_response_from_workflow_result (n, u)).1.1
                 = default "" (last (omap ai_text (u_messages u)))).
  { change ((extract_response_from_workflow_result (n, u)).1.1)
      with (match u_messages u with
            | [] => ""
            | m :: l => default "" (last_ai_text (rev (m :: l)))
            end).
    destruct (u_messages u) as [|m l]; [reflexivity|].
    by rewrite last_ai_text_rev. }
  assert (Hnone : forall l, Forall (fun m => ai_text m = None) l -> omap ai_text l = []).
  { induction 1 as [|m l Hm _ IH]; [done|]. by rewrite omap_cons, Hm. }
  split; [exact Hmsg|]. split.
  { intros before d s after Hu Hd Hafter.
    rewrite Hmsg, Hu, omap_app, omap_cons. cbn [ai_text].
    rewrite Hd, (Hnone _ Hafter). by rewrite last_snoc. }
  split; [intros Hall; by rewrite Hmsg, (Hnone _ Hall)|].
  by split.
Qed.

Definition mixed_update : Update :=
  {| u_messages := [AIMessage (final_text "first"); AIMessage (final_text "second");
                    ToolMessage (Text "result") "call_1" None];
     u_user_profile := None; u_phase := Some (Some "") |}.

Lemma extract_response_witness :
  (extract_response_from_workflow_result (QaAgent, mixed_update)).1.1 = "second".
Proof.
  refine (proj1 (proj2 (extract_response_reads_last_assistant_text QaAgent mixed_update))
            [AIMessage (final_text "first")] (final_text "second") "second"
            [ToolMessage (Text "result") "call_1" None] eq_refl eq_refl _).
  by repeat constructor.
Defined.

(** ** The stateless endpoint, continued *)

Section ChatExtras.
Context {W : Type} (self : Workflow W).

Lemma str_or_nonempty x d : d <> "" -> str_or x d <> "".
Proof.
  intros Hd. unfold str_or. destruct x as [s|]; [|exact Hd].
  by destruct (bool_decide_reflect (s = "")).
Qed.

Lemma apology_nonempty : apology <> "".
Proof. discriminate. Qed.

(** X11. A response of [chat] never has an empty message or an empty
    phase: when the run produced no assistant text the fixed apology is
    sent instead, and a missing or empty phase is reported as
    [collection]. *)
Theorem chat_reply_never_empty (request : ChatRequest) (w w' : W) (resp : ChatResponse)
    (Hok : chat self request w = (Ok resp, w')) :
  resp_message resp <> "" /\ resp_phase resp <> "".
Proof.
  unfold chat, chat_body in Hok.
  destruct (strip_is_empty (req_message request)); [discriminate|].
  match type of Hok with context [stream self ?i recursion_limit w] =>
    destruct (stream self i recursion_limit w) as [[steps [e|]] w1]
  end; [discriminate|].
  destruct (last steps) as [s_f|]; [|discriminate].
  destruct (extract_response_from_workflow_result (chunk_of s_f))
    as [[msg prof] ph] eqn:Ex.
  injection Hok as <- <-. simpl. split.
  - destruct (bool_decide_reflect (msg = "")); [apply apology_nonempty | done].
  - assert (Hph : ph = (extract_response_from_workflow_result (chunk_of s_f)).2)
      by (by rewrite Ex).
    rewrite Hph. by apply str_or_nonempty.
Qed.

(** X12. Every failure of [chat] reaches the caller as the same server
    error, status 500 with the detail "Internal server error", the rejection
    of an empty message included; a message that consists of white space
    only is rejected before any collaborator is called. *)
Theorem chat_failures_are_server_errors (request : ChatRequest) (w : W) :
  (forall e w', chat self request w = (Raise e, w') ->
                e = HTTPException 500 "Internal server error")
  /\ (strip_is_empty (req_message request) = true ->
      chat self request w = (Raise (HTTPException 500 "Internal server error"), w)).
Proof.
  split.
  - intros e w'. unfold chat.
    destruct (chat_body self request w) as [[r|e0] w1]; [discriminate|].
    by intros [= <- _].
  - intros Hblank. unfold chat, chat_body. by rewrite Hblank.
Qed.

(** The extraction handler ran in these steps. *)
Definition ran_extraction (steps : list Step) : Prop :=
  exists s, s ∈ steps /\ step_node s = HandleExtractionTool.

Lemma trace_final_phase n st steps s_f :
  trace self n st steps -> last steps = Some s_f ->
  dict_get (ws_phase (step_state s_f)) = dict_get (ws_phase st)
  \/ ran_extraction steps.
Proof.
  induction 1 as [n st|n st u Hs|n st u n' rest Hs Hf Ht IH]; intros Hl.
  - discriminate.
  - injection Hl as <-. by left.
  - destruct rest as [|s' rest]; [injection Hl as <-; by left|].
    change (last (s' :: rest) = Some s_f) in Hl.
    destruct (IH Hl) as [Heq|(s_e & Hin & Hn)].
    + destruct (shape_phase self _ _ _ Hs) as [Hsame|[-> _]].
      * left. by rewrite Heq.
      * right. eexists. split; [apply list_elem_of_here | reflexivity].
    + right. exists s_e. split; [by apply list_elem_of_further | exact Hn].
Qed.

(** The last step of a finished run in which the extraction handler ran
    sees the [qa] phase and the profile that handler wrote. *)
Lemma trace_final_after_extraction n st steps s_e s_f :
  trace self n st steps ->
  s_e ∈ steps -> step_node s_e = HandleExtractionTool ->
  last steps = Some s_f ->
  follow_edge self (step_node s_f) (step_post s_f) = Ok END ->
  in_qa (dict_get (u_user_profile (step_update s_e))) (step_node s_f) (step_state s_f).
Proof.
  intros Ht Hin Hn Hl Hend.
  apply list_elem_of_split in Hin as (l1 & l2 & ->).
  pose proof (trace_suffix self _ _ _ _ _ Ht) as Hsuf. rewrite Hn in Hsuf.
  pose proof (trace_after_extraction self _ _ _ Hsuf) as Hq.
  rewrite last_app, last_cons in Hl.
  destruct (last l2) as [x|] eqn:El.
  - injection Hl as <-. rewrite Forall_forall in Hq.
    by apply Hq, last_Some_elem_of.
  - injection Hl as <-.
    destruct (follow_edge_END self _ _ Hend); congruence.
Qed.

(** X13. A response of [chat] reports the phase [qa] exactly when the
    request was already in [qa] or the extraction handler ran during the
    turn; in every other case it reports the phase of the request, with
    [collection] standing in for an empty one. *)
Theorem chat_reports_qa_iff_extraction_ran (request : ChatRequest) (w w' : W)
    (resp : ChatResponse) (Hok : chat self request w = (Ok resp, w')) :
  let steps := (stream self (chat_initial_state request) recursion_limit w).1.1 in
  (resp_phase resp = "qa" <-> req_phase request = "qa" \/ ran_extraction steps)
  /\ (~ ran_extraction steps ->
      resp_phase resp = str_or (Some (req_phase request)) "collection").
Proof.
  intros steps.
  destruct (chat_ok_inv self _ _ _ _ Hok)
    as (steps' & s_f & Es & Hl & Hend & Hp & Hph & _).
  pose proof (pregel_loop_trace self recursion_limit EntryPoint
                (apply_update empty_state (chat_initial_state request)) w) as Ht.
  change (pregel_loop self recursion_limit EntryPoint _ w)
    with (stream self (chat_initial_state request) recursion_limit w) in Ht.
  subst steps. rewrite Es in *. simpl in Ht |- *.
  assert (Hnot : ~ ran_extraction steps' ->
                 resp_phase resp = str_or (Some (req_phase request)) "collection").
  { intros Hno. destruct (trace_final_phase _ _ _ _ Ht Hl) as [Heq|Hran]; [|done].
    by rewrite Hph, Heq. }
  split; [|exact Hnot]. split.
  - intros Hqa.
    destruct (trace_final_phase _ _ _ _ Ht Hl) as [Heq|Hran]; [|by right].
    left. rewrite Hph, Heq in Hqa. simpl in Hqa.
    by destruct (bool_decide_reflect (req_phase request = "")).
  - intros [Hreq|(s_e & Hin & Hn)].
    + by destruct (chat_in_qa_phase self _ _ _ _ Hreq Hok).
    + destruct (trace_final_after_extraction _ _ _ _ _ Ht Hin Hn Hl Hend)
        as (_ & Hphase & _).
      by rewrite Hph, Hphase.
Qed.

(** X14. The profile in a response of [chat] is the profile of the request
    unless the extraction handler ran during the turn, and then it is what
    that handler parsed from the tool result: a profile, or [None] when
    parsing failed, even if the request carried a profile. *)
Theorem chat_profile_from_request_or_extraction (request : ChatRequest) (w w' : W)
    (resp : ChatResponse) (Hok : chat self request w = (Ok resp, w')) :
  let steps := (stream self (chat_initial_state request) recursion_limit w).1.1 in
  (~ ran_extraction steps -> resp_user_profile resp = req_user_profile request)
  /\ (forall s_e, s_e ∈ steps -> step_node s_e = HandleExtractionTool ->
        exists tool_messages,
          u_messages (step_update s_e) = tool_messages
          /\ resp_user_profile resp = parse_tool_result self tool_messages).
Proof.
  intros steps.
  destruct (chat_ok_inv self _ _ _ _ Hok)
    as (steps' & s_f & Es & Hl & Hend & Hp & Hph & _).
  pose proof (pregel_loop_trace self recursion_limit EntryPoint
                (apply_update empty_state (chat_initial_state request)) w) as Ht.
  change (pregel_loop self recursion_limit EntryPoint _ w)
    with (stream self (chat_initial_state request) recursion_limit w) in Ht.
  subst steps. rewrite Es in *. simpl in Ht |- *.
  split.
  - intros Hno.
    destruct (trace_final_profile self _ _ _ _ Ht Hl) as [Heq|(s_e & Hin & Hn & _)].
    + by rewrite Hp, Heq.
    + destruct Hno. by exists s_e.
  - intros s_e Hin Hn. eexists. split; [reflexivity|].
    destruct (trace_final_after_extraction _ _ _ _ _ Ht Hin Hn Hl Hend)
      as (_ & _ & Hprof).
    rewrite Hp, Hprof.
    pose proof (trace_shapes self _ _ _ Ht) as Hsh. rewrite Forall_forall in Hsh.
    specialize (Hsh _ Hin). rewrite Hn in Hsh. destruct Hsh as [tms ->].
    reflexivity.
Qed.
End ChatExtras.

Definition blank_request : ChatRequest :=
  {| req_message := unicode_blank; req_user_profile := None; req_conversation_history := [];
     req_phase := "collection"; req_debug := false |}.

Lemma chat_failures_witness :
  chat (stub_workflow (json_text dana_fields) true) blank_request dana_script
  = (Raise (HTTPException 500 "Internal server error"), dana_script).
Proof.
  exact (proj2 (chat_failures_are_server_errors
                  (stub_workflow (json_text dana_fields) true) blank_request dana_script)
           eq_refl).
Defined.

Lemma chat_reply_never_empty_witness :
  resp_message dana_response <> "" /\ resp_phase dana_response <> "".
Proof.
  exact (chat_reply_never_empty (stub_workflow (json_text dana_fields) true)
           dana_request dana_script [] dana_response dana_chat).
Defined.

Lemma chat_reports_qa_witness :
  resp_phase dental_response = "qa"
  <-> req_phase dental_request = "qa"
      \/ ran_extraction
           (stream (stub_workflow (json_text dana_fields) true)
              (chat_initial_state dental_request) recursion_limit dental_script).1.1.
Proof.
  exact (proj1 (chat_reports_qa_iff_extraction_ran
                  (stub_workflow (json_text dana_fields) true)
                  dental_request dental_script [] dental_response dental_chat)).
Defined.

Lemma dental_no_extraction :
  ~ ran_extraction
      (stream (stub_workflow (json_text dana_fields) true)
         (chat_initial_state dental_request) recursion_limit dental_script).1.1.
Proof.
  intros (s & Hin & Hn).
  pose proof (stream_in_qa (stub_workflow (json_text dana_fields) true)
                (chat_initial_state dental_request) recursion_limit dental_script
                eq_refl) as Hall.
  rewrite Forall_forall in Hall. destruct (Hall s Hin) as (Hside & _).
  rewrite Hn in Hside. by destruct Hside as [|[|]].
Qed.

Lemma chat_profile_witness :
  resp_user_profile dental_response = req_user_profile dental_request.
Proof.
  exact (proj1 (chat_profile_from_request_or_extraction
                  (stub_workflow (json_text dana_fields) true)
                  dental_request dental_script [] dental_response dental_chat)
           dental_no_extraction).
Defined.

(** ** Whole turns of the stateless endpoint *)

Section Turns.
Context {W : Type} (self : Workflow W).

Lemma pregel_loop_stop budget n st w u w1 :
  node_fn self n st w = (Ok u, w1) ->
  follow_edge self n (apply_update st u) = Ok END ->
  pregel_loop self (S budget) n st w =
  (([{| step_node := n; step_state := st; step_update := u |}], None), w1).
Proof. intros En Ef. by rewrite pregel_loop_S, En, Ef. Qed.

Lemma apply_update_entry st :
  apply_update st {| u_messages := []; u_user_profile := None; u_phase := None |} = st.
Proof. destruct st. unfold apply_update. simpl. by rewrite add_messages_nil. Qed.

(** The messages a request puts before the workflow. *)
Definition request_messages (request : ChatRequest) : list BaseMessage :=
  convert_chat_history_to_langchain_messages (req_conversation_history request)
  ++ [HumanMessage (Text (req_message request)) None].

Lemma request_messages_no_id request :
  Forall (fun m => msg_id m = None) (request_messages request).
Proof.
  unfold request_messages. apply Forall_app. split; [|by repeat constructor].
  eapply Forall_impl; [apply converted_messages_plain|]. by intros m (_ & _ & H).
Qed.

(** The state in which the entry point of a [chat] turn runs. *)
Definition request_state (request : ChatRequest) : WorkflowState :=
  {| ws_messages := request_messages request;
     ws_user_profile := Some (req_user_profile request);
     ws_phase := Some (Some (req_phase request)) |}.

Lemma chat_initial_state_applied request :
  apply_update empty_state (chat_initial_state request) = request_state request.
Proof.
  unfold apply_update, request_state. simpl. f_equal.
  apply (add_messages_no_id []), request_messages_no_id.
Qed.

(** The reply text sent for an assistant message. *)
Definition reply_text (d : AIMessageData) : string :=
  match ai_content d with
  | Text s => if bool_decide (s = "") then apology else s
  | Blocks _ => apology
  end.

Lemma extract_single_reply n d p ph :
  extract_response_from_workflow_result
    (n, {| u_messages := [AIMessage d]; u_user_profile := Some p; u_phase := Some ph |})
  = (match ai_content d with Text s => s | Blocks _ => "" end, p, str_or ph "collection").
Proof.
  unfold extract_response_from_workflow_result. simpl. by destruct (ai_content d).
Qed.

Lemma reply_text_spec d :
  (if bool_decide (match ai_content d with Text s => s | Blocks _ => "" end = "")
   then apology else match ai_content d with Text s => s | Blocks _ => "" end)
  = reply_text d.
Proof. unfold reply_text. by destruct (ai_content d). Qed.

Lemma last_no_tool_calls_END_collector st d :
  last (ws_messages st) = Some (AIMessage d) -> ai_tool_calls d = [] ->
  follow_edge self CollectorAgent st = Ok END.
Proof.
  intros Hl Htc. unfold follow_edge; simpl. unfold route_after_collector.
  rewrite (last_message_Some _ _ Hl). simpl. by rewrite Htc.
Qed.

Lemma last_no_tool_calls_END_qa st d :
  last (ws_messages st) = Some (AIMessage d) -> ai_tool_calls d = [] ->
  follow_edge self QaAgent st = Ok END.
Proof.
  intros Hl Htc. unfold follow_edge; simpl. unfold route_after_qa.
  rewrite (last_message_Some _ _ Hl). simpl. by rewrite Htc.
Qed.

(** X15. A turn outside the [qa] phase, with a message that is not blank,
    in which the model answers without asking for the tool: the collector's
    model is called once, with the collection prompt followed by the
    converted history and the new user message, and the response carries
    the model's text (the apology when there is none), the profile and the
    phase of the request, and no request for confirmation. *)
Theorem chat_collection_turn (request : ChatRequest) (w w1 : W) (d : AIMessageData)
    (Hmsg : strip_is_empty (req_message request) = false)
    (Hphase : req_phase request <> "qa")
    (Hllm : collector_llm self
              (SystemMessage (Text (info_collection_prompt_content self)) None
                 :: request_messages request) w = (Ok d, w1))
    (Hcalls : ai_tool_calls d = []) :
  chat self request w =
  (Ok {| resp_message := reply_text d;
         resp_user_profile := req_user_profile request;
         resp_phase := str_or (Some (req_phase request)) "collection";
         resp_requires_confirmation := false |}, w1).
Proof.
  set (st := request_state request).
  set (u1 := {| u_messages := [AIMessage d];
                u_user_profile := Some (req_user_profile request);
                u_phase := Some (Some (req_phase request)) |}).
  assert (Hrun : stream self (chat_initial_state request) recursion_limit w =
                 (([{| step_node := EntryPoint; step_state := st;
                       step_update := {| u_messages := []; u_user_profile := None;
                                         u_phase := None |} |};
                    {| step_node := CollectorAgent; step_state := st;
                       step_update := u1 |}], None), w1)).
  { unfold stream. rewrite chat_initial_state_applied. fold st.
    change recursion_limit with (S (S 48)).
    rewrite (pregel_loop_continue self _ EntryPoint st w
               {| u_messages := []; u_user_profile := None; u_phase := None |}
               w CollectorAgent eq_refl).
    2:{ rewrite follow_edge_entry. simpl.
        by rewrite bool_decide_eq_false_2 by congruence. }
    rewrite apply_update_entry.
    rewrite (pregel_loop_stop 48 CollectorAgent st w u1 w1); [reflexivity|..].
    - simpl. unfold collector_agent, bind, ret. unfold get_messages_info.
      change (ws_messages st) with (request_messages request). by rewrite Hllm.
    - apply (last_no_tool_calls_END_collector _ d); [|exact Hcalls].
      simpl. apply last_after_reply. intros i _.
      apply id_present_no_ids, request_messages_no_id. }
  unfold chat, chat_body. rewrite Hmsg.
  change (stream self _ recursion_limit w)
    with (stream self (chat_initial_state request) recursion_limit w).
  rewrite Hrun. cbn [last]. unfold chunk_of. cbn [step_node step_update].
  unfold u1. rewrite extract_single_reply, reply_text_spec.
  do 2 f_equal. f_equal.
  change (str_or (Some (req_phase request)) "collection")
    with (if bool_decide (req_phase request = "") then "collection"
          else req_phase request).
  destruct (bool_decide_reflect (req_phase request = "")) as [He|He].
  - by rewrite andb_false_r.
  - rewrite (bool_decide_eq_false_2 _ Hphase). by rewrite andb_false_r.
Qed.
(** X16. A turn outside the [qa] phase, with a message that is not blank,
    in which the collector's model asks for the extraction tool and the
    responder's model then answers in text, with a reply that does not
    reuse the id of a message of the turn: the tool node sees the history
    with the tool-call message at its end, the responder's model sees the
    QA prompt followed by that history and the tool messages, and the
    response carries the responder's text, the profile parsed from the tool
    messages ([None] if parsing failed), the phase [qa], and asks for
    confirmation exactly when a profile was parsed and the request had
    none. *)
Theorem chat_extraction_turn (request : ChatRequest) (w w1 w2 w3 : W)
    (d1 d2 : AIMessageData) (tool_messages : list BaseMessage)
    (Hmsg : strip_is_empty (req_message request) = false)
    (Hphase : req_phase request <> "qa")
    (Hllm1 : collector_llm self
               (SystemMessage (Text (info_collection_prompt_content self)) None
                  :: request_messages request) w = (Ok d1, w1))
    (Hcalls1 : ai_tool_calls d1 <> [])
    (Htool : extraction_tool_node self
               {| ws_messages := request_messages request ++ [AIMessage d1];
                  ws_user_profile := Some (req_user_profile request);
                  ws_phase := Some (Some (req_phase request)) |} w1
             = (Ok tool_messages, w2))
    (Hllm2 : qa_llm self
               (SystemMessage (Text (qa_prompt_content self)) None
                  :: add_messages (request_messages request ++ [AIMessage d1])
                       tool_messages) w2 = (Ok d2, w3))
    (Hcalls2 : ai_tool_calls d2 = [])
    (Hfresh : forall i, ai_id d2 = Some i ->
              id_present i (add_messages (request_messages request ++ [AIMessage d1])
                              tool_messages) = false) :
  chat self request w =
  (Ok {| resp_message := reply_text d2;
         resp_user_profile := parse_tool_result self tool_messages;
         resp_phase := "qa";
         resp_requires_confirmation :=
           is_not_None (parse_tool_result self tool_messages)
           && is_None (req_user_profile request) |}, w3).
Proof.
  set (st := request_state request).
  set (u1 := {| u_messages := [AIMessage d1];
                u_user_profile := Some (req_user_profile request);
                u_phase := Some (Some (req_phase request)) |}).
  set (st1 := {| ws_messages := request_messages request ++ [AIMessage d1];
                 ws_user_profile := Some (req_user_profile request);
                 ws_phase := Some (Some (req_phase request)) |}).
  set (u2 := {| u_messages := tool_messages;
                u_user_profile := Some (parse_tool_result self tool_messages);
                u_phase := Some (Some "qa") |}).
  set (st2 := {| ws_messages := add_messages (request_messages request ++ [AIMessage d1])
                                  tool_messages;
                 ws_user_profile := Some (parse_tool_result self tool_messages);
                 ws_phase := Some (Some "qa") |}).
  set (u3 := {| u_messages := [AIMessage d2];
                u_user_profile := Some (parse_tool_result self tool_messages);
                u_phase := Some (Some "qa") |}).
  assert (H1 : apply_update st u1 = st1).
  { unfold apply_update, st1. f_equal.
    apply add_reply_fresh. intros i _.
    apply id_present_no_ids, request_messages_no_id. }
  assert (H2 : apply_update st1 u2 = st2) by reflexivity.
  assert (Hrun : exists steps,
             stream self (chat_initial_state request) recursion_limit w =
             ((steps ++ [{| step_node := QaAgent; step_state := st2;
                            step_update := u3 |}], None), w3)).
  { exists [{| step_node := EntryPoint; step_state := st;
               step_update := {| u_messages := []; u_user_profile := None;
                                 u_phase := None |} |};
            {| step_node := CollectorAgent; step_state := st; step_update := u1 |};
            {| step_node := HandleExtractionTool; step_state := st1;
               step_update := u2 |}].
    unfold stream. rewrite chat_initial_state_applied. fold st.
    change recursion_limit with (S (S (S (S 46)))).
    rewrite (pregel_loop_continue self _ EntryPoint st w
               {| u_messages := []; u_user_profile := None; u_phase := None |}
               w CollectorAgent eq_refl).
    2:{ rewrite follow_edge_entry. simpl.
        by rewrite bool_decide_eq_false_2 by congruence. }
    rewrite apply_update_entry.
    rewrite (pregel_loop_continue self _ CollectorAgent st w u1 w1 HandleExtractionTool).
    2:{ simpl. unfold collector_agent, bind, ret, get_messages_info.
        change (ws_messages st) with (request_messages request). by rewrite Hllm1. }
    2:{ rewrite H1. apply (follow_edge_collector_tool_call self st1 d1);
          [apply last_snoc | exact Hcalls1]. }
    rewrite H1.
    rewrite (pregel_loop_continue self _ HandleExtractionTool st1 w1 u2 w2 QaAgent).
    2:{ simpl. unfold handle_extraction_tool, bind, ret. fold st1 in Htool.
        by rewrite Htool. }
    2:{ reflexivity. }
    rewrite H2.
    rewrite (pregel_loop_stop 46 QaAgent st2 w2 u3 w3); [reflexivity|..].
    - simpl. unfold qa_agent, bind, ret, get_messages_qa.
      change (ws_messages st2)
        with (add_messages (request_messages request ++ [AIMessage d1]) tool_messages).
      by rewrite Hllm2.
    - apply (last_no_tool_calls_END_qa _ d2); [|exact Hcalls2].
      simpl. by apply last_after_reply. }
  destruct Hrun as [steps Hrun].
  unfold chat, chat_body. rewrite Hmsg.
  change (stream self _ recursion_limit w)
    with (stream self (chat_initial_state request) recursion_limit w).
  rewrite Hrun, last_snoc. unfold chunk_of. cbn [step_node step_update].
  unfold u3. rewrite extract_single_reply, reply_text_spec.
  do 2 f_equal. f_equal.
  change (str_or (Some "qa") "collection") with "qa".
  rewrite (bool_decide_eq_true_2 ("qa" = "qa")) by reflexivity.
  by rewrite andb_true_r.
Qed.
End Turns.

Definition hello_request : ChatRequest :=
  {| req_message := "hello"; req_user_profile := None; req_conversation_history := [];
     req_phase := "collection"; req_debug := false |}.

Lemma chat_collection_turn_witness :
  chat (stub_workflow (json_text dana_fields) true) hello_request
    [final_text "What is your name?"]
  = (Ok {| resp_message := "What is your name?"; resp_user_profile := None;
           resp_phase := "collection"; resp_requires_confirmation := false |}, []).
Proof.
  refine (chat_collection_turn (stub_workflow (json_text dana_fields) true)
            hello_request [final_text "What is your name?"] []
            (final_text "What is your name?") eq_refl _ eq_refl eq_refl).
  discriminate.
Defined.

Lemma chat_extraction_turn_witness :
  chat (stub_workflow (json_text dana_fields) true) dana_request dana_script
  = (Ok {| resp_message := "Welcome, Dana";
           resp_user_profile :=
             parse_tool_result (stub_workflow (json_text dana_fields) true)
               [ToolMessage (Text (json_text dana_fields)) "call_1" None];
           resp_phase := "qa";
           resp_requires_confirmation :=
             is_not_None (parse_tool_result (stub_workflow (json_text dana_fields) true)
                            [ToolMessage (Text (json_text dana_fields)) "call_1" None])
             && is_None (req_user_profile dana_request) |}, []).
Proof.
  refine (chat_extraction_turn (stub_workflow (json_text dana_fields) true)
            dana_request dana_script [final_text "Welcome, Dana"]
            [final_text "Welcome, Dana"] []
            (tool_call_only "extract_user_info") (final_text "Welcome, Dana")
            [ToolMessage (Text (json_text dana_fields)) "call_1" None]
            eq_refl _ eq_refl _ eq_refl eq_refl eq_refl _);
    [discriminate | discriminate | intros i Hi; discriminate Hi].
Defined.

(** ** The stateful endpoint, turn by turn

    [triple P m Q]: when [m] starts in a store satisfying [P] and returns a
    value, the value and the store it leaves satisfy [Q]. *)
Definition triple {W T} (P : SessionStore -> Prop) (m : M (W * SessionStore) T)
    (Q : T -> SessionStore -> Prop) : Prop :=
  forall w store, P store ->
    forall a w' store', m (w, store) = (Ok a, (w', store')) -> Q a store'.

Section TripleRules.
Context {W : Type} (self : Workflow W) (sys : System W).

Lemma triple_ret {T} (P : SessionStore -> Prop) (a : T) :
  triple (W := W) P (ret a) (fun r store => r = a /\ P store).
Proof. intros w store HP r w' store' [= <- <- <-]. by split. Qed.

Lemma triple_raise {T} (P : SessionStore -> Prop) e (Q : T -> SessionStore -> Prop) :
  triple (W := W) P (raise e) Q.
Proof. intros w store HP r w' store'. discriminate. Qed.

Lemma triple_bind {A B} (P : SessionStore -> Prop) (R : A -> SessionStore -> Prop)
    (Q : B -> SessionStore -> Prop) (m : M (W * SessionStore) A)
    (k : A -> M (W * SessionStore) B) :
  triple P m R -> (forall a, triple (R a) (k a) Q) -> triple P (bind m k) Q.
Proof.
  intros Hm Hk w store HP b w' store'. unfold bind.
  destruct (m (w, store)) as [[a|e] [w1 store1]] eqn:Em; [|discriminate].
  intros Hka. eapply Hk; [|exact Hka]. by eapply Hm.
Qed.

Lemma triple_post {T} (P : SessionStore -> Prop) (Q Q' : T -> SessionStore -> Prop)
    (m : M (W * SessionStore) T) :
  triple P m Q -> (forall a store, Q a store -> Q' a store) -> triple P m Q'.
Proof. intros Hm Himp w store HP a w' store' E. by eapply Himp, Hm. Qed.

Lemma triple_now (P : SessionStore -> Prop) :
  triple P (now_ sys) (fun _ store => P store).
Proof.
  intros w store HP t w' store'. unfold now_.
  destruct (datetime_now sys w) as [t0 w0]. by intros [= _ _ <-].
Qed.

Lemma triple_on_store {T} (P : SessionStore -> Prop)
    (method : SessionStore -> T * SessionStore) :
  triple (W := W) P (on_store method)
    (fun r store' => exists store, P store /\ method store = (r, store')).
Proof.
  intros w store HP r w' store'. unfold on_store.
  destruct (method store) as [r0 store0] eqn:E. intros [= <- _ <-]. by exists store.
Qed.

(** A store method called with the current time. *)
Lemma triple_timed {T} (P : SessionStore -> Prop)
    (method : Z -> SessionStore -> T * SessionStore) :
  triple P (bind (now_ sys) (fun t => on_store (method t)))
    (fun r store' => exists now store, P store /\ method now store = (r, store')).
Proof.
  eapply triple_bind; [apply triple_now|]. intros t.
  eapply triple_post; [apply triple_on_store|].
  intros r store' (store & HP & E). by exists t, store.
Qed.

Lemma triple_sync (P : SessionStore -> Prop) session :
  triple (W := W) P (sync session)
    (fun s' store => P store /\ s' = deref store session).
Proof. intros w store HP r w' store'. unfold sync. by intros [= <- _ <-]. Qed.

Lemma triple_run_workflow (P : SessionStore -> Prop) input :
  triple P (run_workflow self input)
    (fun r store => P store /\ exists w w', stream self input recursion_limit w = (r, w')).
Proof.
  intros w store HP r w' store'. unfold run_workflow.
  destruct (stream self input recursion_limit w) as [r0 w0] eqn:E.
  intros [= <- _ <-]. split; [exact HP|]. by exists w, w0.
Qed.

Lemma triple_mk_ChatMessage (P : SessionStore -> Prop) role content :
  triple P (mk_ChatMessage sys role content)
    (fun m store => P store /\ cm_role m = role /\ cm_content m = content).
Proof.
  unfold mk_ChatMessage. eapply triple_bind; [apply triple_now|]. intros t.
  eapply triple_post; [apply triple_ret|]. by intros m store [-> HP].
Qed.
End TripleRules.

(** ** What a turn does to the stored session *)

(** The session [sid] of [store], if there is one, satisfies [holds_of];
    every other session is as in [store0]. *)
Definition only_session_changed (store0 : SessionStore) (sid : string)
    (holds_of : ChatSession -> Prop) (store : SessionStore) : Prop :=
  (forall k, k <> sid -> sessions store !! k = sessions store0 !! k)
  /\ (forall s, sessions store !! sid = Some s -> holds_of s).

Section OneSession.
Context (store0 : SessionStore) (sid : string).

Lemma only_session_changed_impl (F G : ChatSession -> Prop) store :
  only_session_changed store0 sid F store -> (forall s, F s -> G s) ->
  only_session_changed store0 sid G store.
Proof. intros [Hfr Hs] Himp. split; [exact Hfr|]. intros s H. by apply Himp, Hs. Qed.

Lemma only_session_changed_insert (F G : ChatSession -> Prop) store s s' :
  only_session_changed store0 sid F store ->
  sessions store !! sid = Some s -> (F s -> G s') ->
  only_session_changed store0 sid G (set_sessions store (<[sid := s']> (sessions store))).
Proof.
  intros [Hfr Hs] Hl Himp. split.
  - intros k Hne. simpl. rewrite lookup_insert_ne by done. by apply Hfr.
  - intros x. simpl. rewrite lookup_insert_eq. intros [= <-]. by apply Himp, Hs.
Qed.

Lemma only_session_changed_delete (F : ChatSession -> Prop) store :
  only_session_changed store0 sid F store ->
  only_session_changed store0 sid F (set_sessions store (delete sid (sessions store))).
Proof.
  intros [Hfr Hs]. split.
  - intros k Hne. simpl. rewrite lookup_delete_ne by done. by apply Hfr.
  - intros x. simpl. by rewrite lookup_delete_eq.
Qed.

Lemma get_session_one (F : ChatSession -> Prop) now store r store' :
  only_session_changed store0 sid F store ->
  get_session now sid store = (r, store') ->
  only_session_changed store0 sid F store'
  /\ (forall s, r = Some s -> store' = store /\ sessions store !! sid = Some s)
  /\ (r = None -> sessions store' !! sid = None).
Proof.
  intros Hinv. unfold get_session.
  destruct (sessions store !! sid) as [s|] eqn:Es.
  - destruct (bool_decide _).
    + intros [= <- <-]. split; [by apply only_session_changed_delete|].
      split; [discriminate|]. intros _. simpl. apply lookup_delete_eq.
    + intros [= <- <-]. split; [exact Hinv|]. split; [by intros s' [= <-]|discriminate].
  - intros [= <- <-]. split; [exact Hinv|]. split; [discriminate|done].
Qed.

Lemma get_langchain_messages_one (F : ChatSession -> Prop) now store r store' :
  only_session_changed store0 sid F store ->
  get_langchain_messages now sid store = (r, store') ->
  only_session_changed store0 sid F store'.
Proof.
  intros Hinv. unfold get_langchain_messages.
  destruct (get_session now sid store) as [[s|] store1] eqn:Eg; intros [= _ <-];
    by apply (get_session_one F _ _ _ _ Hinv Eg).
Qed.

Lemma add_message_one (F G : ChatSession -> Prop) now message store r store' :
  only_session_changed store0 sid F store ->
  add_message_to_session now sid message store = (r, store') ->
  (forall s, F s ->
     G (mutated s (conversation_history s ++ [message]) (cs_user_profile s)
          (current_phase s) now)) ->
  only_session_changed store0 sid G store'.
Proof.
  intros Hinv. unfold add_message_to_session.
  destruct (sessions store !! sid) as [s|] eqn:Es; intros [= _ <-] Himp.
  - eapply only_session_changed_insert; [exact Hinv | exact Es | apply Himp].
  - destruct Hinv as [Hfr _]. split; [exact Hfr|]. intros x Hx. congruence.
Qed.

Lemma update_profile_one (F G : ChatSession -> Prop) now profile store r store' :
  only_session_changed store0 sid F store ->
  update_session_profile now sid profile store = (r, store') ->
  (forall s, F s ->
     G (mutated s (conversation_history s) (Some profile) (current_phase s) now)) ->
  only_session_changed store0 sid G store'.
Proof.
  intros Hinv. unfold update_session_profile.
  destruct (sessions store !! sid) as [s|] eqn:Es; intros [= _ <-] Himp.
  - eapply only_session_changed_insert; [exact Hinv | exact Es | apply Himp].
  - destruct Hinv as [Hfr _]. split; [exact Hfr|]. intros x Hx. congruence.
Qed.

Lemma update_phase_one (F G : ChatSession -> Prop) now phase store r store' :
  only_session_changed store0 sid F store ->
  update_session_phase now sid phase store = (r, store') ->
  (forall s, F s ->
     G (mutated s (conversation_history s) (cs_user_profile s) phase now)) ->
  only_session_changed store0 sid G store'.
Proof.
  intros Hinv. unfold update_session_phase.
  destruct (sessions store !! sid) as [s|] eqn:Es; intros [= _ <-] Himp.
  - eapply only_session_changed_insert; [exact Hinv | exact Es | apply Himp].
  - destruct Hinv as [Hfr _]. split; [exact Hfr|]. intros x Hx. congruence.
Qed.

(** Re-reading a local variable: it is the stored session if there is
    one, and otherwise what it was. *)
Lemma deref_one (F L : ChatSession -> Prop) store session :
  only_session_changed store0 sid F store ->
  session_id session = sid -> L session -> (forall s, F s -> L s) ->
  L (deref store session)
  /\ only_session_changed store0 sid (fun s => F s /\ s = deref store session) store.
Proof.
  intros [Hfr Hs] Hid HL Himp. unfold deref. rewrite Hid.
  destruct (sessions store !! sid) as [s|] eqn:Es; simpl.
  - split; [by apply Himp, Hs|]. split; [exact Hfr|].
    intros x Hx. rewrite Es in Hx. injection Hx as <-. split; [by apply Hs | reflexivity].
  - split; [exact HL|]. split; [exact Hfr|]. intros x Hx. congruence.
Qed.
End OneSession.

(** What is persisted of a message: its role and its content. *)
Definition role_and_content (m : ChatMessage) : string * string :=
  (cm_role m, cm_content m).

(** The session [s] is [s0] with the given history, profile and phase
    (and some time of last activity). *)
Definition session_is (s0 : ChatSession) (history : list ChatMessage)
    (profile : option UserProfile) (phase : string) (s : ChatSession) : Prop :=
  session_id s = session_id s0 /\ created_at s = created_at s0
  /\ conversation_history s = history /\ cs_user_profile s = profile
  /\ current_phase s = phase.

(** The session a turn works on: the stored one named by the request, or a
    new one that holds the welcome message. *)
Definition turn_session (request : StatefulChatRequest) (store0 : SessionStore)
    (session : ChatSession) : Prop :=
  if str_truthy (sreq_session_id request)
  then sessions store0 !! default "" (sreq_session_id request) = Some session
  else exists t, conversation_history session
                 = [{| cm_role := "assistant"; cm_content := welcome_message;
                       cm_timestamp := t |}]
                 /\ cs_user_profile session = None
                 /\ current_phase session = "collection".

(** What a completed turn leaves behind, relative to the session it
    started from. *)
Definition turn_outcome (request : StatefulChatRequest) (store0 : SessionStore)
    (session : ChatSession) (resp : StatefulChatResponse) (store' : SessionStore) : Prop :=
  sresp_session_id resp = session_id session
  /\ (forall k, k <> session_id session -> sessions store' !! k = sessions store0 !! k)
  /\ (forall s', sessions store' !! session_id session = Some s' ->
        role_and_content <$> conversation_history s'
        = (role_and_content <$> conversation_history session)
          ++ [("user", sreq_message request); ("assistant", sresp_message resp)]
        /\ created_at s' = created_at session
        /\ sresp_phase resp = current_phase s'
        /\ sresp_user_profile resp = cs_user_profile s'
        /\ sresp_requires_confirmation resp = false).

Section TurnSpec.
Context {W : Type} (self : Workflow W) (sys : System W).

Lemma triple_pure {T} (fact : Prop) (P : SessionStore -> Prop)
    (m : M (W * SessionStore) T) (Q : T -> SessionStore -> Prop) :
  (fact -> triple P m Q) -> triple (fun store => fact /\ P store) m Q.
Proof. intros H w store [Hf HP]. by apply H. Qed.

Lemma triple_store_create_session store0 :
  triple (fun store => store = store0) (store_create_session sys)
    (fun session store' =>
       exists u t1 t2,
         session = new_ChatSession u t1 t2
         /\ store' = set_sessions store0 (<[u := session]> (sessions store0))).
Proof.
  intros w store -> session w' store'.
  unfold store_create_session, bind, fresh_uuid, now_, on_store.
  destruct (uuid4 sys w) as [u w1].
  destruct (datetime_now sys w1) as [t1 w2].
  destruct (datetime_now sys w2) as [t2 w3].
  cbn [create_session]. intros [= <- _ <-]. by exists u, t1, t2.
Qed.

Lemma triple_get_or_create request store0 :
  store_wf store0 ->
  triple (fun store => store = store0) (get_or_create sys request)
    (fun session store =>
       turn_session request store0 session
       /\ only_session_changed store0 (session_id session) (fun s => s = session) store).
Proof.
  intros Hwf. unfold get_or_create, turn_session.
  destruct (str_truthy (sreq_session_id request)).
  - set (k := default "" (sreq_session_id request)).
    eapply triple_bind; [apply (triple_timed sys _ (fun t => get_session t k))|].
    intros [s|]; [|apply triple_raise].
    eapply triple_post; [apply triple_ret|].
    intros session store' (-> & now & store & -> & Hget).
    unfold get_session in Hget.
    destruct (sessions store0 !! k) as [s0|] eqn:Es; [|discriminate].
    destruct (bool_decide _); [discriminate|]. injection Hget as <- <-.
    split; [reflexivity|]. rewrite (Hwf _ _ Es).
    split; [done|]. intros x Hx. congruence.
  - eapply triple_bind; [apply triple_store_create_session|]. intros session.
    eapply triple_bind; [apply triple_mk_ChatMessage|]. intros wm.
    eapply triple_bind; [apply (triple_timed sys _
                                  (fun t => add_message_to_session t (session_id session) wm))|].
    intros b.
    eapply triple_post; [apply triple_sync|].
    intros s' store' ((now & store & ((u & t1 & t2 & -> & ->) & Hrole & Hcontent) & Hadd)
                      & ->).
    unfold add_message_to_session in Hadd.
    cbn [session_id new_ChatSession sessions set_sessions] in Hadd.
    rewrite lookup_insert_eq in Hadd. injection Hadd as _ <-.
    unfold deref. cbn [session_id new_ChatSession sessions set_sessions].
    rewrite lookup_insert_eq. cbn [default session_id conversation_history
                                    cs_user_profile current_phase app].
    split.
    + exists (cm_timestamp wm). destruct wm as [r c t]; simpl in *. by subst.
    + split.
      * intros k Hne. cbn [sessions set_sessions]. by rewrite !lookup_insert_ne.
      * intros x. cbn [sessions set_sessions]. rewrite lookup_insert_eq. by intros [= <-].
Qed.
Lemma triple_pure_r {T} (fact : Prop) (P : SessionStore -> Prop)
    (m : M (W * SessionStore) T) (Q : T -> SessionStore -> Prop) :
  (fact -> triple P m Q) -> triple (fun store => P store /\ fact) m Q.
Proof. intros H w store [HP Hf]. by apply H. Qed.

Lemma session_is_refl s :
  session_is s (conversation_history s) (cs_user_profile s) (current_phase s) s.
Proof. by repeat split. Qed.

(** The specification of a completed turn. *)
Lemma triple_stateful_chat_body request store0 :
  store_wf store0 ->
  triple (fun store => store = store0) (stateful_chat_body self sys request)
    (fun resp store' =>
       exists session,
         turn_session request store0 session
         /\ turn_outcome request store0 session resp store').
Proof.
  intros Hwf. unfold stateful_chat_body.
  destruct (strip_is_empty (sreq_message request)); [apply triple_raise|].
  eapply triple_bind; [by apply triple_get_or_create|]. intros session0.
  apply triple_pure. intros Hturn. cbv zeta.
  set (sid := session_id session0).
  set (h0 := conversation_history session0).
  set (p0 := cs_user_profile session0).
  set (ph0 := current_phase session0).
  (* the user message *)
  eapply triple_bind; [apply triple_mk_ChatMessage|]. intros um.
  apply triple_pure_r. intros [Hur Huc].
  eapply triple_bind with
    (R := fun _ => only_session_changed store0 sid
                     (session_is session0 (h0 ++ [um]) p0 ph0)).
  { eapply triple_post;
      [apply (triple_timed sys _ (fun t => add_message_to_session t sid um))|].
    intros r store' (now & store & Hinv & Hadd).
    eapply add_message_one; [exact Hinv | exact Hadd|]. by intros s ->. }
  intros b0.
  eapply triple_bind with
    (R := fun session1 store =>
            only_session_changed store0 sid
              (fun s => session_is session0 (h0 ++ [um]) p0 ph0 s /\ s = session1) store
            /\ (session_id session1 = sid /\ cs_user_profile session1 = p0
                /\ current_phase session1 = ph0)).
  { eapply triple_post; [apply triple_sync|].
    intros session1 store [Hinv ->].
    destruct (deref_one store0 sid _
                (fun s => session_id s = sid /\ cs_user_profile s = p0
                          /\ current_phase s = ph0)
                store session0 Hinv eq_refl) as [HL Hinv']; [done| |by split].
    by intros s (? & ? & ? & ? & ?). }
  intros session1. apply triple_pure_r. intros (Hid1 & Hp1 & Hph1).
  (* the history handed to the workflow *)
  eapply triple_bind with
    (R := fun _ => only_session_changed store0 sid
                     (fun s => session_is session0 (h0 ++ [um]) p0 ph0 s /\ s = session1)).
  { eapply triple_post;
      [apply (triple_timed sys _ (fun t => get_langchain_messages t sid))|].
    intros r store' (now & store & Hinv & Hget).
    by eapply get_langchain_messages_one. }
  intros langchain_messages.
  eapply triple_bind; [apply triple_run_workflow|].
  intros [steps [e|]]; [apply triple_raise|].
  destruct (last steps) as [final_step|]; [|apply triple_raise].
  destruct (extract_response_from_workflow_result (chunk_of final_step))
    as [[response_message updated_user_profile] workflow_phase].
  apply triple_pure_r. intros _.
  set (reply := if bool_decide (response_message = "") then apology else response_message).
  set (p2 := match updated_user_profile with Some p => Some p | None => p0 end).
  (* the profile *)
  eapply triple_bind with
    (R := fun _ => only_session_changed store0 sid
                     (session_is session0 (h0 ++ [um]) p2 ph0)).
  { destruct updated_user_profile as [profile|].
    - destruct (bool_decide_reflect (Some profile <> cs_user_profile session1))
        as [Hdiff|Hsame].
      + eapply triple_post;
          [apply (triple_timed sys _ (fun t => update_session_profile t sid profile))|].
        intros r store' (now & store & Hinv & Hupd).
        eapply update_profile_one; [exact Hinv | exact Hupd|].
        by intros s ((? & ? & ? & ? & ?) & _).
      + eapply triple_post; [apply triple_ret|].
        intros r store [_ Hinv].
        eapply only_session_changed_impl; [exact Hinv|].
        intros s ((? & ? & ? & Hp & ?) & _). repeat split; try done.
        rewrite Hp. subst p2. rewrite <- Hp1.
        destruct (decide (Some profile = cs_user_profile session1)); [done|].
        by destruct Hsame.
    - eapply triple_post; [apply triple_ret|].
      intros r store [_ Hinv].
      eapply only_session_changed_impl; [exact Hinv|]. by intros s [? _]. }
  intros b1.
  eapply triple_bind with
    (R := fun session2 store =>
            only_session_changed store0 sid
              (fun s => session_is session0 (h0 ++ [um]) p2 ph0 s /\ s = session2) store
            /\ (session_id session2 = sid /\ current_phase session2 = ph0)).
  { eapply triple_post; [apply triple_sync|].
    intros session2 store [Hinv ->].
    destruct (deref_one store0 sid _
                (fun s => session_id s = sid /\ current_phase s = ph0)
                store session1 Hinv Hid1) as [HL Hinv']; [done| |by split].
    by intros s (? & ? & ? & ? & ?). }
  intros session2. apply triple_pure_r. intros (Hid2 & Hph2).
  (* the phase *)
  set (ph3 := if str_truthy (Some workflow_phase)
                 && bool_decide (workflow_phase <> current_phase session2)
              then workflow_phase else ph0).
  eapply triple_bind with
    (R := fun _ => only_session_changed store0 sid
                     (session_is session0 (h0 ++ [um]) p2 ph3)).
  { subst ph3.
    destruct (str_truthy (Some workflow_phase)
              && bool_decide (workflow_phase <> current_phase session2)).
    - eapply triple_post;
        [apply (triple_timed sys _
                  (fun t => update_session_phase t sid workflow_phase))|].
      intros r store' (now & store & Hinv & Hupd).
      eapply update_phase_one; [exact Hinv | exact Hupd|].
      by intros s ((? & ? & ? & ? & ?) & _).
    - eapply triple_post; [apply triple_ret|].
      intros r store [_ Hinv].
      eapply only_session_changed_impl; [exact Hinv|]. by intros s [? _]. }
  intros b2.
  eapply triple_bind with
    (R := fun session3 store =>
            only_session_changed store0 sid
              (session_is session0 (h0 ++ [um]) p2 ph3) store
            /\ session_id session3 = sid).
  { eapply triple_post; [apply triple_sync|].
    intros session3 store [Hinv ->].
    destruct (deref_one store0 sid _ (fun s => session_id s = sid)
                store session2 Hinv Hid2) as [HL Hinv']; [done| |].
    - by intros s (? & ? & ? & ? & ?).
    - split; [|exact HL]. eapply only_session_changed_impl; [exact Hinv'|].
      by intros s [? _]. }
  intros session3. apply triple_pure_r. intros Hid3.
  (* the reply *)
  eapply triple_bind; [apply triple_mk_ChatMessage|]. intros am.
  apply triple_pure_r. intros [Har Hac].
  eapply triple_bind with
    (R := fun _ => only_session_changed store0 sid
                     (session_is session0 ((h0 ++ [um]) ++ [am]) p2 ph3)).
  { eapply triple_post;
      [apply (triple_timed sys _ (fun t => add_message_to_session t sid am))|].
    intros r store' (now & store & Hinv & Hadd).
    eapply add_message_one; [exact Hinv | exact Hadd|].
    intros s (? & ? & Hh & ? & ?). repeat split; try done. simpl. by rewrite Hh. }
  intros b3.
  eapply triple_bind with
    (R := fun session4 =>
            only_session_changed store0 sid
              (fun s => session_is session0 ((h0 ++ [um]) ++ [am]) p2 ph3 s
                        /\ s = session4)).
  { eapply triple_post; [apply triple_sync|].
    intros session4 store [Hinv ->].
    by destruct (deref_one store0 sid _ (fun _ => True) store session3 Hinv Hid3). }
  intros session4.
  eapply triple_bind;
    [apply (triple_timed sys _ (fun t => get_session t sid))|].
  intros updated_session.
  eapply triple_post; [apply triple_ret|].
  intros resp store' (-> & now & store & Hinv & Hget).
  destruct (get_session_one store0 sid _ _ _ _ _ Hinv Hget) as (Hinv' & Hsome & Hnone).
  exists session0. split; [exact Hturn|].
  split; [reflexivity|]. split; [by destruct Hinv'|].
  intros s' Hs'. fold sid in Hs'.
  destruct updated_session as [s|]; [|rewrite (Hnone eq_refl) in Hs'; discriminate].
  destruct (Hsome s eq_refl) as [-> Hs]. rewrite Hs in Hs'. injection Hs' as <-.
  destruct Hinv as [_ Hentry].
  destruct (Hentry s Hs) as ((_ & Hc & Hh & Hp & Hph) & <-).
  cbn [sresp_message sresp_phase sresp_user_profile sresp_requires_confirmation].
  split.
  { rewrite Hh, !fmap_app. simpl. unfold role_and_content at 2 3.
    rewrite Hur, Huc, Har, Hac. by rewrite <- app_assoc. }
  split; [exact Hc|]. split; [reflexivity|]. split; [reflexivity|].
  rewrite Hp. subst p2.
  destruct updated_user_profile; simpl; [by rewrite andb_false_r | done].
Qed.
End TurnSpec.

(** ** The stateful endpoint: what a turn leaves behind *)

Definition dana_stateful_request : StatefulChatRequest :=
  {| sreq_message := "Hi, I'm Dana Cohen";
     sreq_session_id := Some "s1";
     sreq_debug := false |}.

Definition dana_stateful_response : StatefulChatResponse :=
  {| sresp_message := "Welcome, Dana";
     sresp_session_id := "s1";
     sresp_user_profile := Some dana;
     sresp_phase := "qa";
     sresp_requires_confirmation := false |}.

(** The store in which session [s1] has just been created, and what the
    turn of [dana_stateful_request] leaves of it. *)
Definition dana_store_after : SessionStore :=
  (stateful_chat (stub_workflow (json_text dana_fields) true) stub_system
     dana_stateful_request (dana_script, fresh_store)).2.2.

Definition dana_session_after : ChatSession :=
  {| session_id := "s1";
     conversation_history :=
       [{| cm_role := "user"; cm_content := "Hi, I'm Dana Cohen"; cm_timestamp := 0 |};
        {| cm_role := "assistant"; cm_content := "Welcome, Dana"; cm_timestamp := 0 |}];
     cs_user_profile := Some dana;
     current_phase := "qa";
     created_at := 0;
     last_activity := 0 |}.

Lemma fresh_store_wf : store_wf fresh_store.
Proof. apply store_wf_insert; [apply session_store_wf | reflexivity]. Qed.

Lemma fresh_store_lookup : sessions fresh_store !! "s1" = Some (new_ChatSession "s1" 0 0).
Proof. apply lookup_insert_eq. Qed.

Lemma dana_stateful_chat :
  stateful_chat (stub_workflow (json_text dana_fields) true) stub_system
    dana_stateful_request (dana_script, fresh_store)
  = (Ok dana_stateful_response, ([], dana_store_after)).
Proof. vm_compute. reflexivity. Qed.

Lemma dana_store_after_lookup : sessions dana_store_after !! "s1" = Some dana_session_after.
Proof. vm_compute. reflexivity. Qed.

(** A first message without a session identifier. *)
Definition opening_request : StatefulChatRequest :=
  {| sreq_message := "hello"; sreq_session_id := None; sreq_debug := false |}.

Definition opening_response : StatefulChatResponse :=
  {| sresp_message := "What is your name?";
     sresp_session_id := "session-1";
     sresp_user_profile := None;
     sresp_phase := "collection";
     sresp_requires_confirmation := false |}.

Definition opening_store_after : SessionStore :=
  (stateful_chat (stub_workflow (json_text dana_fields) true) stub_system
     opening_request ([final_text "What is your name?"], session_store)).2.2.

Definition opening_session_after : ChatSession :=
  {| session_id := "session-1";
     conversation_history :=
       [{| cm_role := "assistant"; cm_content := welcome_message; cm_timestamp := 0 |};
        {| cm_role := "user"; cm_content := "hello"; cm_timestamp := 0 |};
        {| cm_role := "assistant"; cm_content := "What is your name?";
           cm_timestamp := 0 |}];
     cs_user_profile := None;
     current_phase := "collection";
     created_at := 0;
     last_activity := 0 |}.

Lemma opening_stateful_chat :
  stateful_chat (stub_workflow (json_text dana_fields) true) stub_system
    opening_request ([final_text "What is your name?"], session_store)
  = (Ok opening_response, ([], opening_store_after)).
Proof. vm_compute. reflexivity. Qed.

Lemma opening_store_after_lookup :
  sessions opening_store_after !! "session-1" = Some opening_session_after.
Proof. vm_compute. reflexivity. Qed.

Section StatefulTurn.
Context {W : Type} (self : Workflow W) (sys : System W).

Lemma stateful_chat_ok request ws resp ws' :
  stateful_chat self sys request ws = (Ok resp, ws') ->
  stateful_chat_body self sys request ws = (Ok resp, ws').
Proof.
  unfold stateful_chat.
  destruct (stateful_chat_body self sys request ws) as [[r|e] ws1];
    [done | discriminate].
Qed.

Lemma stateful_turn request w store0 resp w' store' :
  store_wf store0 ->
  stateful_chat self sys request (w, store0) = (Ok resp, (w', store')) ->
  exists session,
    turn_session request store0 session
    /\ turn_outcome request store0 session resp store'.
Proof.
  intros Hwf Hok. apply stateful_chat_ok in Hok.
  exact (triple_stateful_chat_body self sys request store0 Hwf w store0 eq_refl
           _ _ _ Hok).
Qed.

Lemma turn_session_named request sid store0 session :
  store_wf store0 -> sreq_session_id request = Some sid -> sid <> "" ->
  turn_session request store0 session ->
  sessions store0 !! sid = Some session /\ session_id session = sid.
Proof.
  intros Hwf Hsid Hne. unfold turn_session. rewrite Hsid. simpl.
  rewrite bool_decide_eq_false_2 by done. simpl.
  intros H. split; [exact H | by apply (Hwf _ _ H)].
Qed.

(** X17. A completed turn on an existing session answers under the same
    session identifier, and the stored history of that session has grown by
    exactly two messages: the user's message and the reply that the response
    carries, in this order.  Its time of creation is unchanged. *)
Theorem stateful_chat_appends_message_and_reply request sid w store0 resp w' store' :
  store_wf store0 ->
  sreq_session_id request = Some sid -> sid <> "" ->
  stateful_chat self sys request (w, store0) = (Ok resp, (w', store')) ->
  sresp_session_id resp = sid
  /\ exists s0,
       sessions store0 !! sid = Some s0
       /\ forall s', sessions store' !! sid = Some s' ->
            role_and_content <$> conversation_history s'
            = (role_and_content <$> conversation_history s0)
              ++ [("user", sreq_message request); ("assistant", sresp_message resp)]
            /\ created_at s' = created_at s0.
Proof.
  intros Hwf Hsid Hne Hok.
  destruct (stateful_turn _ _ _ _ _ _ Hwf Hok) as (session & Hturn & Hid & _ & Hout).
  destruct (turn_session_named _ _ _ _ Hwf Hsid Hne Hturn) as [Hs0 Hids].
  rewrite Hids in *. split; [exact Hid|].
  exists session. split; [exact Hs0|].
  intros s' Hs'. by destruct (Hout s' Hs') as (? & ? & _).
Qed.

(** X18. A completed turn of a request without a session identifier leaves
    a session whose history is the welcome message, the user's message and
    the reply, and nothing else. *)
Theorem stateful_chat_opens_with_welcome request w store0 resp w' store' s' :
  store_wf store0 ->
  str_truthy (sreq_session_id request) = false ->
  stateful_chat self sys request (w, store0) = (Ok resp, (w', store')) ->
  sessions store' !! sresp_session_id resp = Some s' ->
  role_and_content <$> conversation_history s'
  = [("assistant", welcome_message); ("user", sreq_message request);
     ("assistant", sresp_message resp)].
Proof.
  intros Hwf Hnew Hok Hs'.
  destruct (stateful_turn _ _ _ _ _ _ Hwf Hok) as (session & Hturn & Hid & _ & Hout).
  unfold turn_session in Hturn. rewrite Hnew in Hturn.
  destruct Hturn as (t & Hh & _). rewrite Hid in Hs'.
  destruct (Hout s' Hs') as (-> & _). by rewrite Hh.
Qed.

(** X19. A completed turn changes no session other than the one it
    answers for: none is added, removed or modified. *)
Theorem stateful_chat_touches_one_session request w store0 resp w' store' k :
  store_wf store0 ->
  stateful_chat self sys request (w, store0) = (Ok resp, (w', store')) ->
  k <> sresp_session_id resp ->
  sessions store' !! k = sessions store0 !! k.
Proof.
  intros Hwf Hok Hk.
  destruct (stateful_turn _ _ _ _ _ _ Hwf Hok) as (session & _ & Hid & Hframe & _).
  apply Hframe. by rewrite <- Hid.
Qed.

(** X20. The phase and the profile of a response are those of the stored
    session after the turn, whatever the run of the workflow reported. *)
Theorem stateful_chat_reports_stored_session request w store0 resp w' store' s' :
  store_wf store0 ->
  stateful_chat self sys request (w, store0) = (Ok resp, (w', store')) ->
  sessions store' !! sresp_session_id resp = Some s' ->
  sresp_phase resp = current_phase s'
  /\ sresp_user_profile resp = cs_user_profile s'.
Proof.
  intros Hwf Hok Hs'.
  destruct (stateful_turn _ _ _ _ _ _ Hwf Hok) as (session & _ & Hid & _ & Hout).
  rewrite Hid in Hs'. by destruct (Hout s' Hs') as (_ & _ & ? & ? & _).
Qed.

(** X21. The stateful endpoint never asks for confirmation while the
    session exists: the flag is computed from the session object after the
    extracted profile has been stored in it, so the test that the session
    has no profile fails exactly when a profile was extracted. *)
Theorem stateful_chat_never_requires_confirmation request w store0 resp w' store' :
  store_wf store0 ->
  stateful_chat self sys request (w, store0) = (Ok resp, (w', store')) ->
  is_Some (sessions store' !! sresp_session_id resp) ->
  sresp_requires_confirmation resp = false.
Proof.
  intros Hwf Hok [s' Hs'].
  destruct (stateful_turn _ _ _ _ _ _ Hwf Hok) as (session & _ & Hid & _ & Hout).
  rewrite Hid in Hs'. by destruct (Hout s' Hs') as (_ & _ & _ & _ & ?).
Qed.
End StatefulTurn.

Lemma stateful_chat_appends_witness :
  sresp_session_id dana_stateful_response = "s1"
  /\ exists s0,
       sessions fresh_store !! "s1" = Some s0
       /\ forall s', sessions dana_store_after !! "s1" = Some s' ->
            role_and_content <$> conversation_history s'
            = (role_and_content <$> conversation_history s0)
              ++ [("user", sreq_message dana_stateful_request);
                  ("assistant", sresp_message dana_stateful_response)]
            /\ created_at s' = created_at s0.
Proof.
  refine (stateful_chat_appends_message_and_reply
            (stub_workflow (json_text dana_fields) true) stub_system
            dana_stateful_request "s1" dana_script fresh_store
            dana_stateful_response [] dana_store_after
            fresh_store_wf eq_refl _ dana_stateful_chat).
  discriminate.
Defined.

Lemma stateful_chat_opens_with_welcome_witness :
  role_and_content <$> conversation_history opening_session_after
  = [("assistant", welcome_message); ("user", sreq_message opening_request);
     ("assistant", sresp_message opening_response)].
Proof.
  exact (stateful_chat_opens_with_welcome
           (stub_workflow (json_text dana_fields) true) stub_system
           opening_request [final_text "What is your name?"] session_store
           opening_response [] opening_store_after opening_session_after
           session_store_wf eq_refl opening_stateful_chat opening_store_after_lookup).
Defined.

Lemma stateful_chat_touches_one_session_witness :
  sessions dana_store_after !! "s2" = sessions fresh_store !! "s2".
Proof.
  refine (stateful_chat_touches_one_session
            (stub_workflow (json_text dana_fields) true) stub_system
            dana_stateful_request dana_script fresh_store
            dana_stateful_response [] dana_store_after "s2"
            fresh_store_wf dana_stateful_chat _).
  discriminate.
Defined.

Lemma stateful_chat_reports_stored_session_witness :
  sresp_phase dana_stateful_response = current_phase dana_session_after
  /\ sresp_user_profile dana_stateful_response = cs_user_profile dana_session_after.
Proof.
  exact (stateful_chat_reports_stored_session
           (stub_workflow (json_text dana_fields) true) stub_system
           dana_stateful_request dana_script fresh_store
           dana_stateful_response [] dana_store_after dana_session_after
           fresh_store_wf dana_stateful_chat dana_store_after_lookup).
Defined.

Lemma stateful_chat_never_requires_confirmation_witness :
  resp_requires_confirmation dana_response = true
  /\ sresp_requires_confirmation dana_stateful_response = false.
Proof.
  split; [reflexivity|].
  exact (stateful_chat_never_requires_confirmation
           (stub_workflow (json_text dana_fields) true) stub_system
           dana_stateful_request dana_script fresh_store
           dana_stateful_response [] dana_store_after
           fresh_store_wf dana_stateful_chat
           (ex_intro _ dana_session_after dana_store_after_lookup)).
Defined.

(** ** The stateful endpoint: failed turns

    [raises P m Q]: when [m] starts in a store satisfying [P] and raises, the
    store it leaves satisfies [Q].  [never_raises m]: [m] returns. *)
Definition raises {W T} (P : SessionStore -> Prop) (m : M (W * SessionStore) T)
    (Q : SessionStore -> Prop) : Prop :=
  forall w store, P store ->
    forall e w' store', m (w, store) = (Raise e, (w', store')) -> Q store'.

Definition never_raises {W T} (m : M (W * SessionStore) T) : Prop :=
  forall ws e ws', m ws <> (Raise e, ws').

Section RaisesRules.
Context {W : Type} (self : Workflow W) (sys : System W).

Lemma raises_never {T} P (m : M (W * SessionStore) T) Q :
  never_raises m -> raises P m Q.
Proof. intros Hn w store _ e w' store' E. by destruct (Hn _ _ _ E). Qed.

Lemma raises_raise {T} (P : SessionStore -> Prop) e :
  raises (W := W) (T := T) P (raise e) P.
Proof. intros w store HP e' w' store'. by intros [= _ _ <-]. Qed.

Lemma raises_post {T} P (Q Q' : SessionStore -> Prop) (m : M (W * SessionStore) T) :
  raises P m Q -> (forall store, Q store -> Q' store) -> raises P m Q'.
Proof. intros Hm Himp w store HP e w' store' E. by eapply Himp, Hm. Qed.

Lemma raises_bind {A B} P (R : A -> SessionStore -> Prop) Q
    (m : M (W * SessionStore) A) (k : A -> M (W * SessionStore) B) :
  triple P m R -> raises P m Q -> (forall a, raises (R a) (k a) Q) ->
  raises P (bind m k) Q.
Proof.
  intros Hm Hr Hk w store HP e w' store'. unfold bind.
  destruct (m (w, store)) as [[a|e0] [w1 store1]] eqn:Em.
  - intros Hka. eapply Hk; [|exact Hka]. by eapply Hm.
  - intros [= _ <- <-]. by eapply Hr.
Qed.

Lemma raises_pure {T} (fact : Prop) P (m : M (W * SessionStore) T) Q :
  (fact -> raises P m Q) -> raises (fun store => fact /\ P store) m Q.
Proof. intros H w store [Hf HP]. by apply H. Qed.

Lemma raises_pure_r {T} (fact : Prop) P (m : M (W * SessionStore) T) Q :
  (fact -> raises P m Q) -> raises (fun store => P store /\ fact) m Q.
Proof. intros H w store [HP Hf]. by apply H. Qed.

Lemma never_raises_ret {T} (a : T) : never_raises (W := W) (ret a).
Proof. by intros ws e ws'. Qed.

Lemma never_raises_bind {A B} (m : M (W * SessionStore) A)
    (k : A -> M (W * SessionStore) B) :
  never_raises m -> (forall a, never_raises (k a)) -> never_raises (bind m k).
Proof.
  intros Hm Hk ws e ws'. unfold bind.
  destruct (m ws) as [[a|e0] ws1] eqn:Em; [apply Hk|].
  by destruct (Hm _ _ _ Em).
Qed.

Lemma never_raises_now : never_raises (now_ sys).
Proof. intros [w store] e ws'. unfold now_. by destruct (datetime_now sys w). Qed.

Lemma never_raises_on_store {T} (method : SessionStore -> T * SessionStore) :
  never_raises (W := W) (on_store method).
Proof. intros [w store] e ws'. unfold on_store. by destruct (method store). Qed.

Lemma never_raises_timed {T} (method : Z -> SessionStore -> T * SessionStore) :
  never_raises (bind (now_ sys) (fun t => on_store (method t))).
Proof.
  apply never_raises_bind; [apply never_raises_now|].
  intros t. apply never_raises_on_store.
Qed.

Lemma never_raises_sync session : never_raises (W := W) (sync session).
Proof. by intros [w store] e ws'. Qed.

Lemma never_raises_run_workflow input : never_raises (run_workflow self input).
Proof.
  intros [w store] e ws'. unfold run_workflow.
  by destruct (stream self input recursion_limit w).
Qed.

Lemma never_raises_mk_ChatMessage role content :
  never_raises (mk_ChatMessage sys role content).
Proof.
  apply never_raises_bind; [apply never_raises_now|].
  intros t. apply never_raises_ret.
Qed.
End RaisesRules.

(** A request whose message is blank. *)
Definition blank_stateful_request : StatefulChatRequest :=
  {| sreq_message := unicode_blank; sreq_session_id := Some "s1"; sreq_debug := false |}.

Section FailedTurns.
Context {W : Type} (self : Workflow W) (sys : System W).

Lemma stateful_chat_raise request ws e ws' :
  stateful_chat self sys request ws = (Raise e, ws') ->
  e = HTTPException 500 "Internal server error"
  /\ exists e0, stateful_chat_body self sys request ws = (Raise e0, ws').
Proof.
  unfold stateful_chat.
  destruct (stateful_chat_body self sys request ws) as [[r|e0] ws1];
    [discriminate|].
  intros [= <- <-]. split; [reflexivity | by exists e0].
Qed.

(** X22. A request that is rejected before a session is found (its message
    is blank, or it names a session that is not stored) leaves the store
    exactly as it was, and no session is created for it.  The caller sees a
    server error, not the status 400 or 404 raised inside. *)
Theorem stateful_chat_rejection_leaves_store request w store :
  strip_is_empty (sreq_message request) = true
  \/ (exists sid, sreq_session_id request = Some sid /\ sid <> ""
                  /\ sessions store !! sid = None) ->
  exists w',
    stateful_chat self sys request (w, store)
    = (Raise (HTTPException 500 "Internal server error"), (w', store)).
Proof.
  intros Hrej. unfold stateful_chat, stateful_chat_body.
  destruct (strip_is_empty (sreq_message request)) eqn:Eblank.
  { by exists w. }
  destruct Hrej as [?|(sid & Hsid & Hne & Hnone)]; [discriminate|].
  unfold get_or_create. rewrite Hsid. simpl.
  rewrite bool_decide_eq_false_2 by done. simpl.
  unfold bind at 1 2. unfold store_get_session, bind, now_, on_store.
  destruct (datetime_now sys w) as [t w1].
  unfold get_session. rewrite Hnone. by exists w1.
Qed.

(** X23. A turn on an existing session, with a message that is not
    blank, that fails after the session was found (the run of the workflow
    raised, or produced no step) still leaves
    the user's message in the stored history: the history has grown by that
    one message, profile and phase are as before, and the other sessions
    are untouched.  When the failure is that the session had expired, the
    session is gone. *)
Theorem stateful_chat_failure_keeps_user_message request sid w store0 s0 e w' store' :
  store_wf store0 ->
  sreq_session_id request = Some sid -> sid <> "" ->
  sessions store0 !! sid = Some s0 ->
  strip_is_empty (sreq_message request) = false ->
  stateful_chat self sys request (w, store0) = (Raise e, (w', store')) ->
  (forall k, k <> sid -> sessions store' !! k = sessions store0 !! k)
  /\ forall s', sessions store' !! sid = Some s' ->
       role_and_content <$> conversation_history s'
       = (role_and_content <$> conversation_history s0)
         ++ [("user", sreq_message request)]
       /\ cs_user_profile s' = cs_user_profile s0
       /\ current_phase s' = current_phase s0.
Proof.
  intros Hwf Hsid Hne Hs0 Hmsg Hfail.
  apply stateful_chat_raise in Hfail as (_ & e0 & Hfail).
  set (Q := only_session_changed store0 sid
              (fun s' =>
                 role_and_content <$> conversation_history s'
                 = (role_and_content <$> conversation_history s0)
                   ++ [("user", sreq_message request)]
                 /\ cs_user_profile s' = cs_user_profile s0
                 /\ current_phase s' = current_phase s0)).
  cut (raises (fun store => store = store0) (stateful_chat_body self sys request) Q).
  { intros Hr. exact (Hr w store0 eq_refl e0 w' store' Hfail). }
  clear Hfail. unfold stateful_chat_body. rewrite Hmsg.
  eapply raises_bind; [by apply triple_get_or_create| |].
  - (* the session was not returned: it had expired and was removed *)
    unfold get_or_create. rewrite Hsid. simpl.
    rewrite bool_decide_eq_false_2 by done. simpl.
    eapply raises_bind;
      [apply (triple_timed sys _ (fun t => get_session t sid))
      |apply raises_never, never_raises_timed|].
    intros [s|]; [apply raises_never, never_raises_ret|].
    eapply raises_post; [apply raises_raise|].
    intros store (now & store1 & -> & Hget).
    unfold get_session in Hget. rewrite Hs0 in Hget.
    destruct (bool_decide _); [|discriminate]. injection Hget as <-.
    split.
    + intros k Hk. simpl. by rewrite lookup_delete_ne.
    + intros s'. simpl. by rewrite lookup_delete_eq.
  - intros session0. apply raises_pure. intros Hturn.
    destruct (turn_session_named _ _ _ _ Hwf Hsid Hne Hturn) as [Hl Hid0].
    assert (session0 = s0) as -> by congruence.
    cbv zeta. rewrite Hid0.
    set (h0 := conversation_history s0).
    set (p0 := cs_user_profile s0).
    set (ph0 := current_phase s0).
    eapply raises_bind;
      [apply triple_mk_ChatMessage | apply raises_never, never_raises_mk_ChatMessage|].
    intros um. apply raises_pure_r. intros [Hur Huc].
    assert (HQ : forall store,
               only_session_changed store0 sid
                 (session_is s0 (h0 ++ [um]) p0 ph0) store -> Q store).
    { intros store Hinv. eapply only_session_changed_impl; [exact Hinv|].
      intros s (_ & _ & Hh & Hp & Hph). split; [|by split].
      rewrite Hh, fmap_app. simpl. unfold role_and_content at 2.
      by rewrite Hur, Huc. }
    eapply raises_bind with
      (R := fun _ => only_session_changed store0 sid
                       (session_is s0 (h0 ++ [um]) p0 ph0)).
    { eapply triple_post;
        [apply (triple_timed sys _ (fun t => add_message_to_session t sid um))|].
      intros r store1 (now & store & Hinv & Hadd).
      eapply add_message_one; [exact Hinv | exact Hadd|]. by intros s ->. }
    { apply raises_never, never_raises_timed. }
    intros b0.
    eapply raises_bind; [apply triple_sync | apply raises_never, never_raises_sync|].
    intros session1.
    eapply raises_bind with
      (R := fun _ => only_session_changed store0 sid
                       (session_is s0 (h0 ++ [um]) p0 ph0)).
    { eapply triple_post;
        [apply (triple_timed sys _ (fun t => get_langchain_messages t sid))|].
      intros r store1 (now & store & [Hinv _] & Hget).
      by eapply get_langchain_messages_one. }
    { apply raises_never, never_raises_timed. }
    intros langchain_messages.
    eapply raises_bind;
      [apply triple_run_workflow | apply raises_never, never_raises_run_workflow|].
    intros [steps [e1|]].
    { eapply raises_post; [apply raises_raise|]. intros store [Hinv _]. by apply HQ. }
    destruct (last steps) as [final_step|];
      [|eapply raises_post; [apply raises_raise|]; intros store [Hinv _]; by apply HQ].
    destruct (extract_response_from_workflow_result (chunk_of final_step))
      as [[response_message updated_user_profile] workflow_phase].
    apply raises_never.
    apply never_raises_bind.
    { destruct updated_user_profile as [profile|]; [|apply never_raises_ret].
      destruct (bool_decide _); [apply never_raises_timed | apply never_raises_ret]. }
    intros b1. apply never_raises_bind; [apply never_raises_sync|]. intros session2.
    apply never_raises_bind.
    { destruct (_ && _); [apply never_raises_timed | apply never_raises_ret]. }
    intros b2. apply never_raises_bind; [apply never_raises_sync|]. intros session3.
    apply never_raises_bind; [apply never_raises_mk_ChatMessage|]. intros am.
    apply never_raises_bind; [apply never_raises_timed|]. intros b3.
    apply never_raises_bind; [apply never_raises_sync|]. intros session4.
    apply never_raises_bind; [apply never_raises_timed|]. intros updated_session.
    apply never_raises_ret.
Qed.
End FailedTurns.

Lemma stateful_chat_rejection_witness :
  exists w',
    stateful_chat (stub_workflow (json_text dana_fields) true) stub_system
      blank_stateful_request (dana_script, fresh_store)
    = (Raise (HTTPException 500 "Internal server error"), (w', fresh_store)).
Proof.
  exact (stateful_chat_rejection_leaves_store
           (stub_workflow (json_text dana_fields) true) stub_system
           blank_stateful_request dana_script fresh_store (or_introl eq_refl)).
Defined.

(** The turn of [dana_stateful_request] when the model fails at once. *)
Definition failed_store_after : SessionStore :=
  (stateful_chat (stub_workflow (json_text dana_fields) true) stub_system
     dana_stateful_request ([], fresh_store)).2.2.

Lemma failed_stateful_chat :
  stateful_chat (stub_workflow (json_text dana_fields) true) stub_system
    dana_stateful_request ([], fresh_store)
  = (Raise (HTTPException 500 "Internal server error"), ([], failed_store_after)).
Proof. vm_compute. reflexivity. Qed.

Lemma stateful_chat_failure_witness :
  (forall k, k <> "s1" -> sessions failed_store_after !! k = sessions fresh_store !! k)
  /\ forall s', sessions failed_store_after !! "s1" = Some s' ->
       role_and_content <$> conversation_history s'
       = (role_and_content <$> conversation_history (new_ChatSession "s1" 0 0))
         ++ [("user", sreq_message dana_stateful_request)]
       /\ cs_user_profile s' = cs_user_profile (new_ChatSession "s1" 0 0)
       /\ current_phase s' = current_phase (new_ChatSession "s1" 0 0).
Proof.
  refine (stateful_chat_failure_keeps_user_message
            (stub_workflow (json_text dana_fields) true) stub_system
            dana_stateful_request "s1" [] fresh_store (new_ChatSession "s1" 0 0)
            (HTTPException 500 "Internal server error") [] failed_store_after
            fresh_store_wf eq_refl _ fresh_store_lookup eq_refl failed_stateful_chat).
  discriminate.
Defined.

(** The session of the failed turn does hold the user's message. *)
Example failed_turn_history :
  (fun s => role_and_content <$> conversation_history s)
    <$> sessions failed_store_after !! "s1"
  = Some [("user", "Hi, I'm Dana Cohen")].
Proof. vm_compute. reflexivity. Qed.

(** ** The session endpoints *)

(** X24. [POST /sessions] always succeeds.  It answers with the welcome
    text and the identifier of a session that is now stored, whose history
    is the welcome message alone, with no profile and in the collection
    phase; every other session is untouched. *)
Theorem create_session_endpoint_stores_welcome {W} (sys : System W) w store :
  exists sid w' store' s,
    Endpoints.create_session sys (w, store) = (Ok (sid, welcome_message), (w', store'))
    /\ sessions store' !! sid = Some s
    /\ session_id s = sid
    /\ role_and_content <$> conversation_history s = [("assistant", welcome_message)]
    /\ cs_user_profile s = None
    /\ current_phase s = "collection"
    /\ forall k, k <> sid -> sessions store' !! k = sessions store !! k.
Proof.
  unfold Endpoints.create_session, store_create_session, mk_ChatMessage,
    store_add_message, bind, fresh_uuid, now_, on_store, ret.
  destruct (uuid4 sys w) as [u w1].
  destruct (datetime_now sys w1) as [t1 w2].
  destruct (datetime_now sys w2) as [t2 w3].
  cbn [create_session].
  destruct (datetime_now sys w3) as [t3 w4].
  destruct (datetime_now sys w4) as [t4 w5].
  unfold add_message_to_session.
  cbn [session_id new_ChatSession sessions set_sessions].
  rewrite lookup_insert_eq.
  eexists u, w5, _, _. split; [reflexivity|].
  cbn [sessions set_sessions]. rewrite lookup_insert_eq.
  split; [reflexivity|]. repeat split.
  intros k Hk. by rewrite !lookup_insert_ne.
Qed.

(** X25. [DELETE /sessions/{id}] succeeds exactly when the session is
    stored and answers 404 otherwise; either way a following
    [GET /sessions/{id}] answers 404 and finds the store as the deletion
    left it. *)
Theorem deleted_session_is_not_found {W} (sys : System W) sid w store w2 :
  let deleted := Endpoints.delete_session (W := W) sid (w, store) in
  deleted.1 = (if bool_decide (is_Some (sessions store !! sid))
               then Ok "Session deleted successfully"
               else Raise (HTTPException 404 "Session not found"))
  /\ (forall k, k <> sid -> sessions deleted.2.2 !! k = sessions store !! k)
  /\ exists w3,
       Endpoints.get_session sys sid (w2, deleted.2.2)
       = (Raise (HTTPException 404 "Session not found or expired"), (w3, deleted.2.2)).
Proof.
  unfold Endpoints.delete_session, Endpoints.get_session, store_get_session,
    bind, on_store, now_, delete_session, get_session.
  destruct (datetime_now sys w2) as [t w3].
  destruct (sessions store !! sid) as [s|] eqn:Es; cbn.
  - rewrite lookup_delete_eq. split; [reflexivity|]. split.
    + intros k Hk. by rewrite lookup_delete_ne.
    + by exists w3.
  - rewrite Es. split; [reflexivity|]. split; [done|]. by exists w3.
Qed.

(** ** services/vector_service.py: the similarity search *)

Section SearchFacts.
Context {W Score Meta Vector : Type}.
Implicit Types (self : VectorService W Score Meta Vector).

(** The result made of one hit of the index, when both lookups succeed. *)
Definition hit_result self (hit : Score * Z) : option (RetrievalResult Score Meta) :=
  doc ← py_getitem (vs_documents self) hit.2;
  metadata ← py_getitem (vs_metadata self) hit.2;
  Some {| rr_content := doc; rr_metadata := metadata; rr_score := hit.1 |}.

(** How many hits the loop consumes before it stops at [k] results. *)
Definition hits_consumed (k : Z) : nat := Z.to_nat (Z.max k 1).

Lemma hit_result_eq self score idx :
  hit_result self (score, idx)
  = match py_getitem (vs_documents self) idx, py_getitem (vs_metadata self) idx with
    | Some doc, Some metadata =>
        Some {| rr_content := doc; rr_metadata := metadata; rr_score := score |}
    | _, _ => None
    end.
Proof.
  unfold hit_result. cbn [fst snd].
  destruct (py_getitem (vs_documents self) idx); [|reflexivity].
  by destruct (py_getitem (vs_metadata self) idx).
Qed.

Lemma mapM_cons_eq {A B} (f : A -> option B) x l :
  mapM f (x :: l) = (y ← f x; k ← mapM f l; Some (y :: k)).
Proof. reflexivity. Qed.

Lemma collect_results_mapM self k hits acc :
  collect_results self k hits acc
  = (rs ← mapM (hit_result self)
            (take (hits_consumed (k - Z.of_nat (length acc))) hits);
     Some (acc ++ rs)).
Proof.
  revert acc. induction hits as [|[score idx] rest IH]; intros acc.
  - rewrite take_nil. simpl. by rewrite app_nil_r.
  - assert (Hn : hits_consumed (k - Z.of_nat (length acc))
                 = S (Z.to_nat (Z.max (k - Z.of_nat (length acc)) 1) - 1))
      by (unfold hits_consumed; lia).
    rewrite Hn. cbn [take collect_results]. rewrite mapM_cons_eq, hit_result_eq.
    destruct (py_getitem (vs_documents self) idx) as [doc|]; [|reflexivity].
    destruct (py_getitem (vs_metadata self) idx) as [metadata|]; [|reflexivity].
    cbn [mbind option_bind]. rewrite length_app. cbn [length].
    destruct (Z.leb_spec k (Z.of_nat (length acc + 1))) as [Hk|Hk].
    + replace (Z.to_nat (Z.max (k - Z.of_nat (length acc)) 1) - 1) with 0 by lia.
      rewrite take_0. reflexivity.
    + rewrite IH, length_app. cbn [length].
      replace (hits_consumed (k - Z.of_nat (length acc + 1)))
        with (Z.to_nat (Z.max (k - Z.of_nat (length acc)) 1) - 1)
        by (unfold hits_consumed; lia).
      destruct (mapM _ _) as [rs|]; [|reflexivity].
      cbn. by rewrite <- app_assoc.
Qed.

Lemma search_unfold self query k w :
  search self query k w
  = match vs_index self with
    | None => (Ok [], w)
    | Some ntotal =>
        match embed_query self query w with
        | (Raise _, w1) => (Ok [], w1)
        | (Ok query_vector, w1) =>
            match index_search self query_vector (Z.min k ntotal) w1 with
            | (Raise _, w2) => (Ok [], w2)
            | (Ok (scores, indexes), w2) =>
                (Ok (default [] (mapM (hit_result self)
                                   (take (hits_consumed k) (py_zip scores indexes)))),
                 w2)
            end
        end
    end.
Proof.
  unfold search.
  destruct (vs_index self) as [ntotal|]; [|reflexivity].
  destruct (embed_query self query w) as [[qv|e] w1]; [|reflexivity].
  destruct (index_search self qv (Z.min k ntotal) w1) as [[[scores indexes]|e] w2];
    [|reflexivity].
  rewrite collect_results_mapM. cbn [length]. rewrite Z.sub_0_r.
  by destruct (mapM _ _).
Qed.

(** X26. [search] never raises.  It returns at most [k] results (one, when
    [k] is below one), and every result pairs a document with the metadata
    stored at the same index. *)
Theorem search_results_bounded_and_paired self query k w :
  exists results w',
    search self query k w = (Ok results, w')
    /\ (Z.of_nat (length results) <= Z.max k 1)%Z
    /\ Forall (fun r =>
                 exists idx,
                   py_getitem (vs_documents self) idx = Some (rr_content r)
                   /\ py_getitem (vs_metadata self) idx = Some (rr_metadata r))
         results.
Proof.
  rewrite search_unfold.
  destruct (vs_index self) as [ntotal|];
    [|exists [], w; split; [done|]; split; [simpl; lia | constructor]].
  destruct (embed_query self query w) as [[qv|e] w1];
    [|exists [], w1; split; [done|]; split; [simpl; lia | constructor]].
  destruct (index_search self qv (Z.min k ntotal) w1) as [[[scores indexes]|e] w2];
    [|exists [], w2; split; [done|]; split; [simpl; lia | constructor]].
  destruct (mapM _ _) as [rs|] eqn:Em;
    [|exists [], w2; split; [done|]; split; [simpl; lia | constructor]].
  exists rs, w2. split; [reflexivity|].
  apply mapM_Some in Em. split.
  - rewrite <- (Forall2_length _ _ _ Em), length_take. unfold hits_consumed. lia.
  - clear -Em. induction Em as [|[score idx] r hits rs Hr _ IH]; constructor; [|exact IH].
    rewrite hit_result_eq in Hr. exists idx.
    destruct (py_getitem (vs_documents self) idx) as [doc|]; [|discriminate].
    destruct (py_getitem (vs_metadata self) idx) as [metadata|]; [|discriminate].
    by injection Hr as <-.
Qed.

(** X27. The search is all or nothing: when one of the hits that the loop
    reaches (the first [k], or the first one when [k] is below one) names an
    index outside the documents or outside the metadata, the results
    gathered before it are discarded and the answer is empty. *)
Theorem search_bad_index_discards_everything self query k w ntotal qv w1
    scores indexes w2 i score idx :
  vs_index self = Some ntotal ->
  embed_query self query w = (Ok qv, w1) ->
  index_search self qv (Z.min k ntotal) w1 = (Ok (scores, indexes), w2) ->
  py_zip scores indexes !! i = Some (score, idx) ->
  (Z.of_nat i < Z.max k 1)%Z ->
  py_getitem (vs_documents self) idx = None
  \/ py_getitem (vs_metadata self) idx = None ->
  search self query k w = (Ok [], w2).
Proof.
  intros Hindex Hembed Hsearch Hi Hlt Hbad.
  rewrite search_unfold, Hindex, Hembed, Hsearch.
  destruct (mapM _ _) as [rs|] eqn:Em; [|reflexivity].
  exfalso. apply mk_is_Some, mapM_is_Some in Em.
  rewrite Forall_lookup in Em.
  assert (Ht : take (hits_consumed k) (py_zip scores indexes) !! i = Some (score, idx)).
  { rewrite lookup_take_lt; [exact Hi|]. unfold hits_consumed. lia. }
  destruct (Em _ _ Ht) as [r Hr]. rewrite hit_result_eq in Hr.
  destruct Hbad as [Hb|Hb]; rewrite Hb in Hr; [discriminate|].
  by destruct (py_getitem (vs_documents self) idx).
Qed.

(** X28. When every hit that the loop reaches is in range, the results are
    those hits in the order of the index, each with the score the index
    gave it. *)
Theorem search_keeps_order_and_scores self query k w ntotal qv w1
    scores indexes w2 :
  vs_index self = Some ntotal ->
  embed_query self query w = (Ok qv, w1) ->
  index_search self qv (Z.min k ntotal) w1 = (Ok (scores, indexes), w2) ->
  Forall (fun hit => is_Some (py_getitem (vs_documents self) hit.2)
                     /\ is_Some (py_getitem (vs_metadata self) hit.2))
    (take (hits_consumed k) (py_zip scores indexes)) ->
  exists results,
    search self query k w = (Ok results, w2)
    /\ Forall2 (fun hit r =>
                  rr_score r = hit.1
                  /\ py_getitem (vs_documents self) hit.2 = Some (rr_content r)
                  /\ py_getitem (vs_metadata self) hit.2 = Some (rr_metadata r))
         (take (hits_consumed k) (py_zip scores indexes)) results.
Proof.
  intros Hindex Hembed Hsearch Hall.
  rewrite search_unfold, Hindex, Hembed, Hsearch.
  assert (Hsome : is_Some (mapM (hit_result self)
                             (take (hits_consumed k) (py_zip scores indexes)))).
  { apply mapM_is_Some. eapply Forall_impl; [exact Hall|].
    intros [score idx] [[doc Hd] [md Hm]]. cbn [snd] in Hd, Hm.
    unfold compose. rewrite hit_result_eq, Hd, Hm. by eexists. }
  destruct Hsome as [rs Em]. rewrite Em. exists rs. split; [reflexivity|].
  apply mapM_Some in Em. eapply Forall2_impl; [exact Em|].
  intros [score idx] r Hr. rewrite hit_result_eq in Hr. cbn [fst snd].
  destruct (py_getitem (vs_documents self) idx) as [doc|]; [|discriminate].
  destruct (py_getitem (vs_metadata self) idx) as [metadata|]; [|discriminate].
  by injection Hr as <-.
Qed.
End SearchFacts.

(** A small index of three documents; the search of the index answers with
    the first [k] of three canned hits. *)
Definition canned_index_search (k : Z) : M unit (list Z * list Z) :=
  ret (take (Z.to_nat k) [9; 7; 5]%Z, take (Z.to_nat k) [2; 0; 1]%Z).

Definition stub_vector_service : VectorService unit Z string unit :=
  {| vs_index := Some 3%Z;
     vs_documents := ["dental"; "optometry"; "pregnancy"];
     vs_metadata := ["dental.md"; "optometry.md"; "pregnancy.md"];
     embed_query := fun _ => ret tt;
     index_search := fun _ => canned_index_search |}.

(** The same index with a metadata list that lacks its last entry. *)
Definition stale_vector_service : VectorService unit Z string unit :=
  {| vs_index := Some 3%Z;
     vs_documents := ["dental"; "optometry"; "pregnancy"];
     vs_metadata := ["dental.md"; "optometry.md"];
     embed_query := fun _ => ret tt;
     index_search := fun _ => canned_index_search |}.

Lemma search_bad_index_witness :
  search stale_vector_service "teeth" 2 tt = (Ok [], tt).
Proof.
  refine (search_bad_index_discards_everything stale_vector_service "teeth" 2 tt
            3 tt tt [9; 7]%Z [2; 0]%Z tt 0 9%Z 2%Z
            eq_refl eq_refl eq_refl eq_refl _ (or_intror eq_refl)).
  reflexivity.
Defined.

Lemma stub_hits_in_range :
  Forall (fun hit : Z * Z =>
            is_Some (py_getitem (vs_documents stub_vector_service) hit.2)
            /\ is_Some (py_getitem (vs_metadata stub_vector_service) hit.2))
    (take (hits_consumed 2) (py_zip [9; 7]%Z [2; 0]%Z)).
Proof. repeat (constructor; [split; by eexists|]). constructor. Qed.

Lemma search_keeps_order_witness :
  exists results,
    search stub_vector_service "teeth" 2 tt = (Ok results, tt)
    /\ Forall2 (fun (hit : Z * Z) r =>
                  rr_score r = hit.1
                  /\ py_getitem (vs_documents stub_vector_service) hit.2
                     = Some (rr_content r)
                  /\ py_getitem (vs_metadata stub_vector_service) hit.2
                     = Some (rr_metadata r))
         (take (hits_consumed 2) (py_zip [9; 7]%Z [2; 0]%Z)) results.
Proof.
  exact (search_keeps_order_and_scores stub_vector_service "teeth" 2 tt
           3 tt tt [9; 7]%Z [2; 0]%Z tt eq_refl eq_refl eq_refl stub_hits_in_range).
Defined.

(** The search above, evaluated. *)
Example search_teeth :
  search stub_vector_service "teeth" 2 tt
  = (Ok [{| rr_content := "pregnancy"; rr_metadata := "pregnancy.md"; rr_score := 9%Z |};
         {| rr_content := "dental"; rr_metadata := "dental.md"; rr_score := 7%Z |}], tt).
Proof. reflexivity. Qed.

(** ** scripts/build_index.py: loading the documents *)

Section LoadDocuments.
Context (is_blank : string -> bool) (split_text : string -> list string)
  (markdown_files : list (string * string)).

(** The chunks of one file that are indexed. *)
Definition nonblank_chunks (file : string * string) : list string :=
  if is_blank file.2 then []
  else filter (fun chunk => is_blank chunk = false) (split_text file.2).

(** The metadata [md] describes the document [doc]: [doc] is the chunk
    number [chunk_id md] (counted from one) of a file of the folder. *)
Definition describes (doc : string) (md : ChunkMetadata) : Prop :=
  exists name text,
    (name, text) ∈ markdown_files
    /\ is_blank text = false
    /\ is_blank doc = false
    /\ source_file md = name
    /\ title md = first_line text
    /\ total_chunks md = length (split_text text)
    /\ 1 <= chunk_id md <= total_chunks md
    /\ split_text text !! (chunk_id md - 1) = Some doc.

Lemma add_chunks_documents name text total i chunks acc :
  (add_chunks is_blank name text total i chunks acc).1
  = acc.1 ++ filter (fun chunk => is_blank chunk = false) chunks.
Proof.
  revert i acc. induction chunks as [|chunk rest IH]; intros i acc.
  - simpl. by rewrite app_nil_r.
  - cbn [add_chunks]. rewrite IH, filter_cons.
    destruct (is_blank chunk) eqn:Eb.
    + by rewrite decide_False by done.
    + rewrite decide_True by done. cbn [fst]. by rewrite <- app_assoc.
Qed.

Lemma add_chunks_described name text i chunks acc :
  (name, text) ∈ markdown_files -> is_blank text = false ->
  (forall j c, chunks !! j = Some c -> split_text text !! (i + j) = Some c) ->
  Forall2 describes acc.1 acc.2 ->
  Forall2 describes
    (add_chunks is_blank name text (length (split_text text)) i chunks acc).1
    (add_chunks is_blank name text (length (split_text text)) i chunks acc).2.
Proof.
  intros Hin Htext. revert i acc.
  induction chunks as [|chunk rest IH]; intros i acc Hsuffix Hacc; [exact Hacc|].
  cbn [add_chunks]. apply IH.
  - intros j c Hj. replace (S i + j) with (i + S j) by lia. by apply Hsuffix.
  - destruct (is_blank chunk) eqn:Eb; [exact Hacc|]. cbn [fst snd].
    apply Forall2_app; [exact Hacc|]. constructor; [|constructor].
    pose proof (Hsuffix 0 chunk eq_refl) as Hi. rewrite Nat.add_0_r in Hi.
    pose proof (lookup_lt_Some _ _ _ Hi) as Hlt.
    exists name, text. cbn [chunk_id total_chunks source_file title].
    repeat split; try done; try lia.
    by replace (i + 1 - 1) with i by lia.
Qed.

Lemma files_described files acc :
  (forall file, file ∈ files -> file ∈ markdown_files) ->
  Forall2 describes acc.1 acc.2 ->
  Forall2 describes
    (fold_left
       (fun acc file =>
          let '(name, text) := file in
          if is_blank text then acc
          else
            let chunks := split_text text in
            add_chunks is_blank name text (length chunks) 0 chunks acc)
       files acc).1
    (fold_left
       (fun acc file =>
          let '(name, text) := file in
          if is_blank text then acc
          else
            let chunks := split_text text in
            add_chunks is_blank name text (length chunks) 0 chunks acc)
       files acc).2.
Proof.
  revert acc. induction files as [|[name text] files IH]; intros acc Hsub Hacc;
    [exact Hacc|].
  cbn [fold_left]. apply IH.
  - intros file Hfile. apply Hsub. by right.
  - destruct (is_blank text) eqn:Etext; [exact Hacc|].
    apply add_chunks_described; [apply Hsub; by left | exact Etext | done | exact Hacc].
Qed.

(** X29. The documents that [load_documents] returns are the non-blank
    chunks of the non-blank markdown files, file by file and in the order
    of the splitter; nothing is returned when the data folder is missing. *)
Theorem load_documents_keeps_nonblank_chunks (data_folder_exists : bool) :
  (load_documents is_blank split_text data_folder_exists markdown_files).1
  = if data_folder_exists then markdown_files ≫= nonblank_chunks else [].
Proof.
  unfold load_documents. destruct data_folder_exists; [|reflexivity]. cbn [negb].
  rewrite <- (app_nil_l (markdown_files ≫= nonblank_chunks)).
  change (@nil string) with (([] : list string, [] : list ChunkMetadata).1) at 2.
  generalize (([], []) : list string * list ChunkMetadata).
  induction markdown_files as [|[name text] files IH]; intros acc.
  - simpl. by rewrite app_nil_r.
  - cbn [fold_left]. rewrite IH. clear IH. rewrite bind_cons.
    unfold nonblank_chunks at 2. cbn [snd].
    destruct (is_blank text); [reflexivity|].
    by rewrite add_chunks_documents, <- app_assoc.
Qed.

(** X30. The two lists that [load_documents] returns have the same length,
    and the metadata at each position describes the document at that
    position: its file, that file's first line as title, the number of
    chunks of the file, and the document's own number among them, which lies
    between one and that total. *)
Theorem load_documents_metadata_describes_documents (data_folder_exists : bool) :
  Forall2 describes
    (load_documents is_blank split_text data_folder_exists markdown_files).1
    (load_documents is_blank split_text data_folder_exists markdown_files).2.
Proof.
  unfold load_documents. destruct data_folder_exists; [|constructor]. cbn [negb].
  apply files_described; [done | constructor].
Qed.
End LoadDocuments.
